(** * GeoNumber Intel: the request/response orchestration of [App.tsx]

    A shallow embedding of the three screens found in [src/App.tsx]:

    - the first screen: one call, the model's text shown as is
      ([Module Basic]);
    - header badge [v2.5.4]: manual API key, flash model first and the pro
      model as fallback ([Module V254], rendered by [Module View254]);
    - header badge [v2.4.0-Stable]: one module-level client, one call to the
      pro model ([Module V240], rendered by [Module View240]).

    The React component is modelled as an event-driven machine.  One event is
    one run of a handler to completion (a form submission, an interval tick, a
    settled [generateContent] promise, a fired [setTimeout]); all [setState]
    calls of one handler are applied together.  What the browser keeps between
    handlers (registered intervals, promises in flight, armed timeouts, the
    clock) is explicit in the state. *)

From Stdlib Require Import String Ascii List Bool Arith NArith ZArith QArith Lia.
From Stdlib Require Import Qround SpecFloat.
Import ListNotations.

Close Scope Q_scope.
Open Scope string_scope.
Open Scope list_scope.

Set Warnings "-register-all".

(** ** JavaScript values used by the component *)

(** A thrown value, seen through the only property the handlers read:
    [err.message] ([None] when it is undefined). *)
Record JsError : Type := mkError { message : option string }.

(** [new Error(msg)]. *)
Definition Error (msg : string) : JsError := {| message := Some msg |}.

(** A settled promise, or the outcome of a [try] body. *)
Inductive Settled (A : Type) : Type :=
| Resolved (a : A)
| Rejected (e : JsError).
Arguments Resolved {A} a.
Arguments Rejected {A} e.

(** Truthiness of a [string | undefined] operand. *)
Definition truthy_str (x : option string) : bool :=
  match x with
  | None => false
  | Some s => negb (s =? "")
  end.

(** [x || y] on [string | undefined] operands. *)
Definition or_js (x y : option string) : option string :=
  if truthy_str x then x else y.

(** [x || 'literal']: the right operand is a string literal, so is the result. *)
Definition or_default (x : option string) (d : string) : string :=
  match x with
  | Some s => if s =? "" then d else s
  | None => d
  end.

(** A template-literal hole [${x}] for [x : string | undefined]. *)
Definition interpolate (x : option string) : string :=
  match x with
  | Some s => s
  | None => "undefined"
  end.

(** ** JSON values and [JSON.parse]

    A JavaScript string is a sequence of 16-bit code units.  It is held here
    as the bytes of its UTF-8 encoding, which is how the string literals of
    this file are written; a surrogate code unit that is not part of a pair
    is held as the three bytes of its own number.  A JavaScript number is an
    IEEE 754 double.  [JSON.parse] decodes the escape sequences of a string
    and rounds a number to the nearest double, and so does the parser
    below. *)
Inductive JSON : Type :=
| JNull
| JBool (b : bool)
| JNumber (value : spec_float)
| JString (s : string)
| JArray (items : list JSON)
| JObject (members : list (string * JSON)).

Module Json.

Definition dquote : ascii := "034"%char.
Definition backslash : ascii := "092"%char.

Definition is_ws (c : ascii) : bool :=
  (c =? " ")%char || (c =? "009")%char || (c =? "010")%char || (c =? "013")%char.

Definition is_digit (c : ascii) : bool :=
  Nat.leb 48 (nat_of_ascii c) && Nat.leb (nat_of_ascii c) 57.

Definition is_hex (c : ascii) : bool :=
  is_digit c
  || (Nat.leb 65 (nat_of_ascii c) && Nat.leb (nat_of_ascii c) 70)
  || (Nat.leb 97 (nat_of_ascii c) && Nat.leb (nat_of_ascii c) 102).

Definition is_simple_escape (c : ascii) : bool :=
  (c =? dquote)%char || (c =? backslash)%char || (c =? "/")%char
  || (c =? "b")%char || (c =? "f")%char || (c =? "n")%char
  || (c =? "r")%char || (c =? "t")%char.

(** The character a two-character escape stands for. *)
Definition unescape (c : ascii) : ascii :=
  if (c =? "b")%char then "008"%char
  else if (c =? "f")%char then "012"%char
  else if (c =? "n")%char then "010"%char
  else if (c =? "r")%char then "013"%char
  else if (c =? "t")%char then "009"%char
  else c.

Definition hex_value (c : ascii) : N :=
  let n := N_of_ascii c in
  if is_digit c then (n - 48)%N
  else if (n <? 97)%N then (n - 55)%N
  else (n - 87)%N.

(** The code unit written by the four hex digits of a [\u] escape. *)
Definition code_unit (h1 h2 h3 h4 : ascii) : N :=
  (4096 * hex_value h1 + 256 * hex_value h2 + 16 * hex_value h3 + hex_value h4)%N.

(** The bytes of a code point. *)
Definition utf8 (cp : N) : list ascii :=
  if (cp <? 128)%N then [ascii_of_N cp]
  else if (cp <? 2048)%N then
    [ascii_of_N (192 + cp / 64); ascii_of_N (128 + cp mod 64)]
  else if (cp <? 65536)%N then
    [ascii_of_N (224 + cp / 4096); ascii_of_N (128 + (cp / 64) mod 64);
     ascii_of_N (128 + cp mod 64)]
  else
    [ascii_of_N (240 + cp / 262144); ascii_of_N (128 + (cp / 4096) mod 64);
     ascii_of_N (128 + (cp / 64) mod 64); ascii_of_N (128 + cp mod 64)].

(** The code unit held by the three bytes [237; b; c]. *)
Definition three_bytes (b c : ascii) : N :=
  (53248 + 64 * (N_of_ascii b - 128) + (N_of_ascii c - 128))%N.

Definition is_continuation (c : ascii) : bool :=
  (128 <=? N_of_ascii c)%N && (N_of_ascii c <? 192)%N.

(** A high surrogate followed by a low surrogate is one character: its two
    halves, each written on three bytes, become the four bytes of the
    character. *)
Fixpoint join_surrogates (s : list ascii) : list ascii :=
  match s with
  | [] => []
  | a :: r =>
      match r with
      | b :: c :: d :: e :: f :: r' =>
          if (a =? "237")%char && (160 <=? N_of_ascii b)%N && (N_of_ascii b <? 176)%N
             && is_continuation c
             && (d =? "237")%char && (176 <=? N_of_ascii e)%N && (N_of_ascii e <? 192)%N
             && is_continuation f
          then utf8 (65536 + 1024 * (three_bytes b c - 55296)
                     + (three_bytes e f - 56320))%N
                 ++ join_surrogates r'
          else a :: join_surrogates r
      | _ => a :: join_surrogates r
      end
  end.

Fixpoint skip_ws (s : list ascii) : list ascii :=
  match s with
  | c :: r => if is_ws c then skip_ws r else s
  | [] => []
  end.

Fixpoint strip_prefix (p s : list ascii) : option (list ascii) :=
  match p, s with
  | [], _ => Some s
  | a :: p', b :: s' => if (a =? b)%char then strip_prefix p' s' else None
  | _ :: _, [] => None
  end.

Fixpoint digits (s : list ascii) : list ascii * list ascii :=
  match s with
  | c :: r =>
      if is_digit c then let (ds, rest) := digits r in (c :: ds, rest)
      else ([], s)
  | [] => ([], [])
  end.

(** The value of a string after its opening quote, up to the closing one;
    [acc] holds the bytes read so far, last one first. *)
Fixpoint lex_string (s acc : list ascii) : option (list ascii * list ascii) :=
  match s with
  | [] => None
  | c :: r =>
      if (c =? dquote)%char then Some (join_surrogates (rev acc), r)
      else if (c =? backslash)%char then
        match r with
        | e :: r1 =>
            if is_simple_escape e then lex_string r1 (unescape e :: acc)
            else if (e =? "u")%char then
              match r1 with
              | h1 :: h2 :: h3 :: h4 :: r2 =>
                  if is_hex h1 && is_hex h2 && is_hex h3 && is_hex h4
                  then lex_string r2 (rev_append (utf8 (code_unit h1 h2 h3 h4)) acc)
                  else None
              | _ => None
              end
            else None
        | [] => None
        end
      else if Nat.ltb (nat_of_ascii c) 32 then None
      else lex_string r (c :: acc)
  end.

(** The parts of a number as written: the sign, the digits before and after
    the dot, the sign and the digits of the exponent. *)
Record Lexeme : Type := mkLexeme {
  negative : bool;
  int_digits : list ascii;
  frac_digits : list ascii;
  exp_negative : bool;
  exp_digits : list ascii
}.

(** A number: an optional minus sign; a zero, or a nonzero digit followed
    by digits; optionally a dot and at least one digit; optionally an
    exponent mark, a sign and at least one digit. *)
Definition lex_number (s : list ascii) : option (Lexeme * list ascii) :=
  let (sign, s1) :=
    match s with
    | c :: r => if (c =? "-")%char then (true, r) else (false, s)
    | [] => (false, s)
    end in
  let int_part :=
    match s1 with
    | c :: r =>
        if (c =? "0")%char then Some ([c], r)
        else if is_digit c then let (ds, rest) := digits r in Some (c :: ds, rest)
        else None
    | [] => None
    end in
  match int_part with
  | None => None
  | Some (ip, s2) =>
      let frac_part :=
        match s2 with
        | c :: r =>
            if (c =? ".")%char then
              match digits r with
              | ([], _) => None
              | (ds, rest) => Some (ds, rest)
              end
            else Some ([], s2)
        | [] => Some ([], s2)
        end in
      match frac_part with
      | None => None
      | Some (fp, s3) =>
          let exp_part :=
            match s3 with
            | c :: r =>
                if (c =? "e")%char || (c =? "E")%char then
                  let (sg, r1) :=
                    match r with
                    | d :: r' =>
                        if (d =? "+")%char then (false, r')
                        else if (d =? "-")%char then (true, r')
                        else (false, r)
                    | [] => (false, r)
                    end in
                  match digits r1 with
                  | ([], _) => None
                  | (ds, rest) => Some ((sg, ds), rest)
                  end
                else Some ((false, []), s3)
            | [] => Some ((false, []), s3)
            end in
          match exp_part with
          | None => None
          | Some ((sg, ep), s4) => Some (mkLexeme sign ip fp sg ep, s4)
          end
      end
  end.

Fixpoint decimal (ds : list ascii) (acc : N) : N :=
  match ds with
  | [] => acc
  | d :: r => decimal r (10 * acc + (N_of_ascii d - 48))%N
  end.

Fixpoint strip_zeros (ds : list ascii) : list ascii :=
  match ds with
  | d :: r => if (d =? "0")%char then strip_zeros r else ds
  | [] => []
  end.

(** The double nearest to [m * 10 ^ e], a tie going to the even mantissa:
    the integer itself rounded when [e] is not negative, the quotient by the
    power of ten otherwise. *)
Definition to_double (neg : bool) (m : N) (e : Z) : spec_float :=
  match m with
  | N0 => S754_zero neg
  | Npos p =>
      if (0 <=? e)%Z then
        binary_normalize 53 1024
          (if neg then Z.neg p * 10 ^ e else Z.pos p * 10 ^ e)%Z 0 neg
      else
        let '(q, e', l) := SFdiv_core_binary 53 1024 (Z.pos p) 0 (10 ^ (- e))%Z 0 in
        binary_round_aux 53 1024 neg q e' l
  end.

(** The double a lexeme stands for.  A decimal of more than 400 digits
    before the dot is beyond every double and one that starts more than 400
    places after the dot is below half the smallest one, so these are
    answered without computing the power of ten. *)
Definition number_value (lx : Lexeme) : spec_float :=
  let ds := (int_digits lx ++ frac_digits lx)%list in
  let m := decimal ds 0 in
  let written := Z.of_N (decimal (exp_digits lx) 0) in
  let e := ((if exp_negative lx then - written else written)
            - Z.of_nat (length (frac_digits lx)))%Z in
  let magnitude := (Z.of_nat (length (strip_zeros ds)) + e)%Z in
  if (m =? 0)%N then S754_zero (negative lx)
  else if (400 <? magnitude)%Z then S754_infinity (negative lx)
  else if (magnitude <? -400)%Z then S754_zero (negative lx)
  else to_double (negative lx) m e.

Inductive Goal : Type :=
| GValue
| GElements (acc : list JSON)
| GMembers (acc : list (string * JSON)).

(** Recursive descent; [fuel] bounds the depth of the calls. *)
Fixpoint parse (fuel : nat) (g : Goal) (s : list ascii) : option (JSON * list ascii) :=
  match fuel with
  | O => None
  | S fuel' =>
      match g with
      | GValue =>
          match skip_ws s with
          | [] => None
          | c :: r =>
              if (c =? "[")%char then
                match skip_ws r with
                | d :: r' =>
                    if (d =? "]")%char then Some (JArray [], r')
                    else parse fuel' (GElements []) r
                | [] => None
                end
              else if (c =? "{")%char then
                match skip_ws r with
                | d :: r' =>
                    if (d =? "}")%char then Some (JObject [], r')
                    else parse fuel' (GMembers []) r
                | [] => None
                end
              else if (c =? dquote)%char then
                match lex_string r [] with
                | Some (str, r') => Some (JString (string_of_list_ascii str), r')
                | None => None
                end
              else
                match strip_prefix (list_ascii_of_string "null") (c :: r) with
                | Some r' => Some (JNull, r')
                | None =>
                match strip_prefix (list_ascii_of_string "true") (c :: r) with
                | Some r' => Some (JBool true, r')
                | None =>
                match strip_prefix (list_ascii_of_string "false") (c :: r) with
                | Some r' => Some (JBool false, r')
                | None =>
                match lex_number (c :: r) with
                | Some (lx, r') => Some (JNumber (number_value lx), r')
                | None => None
                end end end end
          end
      | GElements acc =>
          match parse fuel' GValue s with
          | Some (v, r) =>
              match skip_ws r with
              | d :: r' =>
                  if (d =? ",")%char then parse fuel' (GElements (v :: acc)) r'
                  else if (d =? "]")%char then Some (JArray (rev (v :: acc)), r')
                  else None
              | [] => None
              end
          | None => None
          end
      | GMembers acc =>
          match skip_ws s with
          | q :: r =>
              if (q =? dquote)%char then
                match lex_string r [] with
                | Some (k, r1) =>
                    match skip_ws r1 with
                    | col :: r2 =>
                        if (col =? ":")%char then
                          match parse fuel' GValue r2 with
                          | Some (v, r3) =>
                              let m := (string_of_list_ascii k, v) in
                              match skip_ws r3 with
                              | d :: r4 =>
                                  if (d =? ",")%char then parse fuel' (GMembers (m :: acc)) r4
                                  else if (d =? "}")%char then Some (JObject (rev (m :: acc)), r4)
                                  else None
                              | [] => None
                              end
                          | None => None
                          end
                        else None
                    | [] => None
                    end
                | None => None
                end
              else None
          | [] => None
          end
      end
  end.

End Json.

(** [JSON.parse(text)]: [None] when the engine throws a SyntaxError. *)
Definition JSON_parse (text : string) : option JSON :=
  let s := list_ascii_of_string text in
  match Json.parse (2 * length s + 2) Json.GValue s with
  | Some (v, rest) =>
      match Json.skip_ws rest with
      | [] => Some v
      | _ :: _ => None
      end
  | None => None
  end.

(** Truthiness of a parsed value, as [report ? ... : ...] in the view tests
    it: of the numbers only the two zeros (and NaN, which no text gives) are
    falsy. *)
Definition truthy (v : JSON) : bool :=
  match v with
  | JNull => false
  | JBool b => b
  | JNumber (S754_zero _) => false
  | JNumber S754_nan => false
  | JNumber _ => true
  | JString s => negb (s =? "")
  | JArray _ => true
  | JObject _ => true
  end.

(** [o.key] on a parsed object: the last member with that key. *)
Fixpoint get_member (key : string) (ms : list (string * JSON)) : option JSON :=
  match ms with
  | [] => None
  | (k, v) :: rest =>
      match get_member key rest with
      | Some v' => Some v'
      | None => if k =? key then Some v else None
      end
  end.

(** ** The libraries and the browser, as the component uses them *)

(** What the handlers read of the object returned by
    [parsePhoneNumberWithError]. *)
Record PhoneNumber : Type := mkPhoneNumber {
  number : string;
  country : option string;
  carrier : option string;
  getType : option string;
  isValid : bool
}.

(** [response.text] of a resolved [generateContent] call. *)
Record GenerateContentResponse : Type := mkResponse { text : option string }.

(** Everything fixed outside the component: the number-parsing library
    ([Rejected] when it throws), the message of the SyntaxError the engine
    throws on a text that [JSON.parse] refuses, and the key sources of the
    build. *)
Record World : Type := mkWorld {
  parsePhoneNumberWithError : string -> Settled PhoneNumber;
  syntaxError : string -> JsError;
  GEMINI_API_KEY : option string;
  USER_API_KEY : option string;
  API_KEY : option string;
  VITE_GEMINI_API_KEY : option string
}.

(** One outbound [genAI.models.generateContent] call. *)
Record ApiCall : Type := mkCall {
  call_apiKey : option string;
  call_model : string;
  call_contents : string;
  call_responseMimeType : string
}.

(** A timer of the browser: armed at [armed], it may fire from
    [armed + delay] on.  [owner] is ghost: the submission it was created for. *)
Record Timer (A : Type) : Type := mkTimer {
  handle : nat;
  owner : nat;
  armed : N;
  delay : N;
  payload : A
}.
Arguments mkTimer {A}.
Arguments handle {A}.
Arguments owner {A}.
Arguments armed {A}.
Arguments delay {A}.
Arguments payload {A}.

(** A [generateContent] promise in flight, with what the suspended
    [startScan] does when it settles.  [rq_owner] is ghost. *)
Record Request (K : Type) : Type := mkRequest {
  rq_handle : nat;
  rq_owner : nat;
  rq_cont : K
}.
Arguments mkRequest {K}.
Arguments rq_handle {K}.
Arguments rq_owner {K}.
Arguments rq_cont {K}.

(** What lives outside React state between two handlers.  [calls] logs the
    outbound calls, oldest first; [session] counts the submissions (ghost). *)
Record Runtime (K : Type) : Type := mkRuntime {
  now : N;
  fresh : nat;
  intervals : list (Timer unit);
  timeouts : list (Timer JSON);
  inflight : list (Request K);
  calls : list ApiCall;
  session : nat
}.
Arguments mkRuntime {K}.
Arguments now {K}.
Arguments fresh {K}.
Arguments intervals {K}.
Arguments timeouts {K}.
Arguments inflight {K}.
Arguments calls {K}.
Arguments session {K}.

Section RuntimeOps.
Context {K : Type}.

Definition boot : Runtime K :=
  mkRuntime 0%N 0 [] [] [] [] 0.

Definition elapse (ms : N) (r : Runtime K) : Runtime K :=
  mkRuntime (now r + ms)%N (fresh r) (intervals r) (timeouts r) (inflight r)
            (calls r) (session r).

Definition begin_session (r : Runtime K) : Runtime K :=
  mkRuntime (now r) (fresh r) (intervals r) (timeouts r) (inflight r)
            (calls r) (S (session r)).

(** [setInterval(callback, period)] *)
Definition setInterval (own : nat) (period : N) (r : Runtime K) : Runtime K :=
  mkRuntime (now r) (S (fresh r))
            (intervals r ++ [mkTimer (fresh r) own (now r) period tt])
            (timeouts r) (inflight r) (calls r) (session r).

(** [clearInterval(h)] *)
Definition clearInterval (h : nat) (r : Runtime K) : Runtime K :=
  mkRuntime (now r) (fresh r)
            (filter (fun t => negb (handle t =? h)%nat) (intervals r))
            (timeouts r) (inflight r) (calls r) (session r).

(** The browser re-arms an interval each time it runs its callback. *)
Definition rearm (h : nat) (r : Runtime K) : Runtime K :=
  mkRuntime (now r) (fresh r)
            (map (fun t => if (handle t =? h)%nat
                           then mkTimer (handle t) (owner t) (now r) (delay t) tt
                           else t) (intervals r))
            (timeouts r) (inflight r) (calls r) (session r).

(** [setTimeout(callback, ms)], the callback closing over [result]. *)
Definition setTimeout (own : nat) (ms : N) (result : JSON) (r : Runtime K) : Runtime K :=
  mkRuntime (now r) (S (fresh r)) (intervals r)
            (timeouts r ++ [mkTimer (fresh r) own (now r) ms result])
            (inflight r) (calls r) (session r).

Definition drop_timeout (h : nat) (r : Runtime K) : Runtime K :=
  mkRuntime (now r) (fresh r) (intervals r)
            (filter (fun t => negb (handle t =? h)%nat) (timeouts r))
            (inflight r) (calls r) (session r).

(** [await genAI.models.generateContent({...})]: the call goes out and the
    caller is suspended on [k]. *)
Definition generateContent (own : nat) (c : ApiCall) (k : K) (r : Runtime K) : Runtime K :=
  mkRuntime (now r) (S (fresh r)) (intervals r) (timeouts r)
            (inflight r ++ [mkRequest (fresh r) own k])
            (calls r ++ [c]) (session r).

Definition drop_request (h : nat) (r : Runtime K) : Runtime K :=
  mkRuntime (now r) (fresh r) (intervals r) (timeouts r)
            (filter (fun q => negb (rq_handle q =? h)%nat) (inflight r))
            (calls r) (session r).

Definition find_timer {A : Type} (h : nat) (ts : list (Timer A)) : option (Timer A) :=
  find (fun t => (handle t =? h)%nat) ts.

Definition find_request (h : nat) (r : Runtime K) : option (Request K) :=
  find (fun q => (rq_handle q =? h)%nat) (inflight r).

(** A timer never fires early. *)
Definition is_due {A : Type} (t : Timer A) (r : Runtime K) : bool :=
  (armed t + delay t <=? now r)%N.

End RuntimeOps.

(** [Math.random()] returns a number in the interval from 0 (included) to 1
    (excluded).  Progress values are exact rationals here. *)
Definition is_random (x : Q) : bool :=
  Qle_bool 0 x && negb (Qle_bool 1 x).

(** The phases of the screen. *)
Inductive Phase : Type := Idle | Scanning | Success | Failure.

(** Joins the lines of a template literal. *)
Definition newline : string := String "010"%char "".
Definition lines (ls : list string) : string := String.concat newline ls.
Definition quoted (s : string) : string :=
  (String Json.dquote s ++ String Json.dquote "")%string.

(** The shape declared by [interface IntelReport]. *)
Definition is_string (v : option JSON) : bool :=
  match v with Some (JString _) => true | _ => false end.

Definition is_risk (v : option JSON) : bool :=
  match v with
  | Some (JString s) => (s =? "Low") || (s =? "Medium") || (s =? "High")
  | _ => false
  end.

Definition is_string_array (v : option JSON) : bool :=
  match v with
  | Some (JArray items) => forallb (fun i => is_string (Some i)) items
  | _ => false
  end.

Definition conforms_IntelReport (v : JSON) : bool :=
  match v with
  | JObject ms =>
      is_string (get_member "summary" ms)
      && is_string (get_member "regionDetails" ms)
      && is_string (get_member "carrierInfo" ms)
      && is_risk (get_member "securityRisk" ms)
      && is_string_array (get_member "recommendations" ms)
  | _ => false
  end.

(** ** Variant v2.5.4: manual key, flash model with pro fallback *)

Module V254.

(** Where a suspended [startScan] resumes: after the flash call (it still
    holds the client's key and [parsed] for a retry) or after the pro
    call. *)
Inductive Continuation : Type :=
| AwaitFlash (apiKey : option string) (parsed : PhoneNumber)
| AwaitPro.

Record State : Type := mkState {
  phoneNumber : string;
  isScanning : bool;
  error : option string;
  report : JSON;
  parsedData : option PhoneNumber;
  scanProgress : Q;
  manualKey : string;
  showKeyInput : bool;
  rt : Runtime Continuation
}.

(** The [useState] initial values. *)
Definition init : State :=
  mkState "" false None JNull None 0%Q "" false boot.

Definition setPhoneNumber (v : string) (st : State) : State :=
  mkState v (isScanning st) (error st) (report st) (parsedData st)
          (scanProgress st) (manualKey st) (showKeyInput st) (rt st).
Definition setIsScanning (v : bool) (st : State) : State :=
  mkState (phoneNumber st) v (error st) (report st) (parsedData st)
          (scanProgress st) (manualKey st) (showKeyInput st) (rt st).
Definition setError (v : option string) (st : State) : State :=
  mkState (phoneNumber st) (isScanning st) v (report st) (parsedData st)
          (scanProgress st) (manualKey st) (showKeyInput st) (rt st).
Definition setReport (v : JSON) (st : State) : State :=
  mkState (phoneNumber st) (isScanning st) (error st) v (parsedData st)
          (scanProgress st) (manualKey st) (showKeyInput st) (rt st).
Definition setParsedData (v : option PhoneNumber) (st : State) : State :=
  mkState (phoneNumber st) (isScanning st) (error st) (report st) v
          (scanProgress st) (manualKey st) (showKeyInput st) (rt st).
Definition setScanProgress (v : Q) (st : State) : State :=
  mkState (phoneNumber st) (isScanning st) (error st) (report st) (parsedData st)
          v (manualKey st) (showKeyInput st) (rt st).
Definition setManualKey (v : string) (st : State) : State :=
  mkState (phoneNumber st) (isScanning st) (error st) (report st) (parsedData st)
          (scanProgress st) v (showKeyInput st) (rt st).
Definition setShowKeyInput (v : bool) (st : State) : State :=
  mkState (phoneNumber st) (isScanning st) (error st) (report st) (parsedData st)
          (scanProgress st) (manualKey st) v (rt st).
Definition onRuntime (f : Runtime Continuation -> Runtime Continuation)
           (st : State) : State :=
  mkState (phoneNumber st) (isScanning st) (error st) (report st) (parsedData st)
          (scanProgress st) (manualKey st) (showKeyInput st) (f (rt st)).

Definition invalid_number_message : string :=
  "Nomor telepon tidak valid. Pastikan gunakan format internasional (misal: +62...).".
Definition number_failure_message : string := "Gagal memproses nomor.".
Definition missing_key_message : string :=
  "API Key tidak terdeteksi secara otomatis. Silakan masukkan secara manual di bawah.".
Definition report_failure_message : string := "Gagal mendapatkan laporan intelijen.".
Definition placeholder_key : string := "MY_GEMINI_API_KEY".

(** The template literal of the flash call. *)
Definition flash_prompt (parsed : PhoneNumber) : string :=
  (lines [
    "Analyze this phone number metadata:";
    "            Number: " ++ number parsed;
    "            Country: " ++ interpolate (country parsed);
    "            Carrier: " ++ or_default (carrier parsed) "Unknown";
    "            ";
    "            Provide a technical intelligence report in Indonesian. ";
    "            Return ONLY a JSON object with this structure:";
    "            {";
    "              " ++ quoted "summary" ++ ": " ++ quoted "Short overview" ++ ",";
    "              " ++ quoted "regionDetails" ++ ": "
      ++ quoted "Specific details about the registration area" ++ ",";
    "              " ++ quoted "carrierInfo" ++ ": "
      ++ quoted "Information about the network provider" ++ ",";
    "              " ++ quoted "securityRisk" ++ ": " ++ quoted "Low" ++ " | "
      ++ quoted "Medium" ++ " | " ++ quoted "High" ++ ",";
    "              " ++ quoted "recommendations" ++ ": [" ++ quoted "tip 1" ++ ", "
      ++ quoted "tip 2" ++ ", " ++ quoted "tip 3" ++ "]";
    "            }"
  ])%string.

(** The template literal of the pro call in the inner [catch]. *)
Definition pro_prompt (parsed : PhoneNumber) : string :=
  (lines [
    "Analyze this phone number metadata:";
    "            Number: " ++ number parsed;
    "            Country: " ++ interpolate (country parsed);
    "            Carrier: " ++ or_default (carrier parsed) "Unknown";
    "            ";
    "            Provide a technical intelligence report in Indonesian. ";
    "            Return ONLY a JSON object with this structure:";
    "            {";
    "              " ++ quoted "summary" ++ ": " ++ quoted "Short overview" ++ ",";
    "              " ++ quoted "regionDetails" ++ ": "
      ++ quoted "Specific details about the registration area" ++ ",";
    "              " ++ quoted "carrierInfo" ++ ": "
      ++ quoted "Information about the network provider" ++ ",";
    "              " ++ quoted "securityRisk" ++ ": " ++ quoted "Low" ++ " | "
      ++ quoted "Medium" ++ " | " ++ quoted "High" ++ ",";
    "              " ++ quoted "recommendations" ++ ": [" ++ quoted "tip 1" ++ ", "
      ++ quoted "tip 2" ++ ", " ++ quoted "tip 3" ++ "]";
    "            }"
  ])%string.

Definition flash_call (apiKey : option string) (parsed : PhoneNumber) : ApiCall :=
  mkCall apiKey "gemini-3-flash-preview" (flash_prompt parsed) "application/json".

Definition pro_call (apiKey : option string) (parsed : PhoneNumber) : ApiCall :=
  mkCall apiKey "gemini-3.1-pro-preview" (pro_prompt parsed) "application/json".

(** [apiKey === 'literal'] *)
Definition strict_eq (x : option string) (s : string) : bool :=
  match x with
  | Some y => y =? s
  | None => false
  end.

(** The key sources, in the order of the [||] chain. *)
Definition resolve_key (w : World) (st : State) : option string :=
  or_js (or_js (or_js (or_js (Some (manualKey st)) (GEMINI_API_KEY w))
                      (USER_API_KEY w))
               (API_KEY w))
        (VITE_GEMINI_API_KEY w).

(** [!apiKey || apiKey === 'MY_GEMINI_API_KEY' || apiKey === ''] *)
Definition key_missing (apiKey : option string) : bool :=
  negb (truthy_str apiKey) || strict_eq apiKey placeholder_key || strict_eq apiKey "".

(** The outer [catch] of [startScan]. *)
Definition startScan_catch (err : JsError) (st : State) : State :=
  let st := setError (Some (or_default (message err) report_failure_message)) st in
  setIsScanning false st.

(** [startScan] from [JSON.parse] on, once a response is there. *)
Definition startScan_parse (w : World) (own : nat)
           (response : GenerateContentResponse) (st : State) : State :=
  let body := or_default (text response) "{}" in
  match JSON_parse body with
  | Some result => onRuntime (setTimeout own 1500 result) st
  | None => startScan_catch (syntaxError w body) st
  end.

(** [startScan] up to its first [await]. *)
Definition startScan (w : World) (parsed : PhoneNumber) (st : State) : State :=
  let own := session (rt st) in
  let st := setIsScanning true st in
  let st := setScanProgress 0%Q st in
  let st := onRuntime (setInterval own 300) st in
  let apiKey := resolve_key w st in
  if key_missing apiKey then
    let st := setShowKeyInput true st in
    startScan_catch (Error missing_key_message) st
  else
    onRuntime (generateContent own (flash_call apiKey parsed)
                               (AwaitFlash apiKey parsed)) st.

(** [startScan] resumed by a settled call. *)
Definition startScan_resume (w : World) (rq : Request Continuation)
           (outcome : Settled GenerateContentResponse) (st : State) : State :=
  match rq_cont rq, outcome with
  | AwaitFlash _ _, Resolved response => startScan_parse w (rq_owner rq) response st
  | AwaitFlash apiKey parsed, Rejected flashErr =>
      onRuntime (generateContent (rq_owner rq) (pro_call apiKey parsed) AwaitPro) st
  | AwaitPro, Resolved response => startScan_parse w (rq_owner rq) response st
  | AwaitPro, Rejected err => startScan_catch err st
  end.

(** The callback given to [setTimeout]. *)
Definition show_report (result : JSON) (st : State) : State :=
  let st := setReport result st in
  let st := setIsScanning false st in
  setScanProgress 100%Q st.

(** The callback given to [setInterval], with the updater it passes to
    [setScanProgress]; [random] is what [Math.random()] returns. *)
Definition tick (interval : nat) (random : Q) (st : State) : State :=
  if Qle_bool 100 (scanProgress st) then
    let st := onRuntime (clearInterval interval) st in
    setScanProgress 100%Q st
  else
    setScanProgress (scanProgress st + random * 10)%Q st.

Definition handleSearch_catch (err : JsError) (st : State) : State :=
  setError (Some (or_default (message err) number_failure_message)) st.

Definition handleSearch (w : World) (st : State) : State :=
  let st := setError None st in
  let st := setReport JNull st in
  let st := setParsedData None st in
  match parsePhoneNumberWithError w (phoneNumber st) with
  | Resolved parsed =>
      if isValid parsed then
        let st := setParsedData (Some parsed) st in
        startScan w parsed st
      else handleSearch_catch (Error invalid_number_message) st
  | Rejected err => handleSearch_catch err st
  end.

(** [disabled={isScanning || !phoneNumber}] on the submit button. *)
Definition submit_disabled (st : State) : bool :=
  isScanning st || (phoneNumber st =? "").

Inductive Event : Type :=
| ChangePhoneNumber (value : string)
| ChangeManualKey (value : string)
| Submit
| Elapse (ms : N)
| Tick (interval : nat) (random : Q)
| Settle (request : nat) (outcome : Settled GenerateContentResponse)
| Fire (timeout : nat).

(** One handler run; [None] when the event cannot happen in [st]. *)
Definition step (w : World) (st : State) (ev : Event) : option State :=
  match ev with
  | ChangePhoneNumber v => Some (setPhoneNumber v st)
  | ChangeManualKey v =>
      if showKeyInput st then Some (setManualKey v st) else None
  | Submit =>
      if submit_disabled st then None
      else Some (handleSearch w (onRuntime begin_session st))
  | Elapse ms => Some (onRuntime (elapse ms) st)
  | Tick h random =>
      match find_timer h (intervals (rt st)) with
      | Some t =>
          if is_due t (rt st) && is_random random
          then Some (tick h random (onRuntime (rearm h) st))
          else None
      | None => None
      end
  | Settle h outcome =>
      match find_request h (rt st) with
      | Some rq => Some (startScan_resume w rq outcome (onRuntime (drop_request h) st))
      | None => None
      end
  | Fire h =>
      match find_timer h (timeouts (rt st)) with
      | Some t =>
          if is_due t (rt st)
          then Some (show_report (payload t) (onRuntime (drop_timeout h) st))
          else None
      | None => None
      end
  end.

Fixpoint run (w : World) (st : State) (evs : list Event) : option State :=
  match evs with
  | [] => Some st
  | ev :: rest =>
      match step w st ev with
      | Some st' => run w st' rest
      | None => None
      end
  end.

(** The screens a run goes through, the first one included. *)
Fixpoint trace (w : World) (st : State) (evs : list Event) : list State :=
  st :: match evs with
        | [] => []
        | ev :: rest =>
            match step w st ev with
            | Some st' => trace w st' rest
            | None => []
            end
        end.

Inductive reachable (w : World) : State -> Prop :=
| reach_init : reachable w init
| reach_step st ev st' :
    reachable w st -> step w st ev = Some st' -> reachable w st'.

(** What the view shows: the scanning panel while [isScanning]; the error
    box when [error] is set; the report panel when [report] is truthy. *)
Definition phase (st : State) : Phase :=
  if isScanning st then Scanning
  else if truthy_str (error st) then Failure
  else if truthy (report st) then Success
  else Idle.

(** What the [try] block of [handleSearch] throws on a raw input, if
    anything: the library's error, or the component's own for a number
    that parses and is not valid. *)
Definition validation_error (w : World) (raw : string) : option JsError :=
  match parsePhoneNumberWithError w raw with
  | Resolved parsed =>
      if isValid parsed then None else Some (Error invalid_number_message)
  | Rejected err => Some err
  end.

(** The first three statements of [handleSearch]. *)
Definition cleared (st : State) : State :=
  setParsedData None (setReport JNull (setError None st)).

(** A key source that cannot serve: undefined, empty, or the placeholder. *)
Definition unusable (source : option string) : bool :=
  negb (truthy_str source) || strict_eq source placeholder_key.

(** The same build with no key configured anywhere. *)
Definition without_keys (w : World) : World :=
  mkWorld (parsePhoneNumberWithError w) (syntaxError w) None None None None.

(** Events that complete nothing: typing, the clock, interval ticks. *)
Definition passive (ev : Event) : bool :=
  match ev with
  | ChangePhoneNumber _ | ChangeManualKey _ | Elapse _ | Tick _ _ => true
  | Submit | Settle _ _ | Fire _ => false
  end.

(** What passive events leave alone. *)
Definition same_session (st st' : State) : Prop :=
  isScanning st' = isScanning st /\ error st' = error st
  /\ report st' = report st
  /\ inflight (rt st') = inflight (rt st)
  /\ timeouts (rt st') = timeouts (rt st)
  /\ calls (rt st') = calls (rt st)
  /\ session (rt st') = session (rt st).

(** The submission an asynchronous completion was created for. *)
Definition completion_owner (st : State) (ev : Event) : option nat :=
  match ev with
  | Settle h _ => option_map rq_owner (find_request h (rt st))
  | Fire h => option_map owner (find_timer h (timeouts (rt st)))
  | _ => None
  end.

(** What can be pending for the component: nothing; or one call in flight;
    or one armed timeout.  While something is pending the component is
    scanning, nothing has been reported yet, and what is pending was
    created for the latest submission. *)
Inductive pending_shape (st : State) : Prop :=
| shape_quiet :
    inflight (rt st) = [] -> timeouts (rt st) = [] -> pending_shape st
| shape_request rq :
    isScanning st = true -> inflight (rt st) = [rq] -> timeouts (rt st) = [] ->
    rq_owner rq = session (rt st) -> report st = JNull -> error st = None ->
    pending_shape st
| shape_timeout t :
    isScanning st = true -> inflight (rt st) = [] -> timeouts (rt st) = [t] ->
    owner t = session (rt st) -> delay t = 1500%N ->
    report st = JNull -> error st = None ->
    pending_shape st.

Definition invariant (st : State) : Prop :=
  pending_shape st /\ (report st <> JNull -> scanProgress st = 100%Q).

End V254.

(** ** Variant v2.4.0-Stable: one client, one call to the pro model *)

Module V240.

(** The only place where [startScan] is suspended. *)
Inductive Continuation : Type :=
| AwaitPro.

Record State : Type := mkState {
  phoneNumber : string;
  isScanning : bool;
  error : option string;
  report : JSON;
  parsedData : option PhoneNumber;
  scanProgress : Q;
  rt : Runtime Continuation
}.

(** The [useState] initial values. *)
Definition init : State :=
  mkState "" false None JNull None 0%Q boot.

Definition setPhoneNumber (v : string) (st : State) : State :=
  mkState v (isScanning st) (error st) (report st) (parsedData st)
          (scanProgress st) (rt st).
Definition setIsScanning (v : bool) (st : State) : State :=
  mkState (phoneNumber st) v (error st) (report st) (parsedData st)
          (scanProgress st) (rt st).
Definition setError (v : option string) (st : State) : State :=
  mkState (phoneNumber st) (isScanning st) v (report st) (parsedData st)
          (scanProgress st) (rt st).
Definition setReport (v : JSON) (st : State) : State :=
  mkState (phoneNumber st) (isScanning st) (error st) v (parsedData st)
          (scanProgress st) (rt st).
Definition setParsedData (v : option PhoneNumber) (st : State) : State :=
  mkState (phoneNumber st) (isScanning st) (error st) (report st) v
          (scanProgress st) (rt st).
Definition setScanProgress (v : Q) (st : State) : State :=
  mkState (phoneNumber st) (isScanning st) (error st) (report st) (parsedData st)
          v (rt st).
Definition onRuntime (f : Runtime Continuation -> Runtime Continuation)
           (st : State) : State :=
  mkState (phoneNumber st) (isScanning st) (error st) (report st) (parsedData st)
          (scanProgress st) (f (rt st)).

Definition invalid_number_message : string := "Nomor telepon tidak valid.".
Definition number_failure_message : string := "Gagal memproses nomor.".
Definition report_failure_message : string := "Gagal mendapatkan laporan intelijen.".

(** The key of the module-level client:
    [process.env.GEMINI_API_KEY || '']. *)
Definition genAI_key (w : World) : option string :=
  Some (or_default (GEMINI_API_KEY w) "").

(** The template literal of the call. *)
Definition pro_prompt (parsed : PhoneNumber) : string :=
  (lines [
    "Analyze this phone number metadata:";
    "          Number: " ++ number parsed;
    "          Country: " ++ interpolate (country parsed);
    "          Carrier: " ++ or_default (carrier parsed) "Unknown";
    "          Type: " ++ or_default (getType parsed) "Unknown";
    "          ";
    "          Provide a technical intelligence report in Indonesian. ";
    "          Return ONLY a JSON object with this structure:";
    "          {";
    "            " ++ quoted "summary" ++ ": "
      ++ quoted "Short overview of the number's origin" ++ ",";
    "            " ++ quoted "regionDetails" ++ ": "
      ++ quoted "Specific details about the registration area/region in that country"
      ++ ",";
    "            " ++ quoted "carrierInfo" ++ ": "
      ++ quoted "Information about the network provider and its coverage" ++ ",";
    "            " ++ quoted "securityRisk" ++ ": " ++ quoted "Low" ++ " | "
      ++ quoted "Medium" ++ " | " ++ quoted "High" ++ ",";
    "            " ++ quoted "recommendations" ++ ": ["
      ++ quoted "list of 3 security tips for this type of number" ++ "]";
    "          }"
  ])%string.

Definition pro_call (w : World) (parsed : PhoneNumber) : ApiCall :=
  mkCall (genAI_key w) "gemini-3.1-pro-preview" (pro_prompt parsed) "application/json".

(** The [catch] of [startScan]: the caught value is logged, not shown. *)
Definition startScan_catch (err : JsError) (st : State) : State :=
  let st := setError (Some report_failure_message) st in
  setIsScanning false st.

(** [startScan] from [JSON.parse] on, once the response is there. *)
Definition startScan_parse (w : World) (own : nat)
           (response : GenerateContentResponse) (st : State) : State :=
  let body := or_default (text response) "{}" in
  match JSON_parse body with
  | Some result => onRuntime (setTimeout own 2000 result) st
  | None => startScan_catch (syntaxError w body) st
  end.

(** [startScan] up to its [await]. *)
Definition startScan (w : World) (parsed : PhoneNumber) (st : State) : State :=
  let own := session (rt st) in
  let st := setIsScanning true st in
  let st := setScanProgress 0%Q st in
  let st := onRuntime (setInterval own 400) st in
  onRuntime (generateContent own (pro_call w parsed) AwaitPro) st.

(** [startScan] resumed by the settled call. *)
Definition startScan_resume (w : World) (rq : Request Continuation)
           (outcome : Settled GenerateContentResponse) (st : State) : State :=
  match rq_cont rq, outcome with
  | AwaitPro, Resolved response => startScan_parse w (rq_owner rq) response st
  | AwaitPro, Rejected err => startScan_catch err st
  end.

(** The callback given to [setTimeout]. *)
Definition show_report (result : JSON) (st : State) : State :=
  let st := setReport result st in
  let st := setIsScanning false st in
  setScanProgress 100%Q st.

(** The callback given to [setInterval], with the updater it passes to
    [setScanProgress]; [random] is what [Math.random()] returns. *)
Definition tick (interval : nat) (random : Q) (st : State) : State :=
  if Qle_bool 100 (scanProgress st) then
    let st := onRuntime (clearInterval interval) st in
    setScanProgress 100%Q st
  else
    setScanProgress (scanProgress st + random * 15)%Q st.

Definition handleSearch_catch (err : JsError) (st : State) : State :=
  setError (Some (or_default (message err) number_failure_message)) st.

Definition handleSearch (w : World) (st : State) : State :=
  let st := setError None st in
  let st := setReport JNull st in
  let st := setParsedData None st in
  match parsePhoneNumberWithError w (phoneNumber st) with
  | Resolved parsed =>
      if isValid parsed then
        let st := setParsedData (Some parsed) st in
        startScan w parsed st
      else handleSearch_catch (Error invalid_number_message) st
  | Rejected err => handleSearch_catch err st
  end.

(** [disabled={isScanning || !phoneNumber}] on the submit button. *)
Definition submit_disabled (st : State) : bool :=
  isScanning st || (phoneNumber st =? "").

Inductive Event : Type :=
| ChangePhoneNumber (value : string)
| Submit
| Elapse (ms : N)
| Tick (interval : nat) (random : Q)
| Settle (request : nat) (outcome : Settled GenerateContentResponse)
| Fire (timeout : nat).

(** One handler run; [None] when the event cannot happen in [st]. *)
Definition step (w : World) (st : State) (ev : Event) : option State :=
  match ev with
  | ChangePhoneNumber v => Some (setPhoneNumber v st)
  | Submit =>
      if submit_disabled st then None
      else Some (handleSearch w (onRuntime begin_session st))
  | Elapse ms => Some (onRuntime (elapse ms) st)
  | Tick h random =>
      match find_timer h (intervals (rt st)) with
      | Some t =>
          if is_due t (rt st) && is_random random
          then Some (tick h random (onRuntime (rearm h) st))
          else None
      | None => None
      end
  | Settle h outcome =>
      match find_request h (rt st) with
      | Some rq => Some (startScan_resume w rq outcome (onRuntime (drop_request h) st))
      | None => None
      end
  | Fire h =>
      match find_timer h (timeouts (rt st)) with
      | Some t =>
          if is_due t (rt st)
          then Some (show_report (payload t) (onRuntime (drop_timeout h) st))
          else None
      | None => None
      end
  end.

Fixpoint run (w : World) (st : State) (evs : list Event) : option State :=
  match evs with
  | [] => Some st
  | ev :: rest =>
      match step w st ev with
      | Some st' => run w st' rest
      | None => None
      end
  end.

Inductive reachable (w : World) : State -> Prop :=
| reach_init : reachable w init
| reach_step st ev st' :
    reachable w st -> step w st ev = Some st' -> reachable w st'.

(** What the view shows: the scanning panel while [isScanning]; the error
    box when [error] is set; the report panel when [report] is truthy. *)
Definition phase (st : State) : Phase :=
  if isScanning st then Scanning
  else if truthy_str (error st) then Failure
  else if truthy (report st) then Success
  else Idle.

(** What the [try] block of [handleSearch] throws on a raw input, if
    anything: the library's error, or the component's own for a number
    that parses and is not valid. *)
Definition validation_error (w : World) (raw : string) : option JsError :=
  match parsePhoneNumberWithError w raw with
  | Resolved parsed =>
      if isValid parsed then None else Some (Error invalid_number_message)
  | Rejected err => Some err
  end.

(** The first three statements of [handleSearch]. *)
Definition cleared (st : State) : State :=
  setParsedData None (setReport JNull (setError None st)).

(** The submission an asynchronous completion was created for. *)
Definition completion_owner (st : State) (ev : Event) : option nat :=
  match ev with
  | Settle h _ => option_map rq_owner (find_request h (rt st))
  | Fire h => option_map owner (find_timer h (timeouts (rt st)))
  | _ => None
  end.

(** Same shape as in v2.5.4, with the pause of this variant. *)
Inductive pending_shape (st : State) : Prop :=
| shape_quiet :
    inflight (rt st) = [] -> timeouts (rt st) = [] -> pending_shape st
| shape_request rq :
    isScanning st = true -> inflight (rt st) = [rq] -> timeouts (rt st) = [] ->
    rq_owner rq = session (rt st) -> report st = JNull -> error st = None ->
    pending_shape st
| shape_timeout t :
    isScanning st = true -> inflight (rt st) = [] -> timeouts (rt st) = [t] ->
    owner t = session (rt st) -> delay t = 2000%N ->
    report st = JNull -> error st = None ->
    pending_shape st.

Definition invariant (st : State) : Prop :=
  pending_shape st /\ (report st <> JNull -> scanProgress st = 100%Q).

End V240.

(** ** Concrete surroundings for the examples

    A number library that knows one Indonesian mobile number and throws on
    everything else, an engine with one SyntaxError message, and three
    builds: one with no key anywhere, one with [GEMINI_API_KEY] set, one
    where that variable still holds the placeholder. *)

Module Scenario.

Definition raw_number : string := "+6281234567890".

Definition indonesian_mobile : PhoneNumber :=
  mkPhoneNumber "+6281234567890" (Some "ID") None (Some "MOBILE") true.

Definition parse_known (raw : string) : Settled PhoneNumber :=
  if raw =? raw_number then Resolved indonesian_mobile
  else Rejected (Error "NOT_A_NUMBER").

Definition engine_error (body : string) : JsError :=
  Error "Unexpected token in JSON".

Definition no_key : World :=
  mkWorld parse_known engine_error None None None None.

Definition with_key : World :=
  mkWorld parse_known engine_error (Some "AIzaSy-key") None None None.

Definition placeholder_build : World :=
  mkWorld parse_known engine_error (Some "MY_GEMINI_API_KEY") (Some "AIzaSy-key")
          None None.

(** A response body with every field of [IntelReport]. *)
Definition full_report_text : string :=
  ("{" ++ quoted "summary" ++ ":" ++ quoted "x" ++ ","
   ++ quoted "regionDetails" ++ ":" ++ quoted "y" ++ ","
   ++ quoted "carrierInfo" ++ ":" ++ quoted "z" ++ ","
   ++ quoted "securityRisk" ++ ":" ++ quoted "Low" ++ ","
   ++ quoted "recommendations" ++ ":[" ++ quoted "a" ++ "," ++ quoted "b" ++ ","
   ++ quoted "c" ++ "]}")%string.

Definition full_report : JSON :=
  JObject [("summary", JString "x"); ("regionDetails", JString "y");
           ("carrierInfo", JString "z"); ("securityRisk", JString "Low");
           ("recommendations", JArray [JString "a"; JString "b"; JString "c"])].

(** A response body that is JSON and has only one of the fields. *)
Definition partial_report_text : string :=
  ("{" ++ quoted "summary" ++ ":" ++ quoted "x" ++ "}")%string.

(** Typing the known number and submitting it. *)
Definition submit_254 : list V254.Event :=
  [V254.ChangePhoneNumber raw_number; V254.Submit].

Definition submit_240 : list V240.Event :=
  [V240.ChangePhoneNumber raw_number; V240.Submit].

(** The screens right after that submission, with a key configured: the
    scan is on and the first call is in flight. *)
Definition scanning_254 : V254.State :=
  Eval vm_compute in
    match V254.run with_key V254.init submit_254 with
    | Some st => st
    | None => V254.init
    end.

Definition scanning_240 : V240.State :=
  Eval vm_compute in
    match V240.run with_key V240.init submit_240 with
    | Some st => st
    | None => V240.init
    end.

(** The stable screen scanning for the second time, after a first scan
    whose call was rejected. *)
Definition rescanning_240 : V240.State :=
  Eval vm_compute in
    match V240.run with_key V240.init
                   (submit_240 ++ [V240.Settle 1 (Rejected (Error "quota"));
                                   V240.Submit]) with
    | Some st => st
    | None => V240.init
    end.

(** A call answered after 100 ms with a full report, five ticks of the
    interval (each drawing one half), up to the moment the pause ends. *)
Definition quick_answer_254 : list V254.Event :=
  submit_254
    ++ [V254.Elapse 100;
        V254.Settle 1 (Resolved (mkResponse (Some full_report_text)));
        V254.Elapse 200; V254.Tick 0 (1 # 2);
        V254.Elapse 300; V254.Tick 0 (1 # 2);
        V254.Elapse 300; V254.Tick 0 (1 # 2);
        V254.Elapse 300; V254.Tick 0 (1 # 2);
        V254.Elapse 300; V254.Tick 0 (1 # 2);
        V254.Elapse 100].

Definition answered_254 : V254.State :=
  Eval vm_compute in
    match V254.run with_key V254.init quick_answer_254 with
    | Some st => st
    | None => V254.init
    end.



(** The v2.5.4 screen with the known number typed in. *)
Definition typed_254 : V254.State :=
  V254.setPhoneNumber raw_number V254.init.

(** [n] periods of the interval, each followed by a tick that draws
    three quarters. *)
Definition ticking_254 (n : nat) : list V254.Event :=
  concat (repeat [V254.Elapse 300; V254.Tick 0 (3 # 4)] n).

Definition ticking_240 (n : nat) : list V240.Event :=
  concat (repeat [V240.Elapse 400; V240.Tick 0 (3 # 4)] n).

(** A response that is prose. *)
Definition prose : GenerateContentResponse :=
  mkResponse (Some "Maaf, saya tidak bisa.").

End Scenario.

(** ** The class-name helper *)

(** An argument of [cn]: [string | boolean | undefined]. *)
Inductive ClassValue : Type :=
| ClsString (s : string)
| ClsBool (b : bool)
| ClsUndefined.

(** [Boolean(c)] *)
Definition class_truthy (c : ClassValue) : bool :=
  match c with
  | ClsString s => negb (s =? "")
  | ClsBool b => b
  | ClsUndefined => false
  end.

(** What [join] writes for an element. *)
Definition class_text (c : ClassValue) : string :=
  match c with
  | ClsString s => s
  | ClsBool true => "true"
  | ClsBool false => "false"
  | ClsUndefined => ""
  end.

(** [(...classes) => classes.filter(Boolean).join(' ')] *)
Definition cn (classes : list ClassValue) : string :=
  String.concat " " (map class_text (filter class_truthy classes)).

(** ** The first screen: one call, the model's text shown as is *)

Module Basic.

(** The object literal given to [setResult]. *)
Record Result : Type := mkResult {
  res_number : string;
  res_country : option string;
  res_info : option string
}.

(** One outbound call of this screen (no [config]). *)
Record Call : Type := mkBasicCall {
  bc_apiKey : option string;
  bc_model : string;
  bc_contents : string
}.

(** The suspended [handleSearch]: it holds [parsed] for the result. *)
Record Pending : Type := mkPending {
  pd_handle : nat;
  pd_parsed : PhoneNumber
}.

Record State : Type := mkState {
  phoneNumber : string;
  result : option Result;
  loading : bool;
  error : option string;
  next_handle : nat;
  pending : list Pending;
  sent : list Call
}.

(** The [useState] initial values. *)
Definition init : State :=
  mkState "" None false (Some "") 0 [] [].

Definition setPhoneNumber (v : string) (st : State) : State :=
  mkState v (result st) (loading st) (error st) (next_handle st) (pending st) (sent st).
Definition setResult (v : option Result) (st : State) : State :=
  mkState (phoneNumber st) v (loading st) (error st) (next_handle st) (pending st)
          (sent st).
Definition setLoading (v : bool) (st : State) : State :=
  mkState (phoneNumber st) (result st) v (error st) (next_handle st) (pending st)
          (sent st).
Definition setError (v : option string) (st : State) : State :=
  mkState (phoneNumber st) (result st) (loading st) v (next_handle st) (pending st)
          (sent st).

(** The template literal of the call. *)
Definition prompt (parsed : PhoneNumber) : string :=
  ("Analyze phone number: " ++ number parsed
     ++ ". Provide origin and carrier info in Indonesian.")%string.

(** [new GoogleGenAI({ apiKey: process.env.GEMINI_API_KEY || '' })] and the
    call made with it. *)
Definition the_call (w : World) (parsed : PhoneNumber) : Call :=
  mkBasicCall (Some (or_default (GEMINI_API_KEY w) "")) "gemini-3.1-pro-preview"
              (prompt parsed).

(** [await genAI.models.generateContent({...})] *)
Definition generateContent (c : Call) (parsed : PhoneNumber) (st : State) : State :=
  mkState (phoneNumber st) (result st) (loading st) (error st) (S (next_handle st))
          (pending st ++ [mkPending (next_handle st) parsed]) (sent st ++ [c]).

Definition drop_pending (h : nat) (st : State) : State :=
  mkState (phoneNumber st) (result st) (loading st) (error st) (next_handle st)
          (filter (fun p => negb (pd_handle p =? h)%nat) (pending st)) (sent st).

(** The [finally] block. *)
Definition handleSearch_finally (st : State) : State :=
  setLoading false st.

(** The [catch] block, then [finally]: the message is stored as it is, also
    when it is undefined. *)
Definition handleSearch_catch (err : JsError) (st : State) : State :=
  handleSearch_finally (setError (message err) st).

(** [handleSearch] up to its [await]. *)
Definition handleSearch (w : World) (st : State) : State :=
  let st := setError (Some "") st in
  let st := setResult None st in
  let st := setLoading true st in
  match parsePhoneNumberWithError w (phoneNumber st) with
  | Resolved parsed =>
      if isValid parsed then generateContent (the_call w parsed) parsed st
      else handleSearch_catch (Error "Invalid number") st
  | Rejected err => handleSearch_catch err st
  end.

(** [handleSearch] resumed by the settled call. *)
Definition handleSearch_resume (p : Pending)
           (outcome : Settled GenerateContentResponse) (st : State) : State :=
  match outcome with
  | Resolved response =>
      let st := setResult (Some (mkResult (number (pd_parsed p))
                                          (country (pd_parsed p))
                                          (text response))) st in
      handleSearch_finally st
  | Rejected err => handleSearch_catch err st
  end.

Inductive Event : Type :=
| ChangePhoneNumber (value : string)
| Submit
| Settle (request : nat) (outcome : Settled GenerateContentResponse).

(** One handler run; the submit button has [disabled={loading}]. *)
Definition step (w : World) (st : State) (ev : Event) : option State :=
  match ev with
  | ChangePhoneNumber v => Some (setPhoneNumber v st)
  | Submit => if loading st then None else Some (handleSearch w st)
  | Settle h outcome =>
      match find (fun p => (pd_handle p =? h)%nat) (pending st) with
      | Some p => Some (handleSearch_resume p outcome (drop_pending h st))
      | None => None
      end
  end.

Fixpoint run (w : World) (st : State) (evs : list Event) : option State :=
  match evs with
  | [] => Some st
  | ev :: rest =>
      match step w st ev with
      | Some st' => run w st' rest
      | None => None
      end
  end.

Inductive reachable (w : World) : State -> Prop :=
| reach_init : reachable w init
| reach_step st ev st' :
    reachable w st -> step w st ev = Some st' -> reachable w st'.

(** What the [try] block throws before the call, if anything. *)
Definition validation_error (w : World) (raw : string) : option JsError :=
  match parsePhoneNumberWithError w raw with
  | Resolved parsed => if isValid parsed then None else Some (Error "Invalid number")
  | Rejected err => Some err
  end.

(** [{error && ...}] and [{result && ...}] in the view. *)
Definition shows_error (st : State) : bool := truthy_str (error st).
Definition shows_result (st : State) : bool :=
  match result st with Some _ => true | None => false end.

(** What holds between two handlers: the button is disabled exactly while the
    one call is in flight, and then nothing is shown yet. *)
Inductive settled_or_loading (st : State) : Prop :=
| basic_settled :
    loading st = false -> pending st = [] ->
    (shows_result st = true -> shows_error st = false) ->
    settled_or_loading st
| basic_loading p :
    loading st = true -> pending st = [p] ->
    result st = None -> error st = Some "" ->
    settled_or_loading st.

End Basic.

(** ** What the v2.5.4 component renders *)

Module View254.

(** [v.key] for a value that is truthy: own members of an object, undefined
    on everything else (none of the keys read is a built-in property). *)
Definition prop (v : JSON) (key : string) : option JSON :=
  match v with
  | JObject ms => get_member key ms
  | _ => None
  end.

(** A parsed value in a JSX hole: React refuses a plain object as a child and
    renders an array element by element. *)
Fixpoint renderable (v : JSON) : bool :=
  match v with
  | JObject _ => false
  | JArray items => forallb renderable items
  | _ => true
  end.

Definition child_ok (c : option JSON) : bool :=
  match c with
  | Some v => renderable v
  | None => true
  end.

(** [x === 'literal'] on a parsed value. *)
Definition is_literal (c : option JSON) (s : string) : bool :=
  match c with
  | Some (JString t) => t =? s
  | _ => false
  end.

(** The dynamic parts of the results panel. *)
Record Results : Type := mkResults {
  country_card : string;
  carrier_card : string;
  risk_icon_class : string;
  risk_card : option JSON;
  regional_analysis : option JSON;
  network_intelligence : option JSON;
  recommendation_cards : list JSON
}.

Inductive Panel : Type :=
| ScanningPanel (percent : Z) (strokeDashoffset : Q)
| ResultsPanel (r : Results)
| ReadyPanel.

(** The dynamic parts of the tree [App] returns. *)
Record View : Type := mkView {
  badge_class : string;
  badge_text : string;
  input_value : string;
  button_disabled : bool;
  button_label : string;
  key_field : option string;
  error_box : option string;
  panel : Panel
}.

(** [manualKey || process.env.GEMINI_API_KEY || process.env.USER_API_KEY],
    the condition of the header badge. *)
Definition badge_key (w : World) (st : V254.State) : option string :=
  or_js (or_js (Some (V254.manualKey st)) (GEMINI_API_KEY w)) (USER_API_KEY w).

(** [Math.round(x)]: the integer nearest to [x], halves going up. *)
Definition Math_round (x : Q) : Z := Qfloor (x + (1 # 2)).

(** The [report ? (...)] branch; [None] when evaluating it throws: the
    [.map] call on something that is no array, or an object as a child. *)
Definition results_panel (report : JSON) (parsedData : option PhoneNumber)
  : option Results :=
  let risk := prop report "securityRisk" in
  let region := prop report "regionDetails" in
  let network := prop report "carrierInfo" in
  match prop report "recommendations" with
  | Some (JArray recs) =>
      if child_ok risk && child_ok region && child_ok network
         && forallb renderable recs
      then Some (mkResults
                   (or_default (match parsedData with
                                | Some p => country p
                                | None => None
                                end) "Unknown")
                   (or_default (match parsedData with
                                | Some p => carrier p
                                | None => None
                                end) "Identified")
                   (cn [ClsString "w-4 h-4";
                        ClsString (if is_literal risk "Low"
                                   then "text-emerald-400"
                                   else "text-orange-400")])
                   risk region network recs)
      else None
  | _ => None
  end.

(** The tree for a state; [None] when rendering throws. *)
Definition render (w : World) (st : V254.State) : option View :=
  let has_key := truthy_str (badge_key w st) in
  let shell (p : Panel) : View :=
    mkView (cn [ClsString (if has_key then "text-emerald-500" else "text-red-500")])
           (if has_key then "KEY_OK" else "NO_KEY")
           (V254.phoneNumber st)
           (V254.isScanning st || (V254.phoneNumber st =? ""))
           (if V254.isScanning st then "Scanning..." else "Analyze Target")
           (if V254.showKeyInput st then Some (V254.manualKey st) else None)
           (if truthy_str (V254.error st) then V254.error st else None)
           p in
  if V254.isScanning st then
    Some (shell (ScanningPanel
                   (Math_round (V254.scanProgress st))
                   ((5026 # 10) - ((5026 # 10) * V254.scanProgress st) / 100)%Q))
  else if truthy (V254.report st) then
    match results_panel (V254.report st) (V254.parsedData st) with
    | Some r => Some (shell (ResultsPanel r))
    | None => None
    end
  else Some (shell ReadyPanel).

End View254.

(** ** What the v2.4.0 component renders

    The same three panels, with neither key badge nor key field.  The results
    panel reads the same members of the report as the one of v2.5.4 and is
    described by the same record; the identifier it draws with
    [Math.random()] at each rendering is not part of it. *)

Module View240.

Record View : Type := mkView {
  input_value : string;
  button_disabled : bool;
  button_label : string;
  error_box : option string;
  panel : View254.Panel
}.

(** The tree for a state; [None] when rendering throws. *)
Definition render (st : V240.State) : option View :=
  let shell (p : View254.Panel) : View :=
    mkView (V240.phoneNumber st)
           (V240.isScanning st || (V240.phoneNumber st =? ""))
           (if V240.isScanning st then "Scanning..." else "Analyze Target")
           (if truthy_str (V240.error st) then V240.error st else None)
           p in
  if V240.isScanning st then
    Some (shell (View254.ScanningPanel
                   (View254.Math_round (V240.scanProgress st))
                   ((5026 # 10) - ((5026 # 10) * V240.scanProgress st) / 100)%Q))
  else if truthy (V240.report st) then
    match View254.results_panel (V240.report st) (V240.parsedData st) with
    | Some r => Some (shell (View254.ResultsPanel r))
    | None => None
    end
  else Some (shell View254.ReadyPanel).

End View240.

(** ** The ways into a [catch] block, and the scans started *)




(** The screens a v2.4.0 run goes through, the first one included. *)
Fixpoint trace_240 (w : World) (st : V240.State) (evs : list V240.Event)
  : list V240.State :=
  st :: match evs with
        | [] => []
        | ev :: rest =>
            match V240.step w st ev with
            | Some st' => trace_240 w st' rest
            | None => []
            end
        end.

(** A submission that reaches the call of [startScan] in [handleSearch]: the
    button is enabled and the input passes validation. *)
Definition starts_scan_254 (w : World) (st : V254.State) (ev : V254.Event) : bool :=
  match ev with
  | V254.Submit =>
      negb (V254.submit_disabled st)
      && match V254.validation_error w (V254.phoneNumber st) with
         | Some _ => false
         | None => true
         end
  | _ => false
  end.

Definition starts_scan_240 (w : World) (st : V240.State) (ev : V240.Event) : bool :=
  match ev with
  | V240.Submit =>
      negb (V240.submit_disabled st)
      && match V240.validation_error w (V240.phoneNumber st) with
         | Some _ => false
         | None => true
         end
  | _ => false
  end.

(** How many times [startScan] is called along a run. *)
Fixpoint scans_started_254 (w : World) (st : V254.State) (evs : list V254.Event) : nat :=
  match evs with
  | [] => 0
  | ev :: rest =>
      match V254.step w st ev with
      | Some st' =>
          (if starts_scan_254 w st ev then 1 else 0) + scans_started_254 w st' rest
      | None => 0
      end
  end.

Fixpoint scans_started_240 (w : World) (st : V240.State) (evs : list V240.Event) : nat :=
  match evs with
  | [] => 0
  | ev :: rest =>
      match V240.step w st ev with
      | Some st' =>
          (if starts_scan_240 w st ev then 1 else 0) + scans_started_240 w st' rest
      | None => 0
      end
  end.

(** ** What every reachable screen of the scanning variants satisfies *)

(** Calls of the flash model still in flight (v2.5.4). *)
Definition flash_in_flight (st : V254.State) : nat :=
  length (filter (fun q => match rq_cont q with
                           | V254.AwaitFlash _ _ => true
                           | V254.AwaitPro => false
                           end) (inflight (V254.rt st))).

Record wellformed_254 (w : World) (st : V254.State) : Prop := mkWellformed254 {
  wf_progress_254 :
    (0 <= V254.scanProgress st)%Q /\ (V254.scanProgress st < 110)%Q;
  wf_scanning_254 :
    V254.isScanning st = true <->
    (inflight (V254.rt st) <> [] \/ timeouts (V254.rt st) <> []);
  wf_parsed_254 :
    V254.isScanning st = true \/ V254.report st <> JNull ->
    exists raw p,
      V254.parsedData st = Some p
      /\ parsePhoneNumberWithError w raw = Resolved p /\ isValid p = true;
  wf_exclusive_254 :
    forall msg, V254.error st = Some msg ->
                msg <> "" /\ V254.isScanning st = false /\ V254.report st = JNull;
  wf_manual_254 :
    V254.manualKey st <> "" -> V254.showKeyInput st = true;
  wf_calls_254 :
    length (calls (V254.rt st)) + flash_in_flight st <= 2 * session (V254.rt st);
  wf_handles_254 :
    forall t, In t (intervals (V254.rt st)) -> handle t < fresh (V254.rt st)
}.

Record wellformed_240 (w : World) (st : V240.State) : Prop := mkWellformed240 {
  wf_progress_240 :
    (0 <= V240.scanProgress st)%Q /\ (V240.scanProgress st < 115)%Q;
  wf_scanning_240 :
    V240.isScanning st = true <->
    (inflight (V240.rt st) <> [] \/ timeouts (V240.rt st) <> []);
  wf_parsed_240 :
    V240.isScanning st = true \/ V240.report st <> JNull ->
    exists raw p,
      V240.parsedData st = Some p
      /\ parsePhoneNumberWithError w raw = Resolved p /\ isValid p = true;
  wf_exclusive_240 :
    forall msg, V240.error st = Some msg ->
                msg <> "" /\ V240.isScanning st = false /\ V240.report st = JNull;
  wf_calls_240 :
    length (calls (V240.rt st)) <= session (V240.rt st);
  wf_handles_240 :
    forall t, In t (intervals (V240.rt st)) -> handle t < fresh (V240.rt st)
}.

(** ** More concrete screens for the examples *)

Module Cases.

(** v2.5.4 with no key: the submission of the known number is refused. *)
Definition refused_254 : V254.State :=
  Eval vm_compute in
    match V254.run Scenario.no_key V254.init Scenario.submit_254 with
    | Some st => st
    | None => V254.init
    end.

(** v2.5.4 with no key and the known number typed in. *)
Definition typed_no_key_254 : V254.State :=
  V254.setPhoneNumber Scenario.raw_number V254.init.

(** v2.5.4 after fourteen ticks that each drew three quarters, one period
    later: the progress value stands at 105 and interval 0 is due. *)
Definition overshot_254 : V254.State :=
  Eval vm_compute in
    match V254.run Scenario.with_key V254.init
                   (Scenario.submit_254 ++ Scenario.ticking_254 14
                      ++ [V254.Elapse 300]) with
    | Some st => st
    | None => V254.init
    end.

(** v2.5.4 showing the full report. *)
Definition shown_254 : V254.State :=
  Eval vm_compute in
    match V254.run Scenario.with_key V254.init
                   (Scenario.quick_answer_254 ++ [V254.Fire 2]) with
    | Some st => st
    | None => V254.init
    end.

(** The stable screen answered after 100 ms with a full report, five
    ticks of its interval (each drawing one half), up to the moment the
    pause ends. *)
Definition quick_answer_240 : list V240.Event :=
  Scenario.submit_240
    ++ [V240.Elapse 100;
        V240.Settle 1 (Resolved (mkResponse (Some Scenario.full_report_text)));
        V240.Elapse 300; V240.Tick 0 (1 # 2);
        V240.Elapse 400; V240.Tick 0 (1 # 2);
        V240.Elapse 400; V240.Tick 0 (1 # 2);
        V240.Elapse 400; V240.Tick 0 (1 # 2);
        V240.Elapse 400; V240.Tick 0 (1 # 2);
        V240.Elapse 100].

Definition answered_240 : V240.State :=
  Eval vm_compute in
    match V240.run Scenario.with_key V240.init quick_answer_240 with
    | Some st => st
    | None => V240.init
    end.




(** v2.5.4: an input that is refused, then the known number and a scan whose
    two calls are rejected. *)
Definition refused_then_rejected_254 : list V254.Event :=
  [V254.ChangePhoneNumber "not a number"; V254.Submit]
    ++ Scenario.submit_254
    ++ [V254.Elapse 300;
        V254.Settle 1 (Rejected (Error "429 quota exceeded"));
        V254.Elapse 300;
        V254.Settle 2 (Rejected (Error "503 overloaded"))].

(** The first screen with the known number typed in. *)
Definition typed_basic : Basic.State :=
  Basic.setPhoneNumber Scenario.raw_number Basic.init.

(** The first screen with its call in flight. *)
Definition loading_basic : Basic.State :=
  Eval vm_compute in
    match Basic.run Scenario.with_key Basic.init
                    [Basic.ChangePhoneNumber Scenario.raw_number; Basic.Submit] with
    | Some st => st
    | None => Basic.init
    end.

End Cases.

(** ** Facts about the JavaScript helpers *)

Lemma or_default_not_empty (x : option string) (d : string) :
  d <> "" -> or_default x d <> "".
Proof.
  intros Hd. unfold or_default.
  destruct x as [s|]; [|exact Hd].
  destruct (String.eqb_spec s ""); assumption.
Qed.

Lemma or_default_truthy (x : option string) (d : string) :
  d <> "" -> truthy_str (Some (or_default x d)) = true.
Proof.
  intros Hd. simpl.
  destruct (String.eqb_spec (or_default x d) ""); [|reflexivity].
  exfalso. revert e. now apply or_default_not_empty.
Qed.

Lemma or_default_verbatim (m d : string) :
  m <> "" -> or_default (Some m) d = m.
Proof.
  intros Hm. simpl. destruct (String.eqb_spec m ""); [contradiction|reflexivity].
Qed.

Lemma find_singleton {A : Type} (f : A -> bool) (x y : A) :
  find f [x] = Some y -> y = x /\ f x = true.
Proof.
  simpl. destruct (f x) eqn:E; [|discriminate].
  intros [= <-]. now split.
Qed.

(** ** What [JSON.parse] returns *)

(** Escape sequences are decoded: an escaped letter is the letter, a control
    escape is the control character, a code unit above 127 is the character
    as UTF-8 writes it, and the two halves of a surrogate pair are one
    character. *)
Example JSON_parse_decodes_strings :
  JSON_parse (quoted "L\u006fw") = Some (JString "Low")
  /\ JSON_parse (quoted "a\nb\/c")
     = Some (JString (String "a" (String "010" "b/c")))
  /\ JSON_parse (quoted "\u00e9")
     = Some (JString (String "195" (String "169" "")))
  /\ JSON_parse (quoted "\ud83d\ude00")
     = Some (JString (String "240" (String "159" (String "152" (String "128" "")))))
  /\ JSON_parse (quoted "\ud83d")
     = Some (JString (String "237" (String "160" (String "189" ""))))
  /\ JSON_parse ("{" ++ quoted "key" ++ ":1," ++ quoted "\u006bey" ++ ":null}")%string
     = Some (JObject [("key", JNumber (S754_finite false 4503599627370496 (-52)));
                      ("key", JNull)]).
Proof. repeat split; vm_compute; reflexivity. Qed.

(** A number is the nearest double, whatever way it is written; what is
    below half the smallest double is zero, and falsy. *)
Example JSON_parse_rounds_numbers :
  JSON_parse "0.1" = Some (JNumber (S754_finite false 7205759403792794 (-56)))
  /\ JSON_parse "1.0" = JSON_parse "1"
  /\ JSON_parse "100e-2" = JSON_parse "1"
  /\ JSON_parse "9007199254740993" = JSON_parse "9007199254740992"
  /\ JSON_parse "-0" = Some (JNumber (S754_zero true))
  /\ JSON_parse "5e-324" = Some (JNumber (S754_finite false 1 (-1074)))
  /\ JSON_parse "1e-400" = Some (JNumber (S754_zero false))
  /\ option_map truthy (JSON_parse "1e-400") = Some false
  /\ option_map truthy (JSON_parse "0.0") = Some false
  /\ option_map truthy (JSON_parse "5e-324") = Some true
  /\ JSON_parse "1.7976931348623157e308"
     = Some (JNumber (S754_finite false 9007199254740991 971))
  /\ JSON_parse "1e309" = Some (JNumber (S754_infinity false)).
Proof. repeat split; vm_compute; reflexivity. Qed.

(** ** Invariants of v2.5.4 *)

Module Inv254.
Import V254.

Lemma invariant_init_254 : invariant init.
Proof.
  split.
  - now apply shape_quiet.
  - intros H. now contradiction H.
Qed.

Local Ltac settle_shape :=
  cbn;
  repeat match goal with
         | H : inflight _ = _ |- _ => rewrite H
         | H : timeouts _ = _ |- _ => rewrite H
         end;
  cbn;
  repeat match goal with
         | H : (_ =? _)%nat = true |- _ => rewrite H
         end;
  cbn; try reflexivity; try eassumption; try congruence.

Local Ltac keep_shape Hshape :=
  destruct Hshape as [? ? | ? ? ? ? ? ? ? | ? ? ? ? ? ? ? ?];
  [apply shape_quiet | eapply shape_request | eapply shape_timeout];
  cbn; eassumption.

Lemma submit_keeps_invariant_254 w st :
  invariant st -> submit_disabled st = false ->
  invariant (handleSearch w (onRuntime begin_session st)).
Proof.
  intros [Hshape _] Hen.
  unfold submit_disabled in Hen. apply orb_false_iff in Hen as [Hscan _].
  assert (Hq : inflight (rt st) = [] /\ timeouts (rt st) = []).
  { destruct Hshape as [Hi Ht | rq Hs | t Hs]; [now split | congruence | congruence]. }
  destruct Hq as [Hi Ht].
  unfold handleSearch.
  destruct (parsePhoneNumberWithError w _) as [parsed | err]; cbn.
  - destruct (isValid parsed); cbn.
    + unfold startScan. cbn.
      destruct (key_missing _); cbn.
      * split; [apply shape_quiet; settle_shape | intros H; now contradiction H].
      * split; [| intros H; now contradiction H].
        eapply shape_request; settle_shape.
    + split; [apply shape_quiet; settle_shape | intros H; now contradiction H].
  - split; [apply shape_quiet; settle_shape | intros H; now contradiction H].
Qed.

Lemma parse_keeps_invariant_254 w own response st :
  isScanning st = true -> inflight (rt st) = [] -> timeouts (rt st) = [] ->
  own = session (rt st) -> report st = JNull -> error st = None ->
  invariant (startScan_parse w own response st).
Proof.
  intros Hs Hi Ht Ho Hr He. unfold startScan_parse.
  destruct (JSON_parse _) as [result|]; cbn.
  - split; [| intros H; contradiction].
    eapply shape_timeout; settle_shape.
  - split; [apply shape_quiet; settle_shape | intros H; contradiction].
Qed.

Lemma step_keeps_invariant_254 w st ev st' :
  invariant st -> step w st ev = Some st' -> invariant st'.
Proof.
  intros Hinv Hstep. destruct ev as [v | v | | ms | h r | h outcome | h]; cbn in Hstep.
  - injection Hstep as <-. destruct Hinv as [Hshape Hp]. split; [| exact Hp].
    keep_shape Hshape.
  - destruct (showKeyInput st); [|discriminate].
    injection Hstep as <-. destruct Hinv as [Hshape Hp]. split; [| exact Hp].
    keep_shape Hshape.
  - destruct (submit_disabled st) eqn:Hen; [discriminate|].
    injection Hstep as <-. now apply submit_keeps_invariant_254.
  - injection Hstep as <-. destruct Hinv as [Hshape Hp]. split; [| exact Hp].
    keep_shape Hshape.
  - destruct (find_timer h (intervals (rt st))) as [t|]; [|discriminate].
    destruct (is_due t (rt st) && is_random r); [|discriminate].
    injection Hstep as <-. destruct Hinv as [Hshape Hp].
    split.
    + unfold tick. cbn.
      destruct (Qle_bool 100 (scanProgress st)); keep_shape Hshape.
    + unfold tick. cbn. destruct (Qle_bool 100 (scanProgress st)) eqn:Hq; cbn.
      * reflexivity.
      * intros Hr. rewrite (Hp Hr) in Hq. discriminate.
  - destruct (find_request h (rt st)) as [rq|] eqn:Hfind; [|discriminate].
    injection Hstep as <-. destruct Hinv as [Hshape Hp].
    unfold find_request in Hfind.
    destruct Hshape as [Hi Ht | rq0 Hs Hi Ht Ho Hr He | t Hs Hi Ht Ho Hd Hr He].
    + rewrite Hi in Hfind. discriminate.
    + rewrite Hi in Hfind. apply find_singleton in Hfind as [-> Hh].
      unfold startScan_resume.
      destruct (rq_cont rq0) as [apiKey parsed|]; destruct outcome as [response|err].
      * apply parse_keeps_invariant_254; settle_shape.
      * split; [| intros H; contradiction].
        eapply shape_request; settle_shape.
      * apply parse_keeps_invariant_254; settle_shape.
      * split; [| intros H; contradiction].
        apply shape_quiet; settle_shape.
    + rewrite Hi in Hfind. discriminate.
  - destruct (find_timer h (timeouts (rt st))) as [t|] eqn:Hfind; [|discriminate].
    destruct (is_due t (rt st)); [|discriminate].
    injection Hstep as <-. destruct Hinv as [Hshape Hp].
    unfold find_timer in Hfind.
    destruct Hshape as [Hi Ht | rq0 Hs Hi Ht Ho Hr He | t0 Hs Hi Ht Ho Hd Hr He].
    + rewrite Ht in Hfind. discriminate.
    + rewrite Ht in Hfind. discriminate.
    + rewrite Ht in Hfind. apply find_singleton in Hfind as [-> Hh].
      split; [| reflexivity].
      apply shape_quiet; settle_shape.
Qed.

Lemma reachable_invariant_254 w st : reachable w st -> invariant st.
Proof.
  induction 1 as [| st ev st' _ IH Hstep].
  - apply invariant_init_254.
  - eapply step_keeps_invariant_254; eassumption.
Qed.

End Inv254.

(** ** Invariants of v2.4.0-Stable *)

Module Inv240.
Import V240.

Local Ltac settle_shape :=
  cbn;
  repeat match goal with
         | H : inflight _ = _ |- _ => rewrite H
         | H : timeouts _ = _ |- _ => rewrite H
         end;
  cbn;
  repeat match goal with
         | H : (_ =? _)%nat = true |- _ => rewrite H
         end;
  cbn; try reflexivity; try eassumption; try congruence.

Local Ltac keep_shape Hshape :=
  destruct Hshape as [? ? | ? ? ? ? ? ? ? | ? ? ? ? ? ? ? ?];
  [apply shape_quiet | eapply shape_request | eapply shape_timeout];
  cbn; eassumption.

Lemma invariant_init_240 : invariant init.
Proof.
  split.
  - now apply shape_quiet.
  - intros H. now contradiction H.
Qed.

Lemma submit_keeps_invariant_240 w st :
  invariant st -> submit_disabled st = false ->
  invariant (handleSearch w (onRuntime begin_session st)).
Proof.
  intros [Hshape _] Hen.
  unfold submit_disabled in Hen. apply orb_false_iff in Hen as [Hscan _].
  assert (Hq : inflight (rt st) = [] /\ timeouts (rt st) = []).
  { destruct Hshape as [Hi Ht | rq Hs | t Hs]; [now split | congruence | congruence]. }
  destruct Hq as [Hi Ht].
  unfold handleSearch.
  destruct (parsePhoneNumberWithError w _) as [parsed | err]; cbn.
  - destruct (isValid parsed); cbn.
    + split; [| intros H; now contradiction H].
      eapply shape_request; settle_shape.
    + split; [apply shape_quiet; settle_shape | intros H; now contradiction H].
  - split; [apply shape_quiet; settle_shape | intros H; now contradiction H].
Qed.

Lemma parse_keeps_invariant_240 w own response st :
  isScanning st = true -> inflight (rt st) = [] -> timeouts (rt st) = [] ->
  own = session (rt st) -> report st = JNull -> error st = None ->
  invariant (startScan_parse w own response st).
Proof.
  intros Hs Hi Ht Ho Hr He. unfold startScan_parse.
  destruct (JSON_parse _) as [result|]; cbn.
  - split; [| intros H; contradiction].
    eapply shape_timeout; settle_shape.
  - split; [apply shape_quiet; settle_shape | intros H; contradiction].
Qed.

Lemma step_keeps_invariant_240 w st ev st' :
  invariant st -> step w st ev = Some st' -> invariant st'.
Proof.
  intros Hinv Hstep. destruct ev as [v | | ms | h r | h outcome | h]; cbn in Hstep.
  - injection Hstep as <-. destruct Hinv as [Hshape Hp]. split; [| exact Hp].
    keep_shape Hshape.
  - destruct (submit_disabled st) eqn:Hen; [discriminate|].
    injection Hstep as <-. now apply submit_keeps_invariant_240.
  - injection Hstep as <-. destruct Hinv as [Hshape Hp]. split; [| exact Hp].
    keep_shape Hshape.
  - destruct (find_timer h (intervals (rt st))) as [t|]; [|discriminate].
    destruct (is_due t (rt st) && is_random r); [|discriminate].
    injection Hstep as <-. destruct Hinv as [Hshape Hp].
    split.
    + unfold tick. cbn.
      destruct (Qle_bool 100 (scanProgress st)); keep_shape Hshape.
    + unfold tick. cbn. destruct (Qle_bool 100 (scanProgress st)) eqn:Hq; cbn.
      * reflexivity.
      * intros Hr. rewrite (Hp Hr) in Hq. discriminate.
  - destruct (find_request h (rt st)) as [rq|] eqn:Hfind; [|discriminate].
    injection Hstep as <-. destruct Hinv as [Hshape Hp].
    unfold find_request in Hfind.
    destruct Hshape as [Hi Ht | rq0 Hs Hi Ht Ho Hr He | t Hs Hi Ht Ho Hd Hr He].
    + rewrite Hi in Hfind. discriminate.
    + rewrite Hi in Hfind. apply find_singleton in Hfind as [-> Hh].
      unfold startScan_resume.
      destruct (rq_cont rq0); destruct outcome as [response|err].
      * apply parse_keeps_invariant_240; settle_shape.
      * split; [| intros H; contradiction].
        apply shape_quiet; settle_shape.
    + rewrite Hi in Hfind. discriminate.
  - destruct (find_timer h (timeouts (rt st))) as [t|] eqn:Hfind; [|discriminate].
    destruct (is_due t (rt st)); [|discriminate].
    injection Hstep as <-. destruct Hinv as [Hshape Hp].
    unfold find_timer in Hfind.
    destruct Hshape as [Hi Ht | rq0 Hs Hi Ht Ho Hr He | t0 Hs Hi Ht Ho Hd Hr He].
    + rewrite Ht in Hfind. discriminate.
    + rewrite Ht in Hfind. discriminate.
    + rewrite Ht in Hfind. apply find_singleton in Hfind as [-> Hh].
      split; [| reflexivity].
      apply shape_quiet; settle_shape.
Qed.

Lemma reachable_invariant_240 w st : reachable w st -> invariant st.
Proof.
  induction 1 as [| st ev st' _ IH Hstep].
  - apply invariant_init_240.
  - eapply step_keeps_invariant_240; eassumption.
Qed.

End Inv240.

(** ** Validation failures (handleSearch) *)

Lemma validation_failure_254 w st st' err :
  V254.validation_error w (V254.phoneNumber st) = Some err ->
  V254.step w st V254.Submit = Some st' ->
  V254.error st' = Some (or_default (message err) V254.number_failure_message)
  /\ V254.phase st' = Failure
  /\ V254.isScanning st' = false
  /\ V254.report st' = JNull
  /\ V254.scanProgress st' = V254.scanProgress st
  /\ intervals (V254.rt st') = intervals (V254.rt st)
  /\ inflight (V254.rt st') = inflight (V254.rt st)
  /\ timeouts (V254.rt st') = timeouts (V254.rt st)
  /\ calls (V254.rt st') = calls (V254.rt st).
Proof.
  intros Herr Hstep. cbn in Hstep.
  destruct (V254.submit_disabled st) eqn:Hen; [discriminate|].
  injection Hstep as <-.
  unfold V254.submit_disabled in Hen. apply orb_false_iff in Hen as [Hscan _].
  unfold V254.validation_error in Herr. unfold V254.handleSearch. cbn.
  assert (Hphase : forall e s,
             V254.isScanning s = false ->
             V254.phase (V254.handleSearch_catch e s) = Failure).
  { intros e s Hs. unfold V254.phase. cbn - [truthy_str]. rewrite Hs.
    rewrite or_default_truthy; [reflexivity | discriminate]. }
  destruct (parsePhoneNumberWithError w (V254.phoneNumber st)) as [parsed | e].
  - destruct (isValid parsed); [discriminate|].
    injection Herr as <-.
    split; [reflexivity|]. split; [now apply Hphase|]. cbn. now repeat split.
  - injection Herr as <-.
    split; [reflexivity|]. split; [now apply Hphase|]. cbn. now repeat split.
Qed.

Lemma validation_failure_240 w st st' err :
  V240.validation_error w (V240.phoneNumber st) = Some err ->
  V240.step w st V240.Submit = Some st' ->
  V240.error st' = Some (or_default (message err) V240.number_failure_message)
  /\ V240.phase st' = Failure
  /\ V240.isScanning st' = false
  /\ V240.report st' = JNull
  /\ V240.scanProgress st' = V240.scanProgress st
  /\ intervals (V240.rt st') = intervals (V240.rt st)
  /\ inflight (V240.rt st') = inflight (V240.rt st)
  /\ timeouts (V240.rt st') = timeouts (V240.rt st)
  /\ calls (V240.rt st') = calls (V240.rt st).
Proof.
  intros Herr Hstep. cbn in Hstep.
  destruct (V240.submit_disabled st) eqn:Hen; [discriminate|].
  injection Hstep as <-.
  unfold V240.submit_disabled in Hen. apply orb_false_iff in Hen as [Hscan _].
  unfold V240.validation_error in Herr. unfold V240.handleSearch. cbn.
  assert (Hphase : forall e s,
             V240.isScanning s = false ->
             V240.phase (V240.handleSearch_catch e s) = Failure).
  { intros e s Hs. unfold V240.phase. cbn - [truthy_str]. rewrite Hs.
    rewrite or_default_truthy; [reflexivity | discriminate]. }
  destruct (parsePhoneNumberWithError w (V240.phoneNumber st)) as [parsed | e].
  - destruct (isValid parsed); [discriminate|].
    injection Herr as <-.
    split; [reflexivity|]. split; [now apply Hphase|]. cbn. now repeat split.
  - injection Herr as <-.
    split; [reflexivity|]. split; [now apply Hphase|]. cbn. now repeat split.
Qed.

(** C8.  When the number validator rejects the submitted input (the library
    throws, or the number parses and is not valid), the submission goes
    straight to Failure: the error shown is the thrown message ([message err]
    verbatim when it is not empty, the fixed fallback text otherwise),
    [isScanning] is never set, the progress value is untouched, and no
    interval, timeout or network call is started.  Both variants. *)
Theorem C8_rejected_input_fails_without_scan :
  (forall w st st' err,
      V254.validation_error w (V254.phoneNumber st) = Some err ->
      V254.step w st V254.Submit = Some st' ->
      V254.error st' = Some (or_default (message err) V254.number_failure_message)
      /\ (forall m, message err = Some m -> m <> "" -> V254.error st' = Some m)
      /\ V254.phase st' = Failure
      /\ V254.isScanning st = false /\ V254.isScanning st' = false
      /\ V254.scanProgress st' = V254.scanProgress st
      /\ intervals (V254.rt st') = intervals (V254.rt st)
      /\ inflight (V254.rt st') = inflight (V254.rt st)
      /\ timeouts (V254.rt st') = timeouts (V254.rt st)
      /\ calls (V254.rt st') = calls (V254.rt st))
  /\
  (forall w st st' err,
      V240.validation_error w (V240.phoneNumber st) = Some err ->
      V240.step w st V240.Submit = Some st' ->
      V240.error st' = Some (or_default (message err) V240.number_failure_message)
      /\ (forall m, message err = Some m -> m <> "" -> V240.error st' = Some m)
      /\ V240.phase st' = Failure
      /\ V240.isScanning st = false /\ V240.isScanning st' = false
      /\ V240.scanProgress st' = V240.scanProgress st
      /\ intervals (V240.rt st') = intervals (V240.rt st)
      /\ inflight (V240.rt st') = inflight (V240.rt st)
      /\ timeouts (V240.rt st') = timeouts (V240.rt st)
      /\ calls (V240.rt st') = calls (V240.rt st)).
Proof.
  split.
  - intros w st st' err Herr Hstep.
    destruct (validation_failure_254 w st st' err Herr Hstep)
      as (He & Hp & Hs & _ & Hq & Hi & Hf & Ht & Hc).
    assert (Hpre : V254.isScanning st = false).
    { cbn in Hstep. destruct (V254.submit_disabled st) eqn:Hen; [discriminate|].
      unfold V254.submit_disabled in Hen. now apply orb_false_iff in Hen as [Hscan _]. }
    repeat split; try assumption.
    intros m Hm Hne. rewrite He, Hm. now rewrite or_default_verbatim.
  - intros w st st' err Herr Hstep.
    destruct (validation_failure_240 w st st' err Herr Hstep)
      as (He & Hp & Hs & _ & Hq & Hi & Hf & Ht & Hc).
    assert (Hpre : V240.isScanning st = false).
    { cbn in Hstep. destruct (V240.submit_disabled st) eqn:Hen; [discriminate|].
      unfold V240.submit_disabled in Hen. now apply orb_false_iff in Hen as [Hscan _]. }
    repeat split; try assumption.
    intros m Hm Hne. rewrite He, Hm. now rewrite or_default_verbatim.
Qed.

(** The scenario of the specification: the input [not a number] on the
    initial screen, in both variants. *)
Lemma C8_witness :
  (V254.validation_error Scenario.no_key "not a number" = Some (Error "NOT_A_NUMBER")
   /\ exists st',
       V254.step Scenario.no_key (V254.setPhoneNumber "not a number" V254.init)
                 V254.Submit = Some st'
       /\ V254.error st' = Some "NOT_A_NUMBER"
       /\ V254.phase st' = Failure
       /\ intervals (V254.rt st') = []
       /\ calls (V254.rt st') = [])
  /\
  (V240.validation_error Scenario.with_key "not a number" = Some (Error "NOT_A_NUMBER")
   /\ exists st',
       V240.step Scenario.with_key (V240.setPhoneNumber "not a number" V240.init)
                 V240.Submit = Some st'
       /\ V240.error st' = Some "NOT_A_NUMBER"
       /\ V240.phase st' = Failure
       /\ intervals (V240.rt st') = []
       /\ calls (V240.rt st') = []).
Proof.
  split.
  - split; [reflexivity|].
    eexists. split; [reflexivity|].
    pose proof (proj1 C8_rejected_input_fails_without_scan
                  Scenario.no_key
                  (V254.setPhoneNumber "not a number" V254.init) _
                  (Error "NOT_A_NUMBER") eq_refl eq_refl)
      as (He & _ & Hp & _ & _ & _ & Hi & _ & _ & Hc).
    repeat split; assumption.
  - split; [reflexivity|].
    eexists. split; [reflexivity|].
    pose proof (proj2 C8_rejected_input_fails_without_scan
                  Scenario.with_key
                  (V240.setPhoneNumber "not a number" V240.init) _
                  (Error "NOT_A_NUMBER") eq_refl eq_refl)
      as (He & _ & Hp & _ & _ & _ & Hi & _ & _ & Hc).
    repeat split; assumption.
Defined.

(** ** Every submission starts from a cleared screen *)

Lemma handleSearch_cleared_254 w st :
  V254.handleSearch w st = V254.handleSearch w (V254.cleared st).
Proof. reflexivity. Qed.

Lemma handleSearch_cleared_240 w st :
  V240.handleSearch w st = V240.handleSearch w (V240.cleared st).
Proof. reflexivity. Qed.

Lemma handleSearch_report_254 w st : V254.report (V254.handleSearch w st) = JNull.
Proof.
  unfold V254.handleSearch.
  destruct (parsePhoneNumberWithError w _) as [parsed|err]; cbn; [|reflexivity].
  destruct (isValid parsed); cbn; [|reflexivity].
  unfold V254.startScan. cbn. destruct (V254.key_missing _); reflexivity.
Qed.

Lemma handleSearch_report_240 w st : V240.report (V240.handleSearch w st) = JNull.
Proof.
  unfold V240.handleSearch.
  destruct (parsePhoneNumberWithError w _) as [parsed|err]; cbn; [|reflexivity].
  destruct (isValid parsed); reflexivity.
Qed.

(** ** The credential check (v2.5.4) *)

Lemma unusable_or_js x y :
  V254.unusable x = true -> V254.unusable y = true -> V254.unusable (or_js x y) = true.
Proof.
  intros Hx Hy. unfold or_js. destruct (truthy_str x); assumption.
Qed.

Lemma unusable_key_missing x :
  V254.unusable x = true -> V254.key_missing x = true.
Proof.
  unfold V254.unusable, V254.key_missing. intros H. rewrite H. reflexivity.
Qed.

Lemma missing_key_outcome w st st' parsed :
  parsePhoneNumberWithError w (V254.phoneNumber st) = Resolved parsed ->
  isValid parsed = true ->
  V254.key_missing (V254.resolve_key w st) = true ->
  V254.step w st V254.Submit = Some st' ->
  st' = V254.startScan_catch (Error V254.missing_key_message)
          (V254.setShowKeyInput true
             (V254.onRuntime (setInterval (S (session (V254.rt st))) 300)
                (V254.setScanProgress 0%Q
                   (V254.setIsScanning true
                      (V254.setParsedData (Some parsed)
                         (V254.cleared (V254.onRuntime begin_session st))))))).
Proof.
  intros Hparse Hvalid Hkey Hstep. cbn in Hstep.
  destruct (V254.submit_disabled st); [discriminate|].
  injection Hstep as <-.
  unfold V254.handleSearch. cbn. rewrite Hparse, Hvalid.
  unfold V254.startScan. cbn.
  replace (V254.resolve_key w _) with (V254.resolve_key w st) by reflexivity.
  rewrite Hkey. reflexivity.
Qed.

(** C5.  A scan started on a valid number when no key source is usable (the
    manual key and every configured variable is undefined, empty or the
    placeholder) fails inside the submission itself: the error is the
    missing-credential message, the manual-key field is revealed, the phase
    is Failure, and no network call is made or left in flight. *)
Theorem C5_no_usable_key_fails_without_network w st st' parsed :
  parsePhoneNumberWithError w (V254.phoneNumber st) = Resolved parsed ->
  isValid parsed = true ->
  V254.unusable (Some (V254.manualKey st)) = true ->
  V254.unusable (GEMINI_API_KEY w) = true ->
  V254.unusable (USER_API_KEY w) = true ->
  V254.unusable (API_KEY w) = true ->
  V254.unusable (VITE_GEMINI_API_KEY w) = true ->
  V254.step w st V254.Submit = Some st' ->
  V254.error st' = Some V254.missing_key_message
  /\ V254.showKeyInput st' = true
  /\ V254.phase st' = Failure
  /\ V254.report st' = JNull
  /\ calls (V254.rt st') = calls (V254.rt st)
  /\ inflight (V254.rt st') = inflight (V254.rt st)
  /\ timeouts (V254.rt st') = timeouts (V254.rt st).
Proof.
  intros Hparse Hvalid Hm Hg Hu Ha Hv Hstep.
  assert (Hkey : V254.key_missing (V254.resolve_key w st) = true).
  { apply unusable_key_missing. unfold V254.resolve_key.
    repeat apply unusable_or_js; assumption. }
  rewrite (missing_key_outcome w st st' parsed Hparse Hvalid Hkey Hstep).
  repeat split; reflexivity.
Qed.

(** The scenario of the specification: nothing configured, nothing typed into
    the manual field. *)
Lemma C5_witness :
  exists st',
    V254.step Scenario.no_key (V254.setPhoneNumber Scenario.raw_number V254.init)
              V254.Submit = Some st'
    /\ V254.error st' = Some V254.missing_key_message
    /\ V254.showKeyInput st' = true
    /\ V254.phase st' = Failure
    /\ calls (V254.rt st') = [].
Proof.
  eexists. split; [reflexivity|].
  pose proof (C5_no_usable_key_fails_without_network
                Scenario.no_key (V254.setPhoneNumber Scenario.raw_number V254.init) _
                Scenario.indonesian_mobile
                eq_refl eq_refl eq_refl eq_refl eq_refl eq_refl eq_refl eq_refl)
    as (He & Hs & Hp & _ & Hc & _).
  repeat split; assumption.
Defined.

(** C10.  When the key that the [||] chain resolves to is the literal
    placeholder or the empty string, the scan of a valid number fails with
    the missing-credential message and reveals the manual-key field, with no
    network call; the resulting screen is the one the same submission gives
    in a build with no key configured and an empty manual field (up to the
    text of the manual field itself). *)
Theorem C10_placeholder_key_counts_as_missing w st st' parsed :
  parsePhoneNumberWithError w (V254.phoneNumber st) = Resolved parsed ->
  isValid parsed = true ->
  (V254.resolve_key w st = Some V254.placeholder_key
   \/ V254.resolve_key w st = Some "") ->
  V254.step w st V254.Submit = Some st' ->
  V254.error st' = Some V254.missing_key_message
  /\ V254.showKeyInput st' = true
  /\ V254.phase st' = Failure
  /\ calls (V254.rt st') = calls (V254.rt st)
  /\ inflight (V254.rt st') = inflight (V254.rt st)
  /\ V254.step (V254.without_keys w) (V254.setManualKey "" st) V254.Submit
     = Some (V254.setManualKey "" st').
Proof.
  intros Hparse Hvalid Hres Hstep.
  assert (Hkey : V254.key_missing (V254.resolve_key w st) = true).
  { destruct Hres as [-> | ->]; reflexivity. }
  pose proof (missing_key_outcome w st st' parsed Hparse Hvalid Hkey Hstep) as Hst'.
  assert (Hen : V254.submit_disabled st = false).
  { cbn in Hstep. destruct (V254.submit_disabled st); [discriminate | reflexivity]. }
  assert (Hstep0 : exists st0,
             V254.step (V254.without_keys w) (V254.setManualKey "" st) V254.Submit
             = Some st0).
  { cbn. replace (V254.submit_disabled (V254.setManualKey "" st))
      with (V254.submit_disabled st) by reflexivity.
    rewrite Hen. eexists. reflexivity. }
  destruct Hstep0 as [st0 Hstep0].
  pose proof (missing_key_outcome (V254.without_keys w) (V254.setManualKey "" st) st0
                parsed Hparse Hvalid eq_refl Hstep0) as Hst0.
  rewrite Hstep0, Hst0, Hst'.
  repeat split; reflexivity.
Qed.

(** A build whose first configured variable still holds the placeholder: the
    real key in a later variable is never reached. *)
Lemma C10_witness :
  V254.resolve_key Scenario.placeholder_build
                   (V254.setPhoneNumber Scenario.raw_number V254.init)
  = Some V254.placeholder_key
  /\ exists st',
      V254.step Scenario.placeholder_build
                (V254.setPhoneNumber Scenario.raw_number V254.init) V254.Submit
      = Some st'
      /\ V254.error st' = Some V254.missing_key_message
      /\ V254.showKeyInput st' = true
      /\ calls (V254.rt st') = [].
Proof.
  split; [reflexivity|].
  eexists. split; [reflexivity|].
  pose proof (C10_placeholder_key_counts_as_missing
                Scenario.placeholder_build
                (V254.setPhoneNumber Scenario.raw_number V254.init) _
                Scenario.indonesian_mobile
                eq_refl eq_refl (or_introl eq_refl) eq_refl)
    as (He & Hs & _ & Hc & _).
  repeat split; assumption.
Defined.

(** ** What a completion finds when it runs *)

Lemma settle_inversion_254 w st h outcome st' :
  V254.reachable w st ->
  V254.step w st (V254.Settle h outcome) = Some st' ->
  exists rq,
    inflight (V254.rt st) = [rq] /\ timeouts (V254.rt st) = []
    /\ find_request h (V254.rt st) = Some rq
    /\ rq_owner rq = session (V254.rt st)
    /\ V254.isScanning st = true /\ V254.report st = JNull /\ V254.error st = None
    /\ inflight (V254.rt (V254.onRuntime (drop_request h) st)) = []
    /\ st' = V254.startScan_resume w rq outcome (V254.onRuntime (drop_request h) st).
Proof.
  intros Hreach Hstep. apply Inv254.reachable_invariant_254 in Hreach as [Hshape _].
  cbn in Hstep.
  destruct (find_request h (V254.rt st)) as [rq|] eqn:Hfind; [|discriminate].
  injection Hstep as <-. pose proof Hfind as Hfind'. unfold find_request in Hfind.
  destruct Hshape as [Hi Ht | rq0 Hs Hi Ht Ho Hr He | t Hs Hi Ht Ho Hd Hr He];
    rewrite Hi in Hfind; try discriminate.
  apply find_singleton in Hfind as [-> Hh].
  exists rq0. repeat split; try assumption.
  cbn. rewrite Hi. cbn. rewrite Hh. reflexivity.
Qed.

Lemma settle_inversion_240 w st h outcome st' :
  V240.reachable w st ->
  V240.step w st (V240.Settle h outcome) = Some st' ->
  exists rq,
    inflight (V240.rt st) = [rq] /\ timeouts (V240.rt st) = []
    /\ find_request h (V240.rt st) = Some rq
    /\ rq_owner rq = session (V240.rt st)
    /\ V240.isScanning st = true /\ V240.report st = JNull /\ V240.error st = None
    /\ inflight (V240.rt (V240.onRuntime (drop_request h) st)) = []
    /\ st' = V240.startScan_resume w rq outcome (V240.onRuntime (drop_request h) st).
Proof.
  intros Hreach Hstep. apply Inv240.reachable_invariant_240 in Hreach as [Hshape _].
  cbn in Hstep.
  destruct (find_request h (V240.rt st)) as [rq|] eqn:Hfind; [|discriminate].
  injection Hstep as <-. pose proof Hfind as Hfind'. unfold find_request in Hfind.
  destruct Hshape as [Hi Ht | rq0 Hs Hi Ht Ho Hr He | t Hs Hi Ht Ho Hd Hr He];
    rewrite Hi in Hfind; try discriminate.
  apply find_singleton in Hfind as [-> Hh].
  exists rq0. repeat split; try assumption.
  cbn. rewrite Hi. cbn. rewrite Hh. reflexivity.
Qed.

Lemma fire_inversion_254 w st h st' :
  V254.reachable w st ->
  V254.step w st (V254.Fire h) = Some st' ->
  exists t,
    timeouts (V254.rt st) = [t] /\ inflight (V254.rt st) = []
    /\ find_timer h (timeouts (V254.rt st)) = Some t
    /\ owner t = session (V254.rt st) /\ delay t = 1500%N
    /\ is_due t (V254.rt st) = true
    /\ V254.isScanning st = true /\ V254.report st = JNull /\ V254.error st = None
    /\ timeouts (V254.rt (V254.onRuntime (drop_timeout h) st)) = []
    /\ st' = V254.show_report (payload t) (V254.onRuntime (drop_timeout h) st).
Proof.
  intros Hreach Hstep. apply Inv254.reachable_invariant_254 in Hreach as [Hshape _].
  cbn in Hstep.
  destruct (find_timer h (timeouts (V254.rt st))) as [t|] eqn:Hfind; [|discriminate].
  destruct (is_due t (V254.rt st)) eqn:Hdue; [|discriminate].
  injection Hstep as <-. pose proof Hfind as Hfind'. unfold find_timer in Hfind.
  destruct Hshape as [Hi Ht | rq0 Hs Hi Ht Ho Hr He | t0 Hs Hi Ht Ho Hd Hr He];
    rewrite Ht in Hfind; try discriminate.
  apply find_singleton in Hfind as [-> Hh].
  exists t0. repeat split; try assumption.
  cbn. rewrite Ht. cbn. rewrite Hh. reflexivity.
Qed.

Lemma fire_inversion_240 w st h st' :
  V240.reachable w st ->
  V240.step w st (V240.Fire h) = Some st' ->
  exists t,
    timeouts (V240.rt st) = [t] /\ inflight (V240.rt st) = []
    /\ find_timer h (timeouts (V240.rt st)) = Some t
    /\ owner t = session (V240.rt st) /\ delay t = 2000%N
    /\ is_due t (V240.rt st) = true
    /\ V240.isScanning st = true /\ V240.report st = JNull /\ V240.error st = None
    /\ timeouts (V240.rt (V240.onRuntime (drop_timeout h) st)) = []
    /\ st' = V240.show_report (payload t) (V240.onRuntime (drop_timeout h) st).
Proof.
  intros Hreach Hstep. apply Inv240.reachable_invariant_240 in Hreach as [Hshape _].
  cbn in Hstep.
  destruct (find_timer h (timeouts (V240.rt st))) as [t|] eqn:Hfind; [|discriminate].
  destruct (is_due t (V240.rt st)) eqn:Hdue; [|discriminate].
  injection Hstep as <-. pose proof Hfind as Hfind'. unfold find_timer in Hfind.
  destruct Hshape as [Hi Ht | rq0 Hs Hi Ht Ho Hr He | t0 Hs Hi Ht Ho Hd Hr He];
    rewrite Ht in Hfind; try discriminate.
  apply find_singleton in Hfind as [-> Hh].
  exists t0. repeat split; try assumption.
  cbn. rewrite Ht. cbn. rewrite Hh. reflexivity.
Qed.

Lemma run_reachable_254 w st evs st' :
  V254.reachable w st -> V254.run w st evs = Some st' -> V254.reachable w st'.
Proof.
  revert st. induction evs as [|ev evs IH]; intros st Hreach Hrun; cbn in Hrun.
  - now injection Hrun as <-.
  - destruct (V254.step w st ev) as [mid|] eqn:Hstep; [|discriminate].
    apply (IH mid); [|assumption]. eapply V254.reach_step; eassumption.
Qed.

Lemma run_reachable_240 w st evs st' :
  V240.reachable w st -> V240.run w st evs = Some st' -> V240.reachable w st'.
Proof.
  revert st. induction evs as [|ev evs IH]; intros st Hreach Hrun; cbn in Hrun.
  - now injection Hrun as <-.
  - destruct (V240.step w st ev) as [mid|] eqn:Hstep; [|discriminate].
    apply (IH mid); [|assumption]. eapply V240.reach_step; eassumption.
Qed.

Lemma scanning_254_reachable :
  V254.reachable Scenario.with_key Scenario.scanning_254.
Proof.
  apply (run_reachable_254 _ V254.init Scenario.submit_254); [apply V254.reach_init|].
  vm_compute. reflexivity.
Qed.

Lemma scanning_240_reachable :
  V240.reachable Scenario.with_key Scenario.scanning_240.
Proof.
  apply (run_reachable_240 _ V240.init Scenario.submit_240); [apply V240.reach_init|].
  vm_compute. reflexivity.
Qed.

Lemma rescanning_240_reachable :
  V240.reachable Scenario.with_key Scenario.rescanning_240.
Proof.
  apply (run_reachable_240 _ V240.init
           (Scenario.submit_240 ++ [V240.Settle 1 (Rejected (Error "quota"));
                                    V240.Submit]));
    [apply V240.reach_init|].
  vm_compute. reflexivity.
Qed.

Lemma catch_phase_254 err st :
  V254.phase (V254.startScan_catch err st) = Failure.
Proof.
  unfold V254.phase. cbn - [truthy_str].
  rewrite or_default_truthy; [reflexivity | discriminate].
Qed.

Lemma catch_phase_240 err st :
  V240.phase (V240.startScan_catch err st) = Failure.
Proof. reflexivity. Qed.

(** ** Responses that are not a report *)

(** C1, as stated, fails.  A response with no text is read as the text of an
    empty object, which parses: after the pause the stable screen is in
    Success with a report that has none of the fields of [IntelReport].  The
    same happens in v2.5.4 with a body that has only a summary. *)
Lemma C1_absent_text_reaches_success :
  (exists st',
      V240.run Scenario.with_key V240.init
               (Scenario.submit_240
                  ++ [V240.Elapse 250;
                      V240.Settle 1 (Resolved (mkResponse None));
                      V240.Elapse 2000;
                      V240.Fire 2]) = Some st'
      /\ V240.phase st' = Success
      /\ V240.error st' = None
      /\ V240.report st' = JObject []
      /\ conforms_IntelReport (V240.report st') = false)
  /\
  (exists st',
      V254.run Scenario.with_key V254.init
               (Scenario.submit_254
                  ++ [V254.Elapse 250;
                      V254.Settle 1 (Resolved (mkResponse (Some Scenario.partial_report_text)));
                      V254.Elapse 1500;
                      V254.Fire 2]) = Some st'
      /\ V254.phase st' = Success
      /\ V254.error st' = None
      /\ V254.report st' = JObject [("summary", JString "x")]
      /\ conforms_IntelReport (V254.report st') = false).
Proof.
  split; eexists; (split; [vm_compute; reflexivity|]); repeat split; reflexivity.
Qed.

(** C1, amended.  When the text of a resolved response, with the text of an
    empty object standing in for an empty or absent one, is refused by
    [JSON.parse], the session ends in Failure: an error is shown (the
    SyntaxError message in v2.5.4, the fixed text in v2.4.0), the report stays
    empty, and no timeout or call is left that could set one. *)
Theorem C1_unparsable_response_fails :
  (forall w st st' h response,
      V254.reachable w st ->
      JSON_parse (or_default (text response) "{}") = None ->
      V254.step w st (V254.Settle h (Resolved response)) = Some st' ->
      V254.phase st' = Failure
      /\ V254.error st'
         = Some (or_default (message (syntaxError w (or_default (text response) "{}")))
                            V254.report_failure_message)
      /\ V254.report st' = JNull
      /\ inflight (V254.rt st') = [] /\ timeouts (V254.rt st') = [])
  /\
  (forall w st st' h response,
      V240.reachable w st ->
      JSON_parse (or_default (text response) "{}") = None ->
      V240.step w st (V240.Settle h (Resolved response)) = Some st' ->
      V240.phase st' = Failure
      /\ V240.error st' = Some V240.report_failure_message
      /\ V240.report st' = JNull
      /\ inflight (V240.rt st') = [] /\ timeouts (V240.rt st') = []).
Proof.
  split.
  - intros w st st' h response Hreach Hparse Hstep.
    destruct (settle_inversion_254 w st h _ st' Hreach Hstep)
      as (rq & Hi & Ht & _ & _ & _ & Hr & _ & Hdrop & ->).
    assert (Hres : V254.startScan_resume w rq (Resolved response)
                     (V254.onRuntime (drop_request h) st)
                   = V254.startScan_catch
                       (syntaxError w (or_default (text response) "{}"))
                       (V254.onRuntime (drop_request h) st)).
    { unfold V254.startScan_resume, V254.startScan_parse.
      destruct (rq_cont rq); cbv zeta; rewrite Hparse; reflexivity. }
    rewrite Hres. split; [apply catch_phase_254|].
    split; [reflexivity|]. split; [exact Hr|]. split; [exact Hdrop | exact Ht].
  - intros w st st' h response Hreach Hparse Hstep.
    destruct (settle_inversion_240 w st h _ st' Hreach Hstep)
      as (rq & Hi & Ht & _ & _ & _ & Hr & _ & Hdrop & ->).
    assert (Hres : V240.startScan_resume w rq (Resolved response)
                     (V240.onRuntime (drop_request h) st)
                   = V240.startScan_catch
                       (syntaxError w (or_default (text response) "{}"))
                       (V240.onRuntime (drop_request h) st)).
    { unfold V240.startScan_resume, V240.startScan_parse.
      destruct (rq_cont rq); cbv zeta; rewrite Hparse; reflexivity. }
    rewrite Hres. split; [apply catch_phase_240|].
    split; [reflexivity|]. split; [exact Hr|]. split; [exact Hdrop | exact Ht].
Qed.

(** A response that is prose, not JSON, in both variants. *)
Lemma C1_witness :
  JSON_parse (or_default (text Scenario.prose) "{}") = None
  /\ (exists st',
         V254.step Scenario.with_key Scenario.scanning_254
                   (V254.Settle 1 (Resolved Scenario.prose)) = Some st'
         /\ V254.phase st' = Failure
         /\ V254.report st' = JNull
         /\ timeouts (V254.rt st') = [])
  /\ (exists st',
         V240.step Scenario.with_key Scenario.scanning_240
                   (V240.Settle 1 (Resolved Scenario.prose)) = Some st'
         /\ V240.phase st' = Failure
         /\ V240.report st' = JNull
         /\ timeouts (V240.rt st') = []).
Proof.
  assert (Hparse : JSON_parse (or_default (text Scenario.prose) "{}") = None)
    by (vm_compute; reflexivity).
  split; [exact Hparse|]. split.
  - destruct (V254.step Scenario.with_key Scenario.scanning_254
                        (V254.Settle 1 (Resolved Scenario.prose)))
      as [st'|] eqn:Hstep; [| vm_compute in Hstep; discriminate].
    exists st'. split; [reflexivity|].
    pose proof (proj1 C1_unparsable_response_fails Scenario.with_key _ _ 1
                  Scenario.prose scanning_254_reachable Hparse Hstep)
      as (Hp & _ & Hr & _ & Ht).
    repeat split; assumption.
  - destruct (V240.step Scenario.with_key Scenario.scanning_240
                        (V240.Settle 1 (Resolved Scenario.prose)))
      as [st'|] eqn:Hstep; [| vm_compute in Hstep; discriminate].
    exists st'. split; [reflexivity|].
    pose proof (proj2 C1_unparsable_response_fails Scenario.with_key _ _ 1
                  Scenario.prose scanning_240_reachable Hparse Hstep)
      as (Hp & _ & Hr & _ & Ht).
    repeat split; assumption.
Defined.

(** ** One session at a time *)

Lemma submit_blocked_while_pending_254 w st :
  V254.reachable w st ->
  inflight (V254.rt st) <> [] \/ timeouts (V254.rt st) <> [] ->
  V254.step w st V254.Submit = None.
Proof.
  intros Hreach Hpending.
  apply Inv254.reachable_invariant_254 in Hreach as [Hshape _].
  cbn. unfold V254.submit_disabled.
  destruct Hshape as [Hi Ht | rq Hs | t Hs].
  - destruct Hpending; contradiction.
  - rewrite Hs. reflexivity.
  - rewrite Hs. reflexivity.
Qed.

Lemma submit_blocked_while_pending_240 w st :
  V240.reachable w st ->
  inflight (V240.rt st) <> [] \/ timeouts (V240.rt st) <> [] ->
  V240.step w st V240.Submit = None.
Proof.
  intros Hreach Hpending.
  apply Inv240.reachable_invariant_240 in Hreach as [Hshape _].
  cbn. unfold V240.submit_disabled.
  destruct Hshape as [Hi Ht | rq Hs | t Hs].
  - destruct Hpending; contradiction.
  - rewrite Hs. reflexivity.
  - rewrite Hs. reflexivity.
Qed.

Lemma tick_keeps_outcome_254 w st h r st' :
  V254.step w st (V254.Tick h r) = Some st' ->
  V254.report st' = V254.report st /\ V254.error st' = V254.error st
  /\ V254.phase st' = V254.phase st.
Proof.
  cbn. destruct (find_timer h (intervals (V254.rt st))) as [t|]; [|discriminate].
  destruct (is_due t (V254.rt st) && is_random r); [|discriminate].
  intros [= <-]. unfold V254.phase, V254.tick.
  destruct (Qle_bool 100 _); repeat split.
Qed.

Lemma tick_keeps_outcome_240 w st h r st' :
  V240.step w st (V240.Tick h r) = Some st' ->
  V240.report st' = V240.report st /\ V240.error st' = V240.error st
  /\ V240.phase st' = V240.phase st.
Proof.
  cbn. destruct (find_timer h (intervals (V240.rt st))) as [t|]; [|discriminate].
  destruct (is_due t (V240.rt st) && is_random r); [|discriminate].
  intros [= <-]. unfold V240.phase, V240.tick.
  destruct (Qle_bool 100 _); repeat split.
Qed.

(** C6.  On every screen the component can reach, a network response or a
    follow-up timeout that runs was created for the latest submission: no
    completion of a superseded session is ever applied, so none can change
    the report, the error or the phase of the current one.  The reason is the
    submit button, disabled while [isScanning]: as long as a call is in
    flight or a timeout is armed, no new submission is accepted.  The one
    callback that can outlive its session, the interval tick, changes neither
    the report, nor the error, nor the phase.  Both variants. *)
Theorem C6_completions_belong_to_current_session :
  (forall w st ev st' s,
      V254.reachable w st ->
      V254.step w st ev = Some st' ->
      V254.completion_owner st ev = Some s ->
      s = session (V254.rt st))
  /\ (forall w st,
      V254.reachable w st ->
      inflight (V254.rt st) <> [] \/ timeouts (V254.rt st) <> [] ->
      V254.step w st V254.Submit = None)
  /\ (forall w st h r st',
      V254.step w st (V254.Tick h r) = Some st' ->
      V254.report st' = V254.report st /\ V254.error st' = V254.error st
      /\ V254.phase st' = V254.phase st)
  /\ (forall w st ev st' s,
      V240.reachable w st ->
      V240.step w st ev = Some st' ->
      V240.completion_owner st ev = Some s ->
      s = session (V240.rt st))
  /\ (forall w st,
      V240.reachable w st ->
      inflight (V240.rt st) <> [] \/ timeouts (V240.rt st) <> [] ->
      V240.step w st V240.Submit = None)
  /\ (forall w st h r st',
      V240.step w st (V240.Tick h r) = Some st' ->
      V240.report st' = V240.report st /\ V240.error st' = V240.error st
      /\ V240.phase st' = V240.phase st).
Proof.
  split; [|split; [|split; [|split; [|split]]]].
  - intros w st ev st' s Hreach Hstep Howner.
    destruct ev as [v | v | | ms | h r | h outcome | h]; try discriminate Howner.
    + destruct (settle_inversion_254 w st h outcome st' Hreach Hstep)
        as (rq & _ & _ & Hfind & Ho & _).
      cbn in Howner. rewrite Hfind in Howner. cbn in Howner. congruence.
    + destruct (fire_inversion_254 w st h st' Hreach Hstep)
        as (t & _ & _ & Hfind & Ho & _).
      cbn in Howner. rewrite Hfind in Howner. cbn in Howner. congruence.
  - apply submit_blocked_while_pending_254.
  - apply tick_keeps_outcome_254.
  - intros w st ev st' s Hreach Hstep Howner.
    destruct ev as [v | | ms | h r | h outcome | h]; try discriminate Howner.
    + destruct (settle_inversion_240 w st h outcome st' Hreach Hstep)
        as (rq & _ & _ & Hfind & Ho & _).
      cbn in Howner. rewrite Hfind in Howner. cbn in Howner. congruence.
    + destruct (fire_inversion_240 w st h st' Hreach Hstep)
        as (t & _ & _ & Hfind & Ho & _).
      cbn in Howner. rewrite Hfind in Howner. cbn in Howner. congruence.
  - apply submit_blocked_while_pending_240.
  - apply tick_keeps_outcome_240.
Qed.

(** A second scan after a first one that failed: the response that arrives
    belongs to submission 2, the current one. *)
Lemma C6_witness :
  V240.completion_owner Scenario.rescanning_240
    (V240.Settle 3 (Resolved (mkResponse (Some Scenario.full_report_text)))) = Some 2
  /\ (exists st',
        V240.step Scenario.with_key Scenario.rescanning_240
          (V240.Settle 3 (Resolved (mkResponse (Some Scenario.full_report_text))))
        = Some st')
  /\ 2 = session (V240.rt Scenario.rescanning_240).
Proof.
  assert (Howner : V240.completion_owner Scenario.rescanning_240
            (V240.Settle 3 (Resolved (mkResponse (Some Scenario.full_report_text))))
          = Some 2) by (vm_compute; reflexivity).
  split; [exact Howner|].
  destruct (V240.step Scenario.with_key Scenario.rescanning_240
              (V240.Settle 3 (Resolved (mkResponse (Some Scenario.full_report_text)))))
    as [st'|] eqn:Hstep; [| vm_compute in Hstep; discriminate].
  split; [exists st'; reflexivity|].
  exact (proj1 (proj2 (proj2 (proj2 C6_completions_belong_to_current_session)))
           Scenario.with_key Scenario.rescanning_240 _ st' 2
           rescanning_240_reachable Hstep Howner).
Defined.

(** The guard is the button alone.  Were [handleSearch] run while a scan is
    in flight, the response of the older submission would still be taken and,
    after the pause, shown on the newer one's screen. *)
Remark handlers_rely_on_disabled_submit :
  let resubmitted :=
    V240.handleSearch Scenario.with_key
                      (V240.onRuntime begin_session Scenario.scanning_240) in
  V240.step Scenario.with_key Scenario.scanning_240 V240.Submit = None
  /\ session (V240.rt resubmitted) = 2
  /\ V240.completion_owner resubmitted (V240.Settle 1 (Resolved (mkResponse None)))
     = Some 1
  /\ exists st',
      V240.run Scenario.with_key resubmitted
        [V240.Settle 1 (Resolved (mkResponse None)); V240.Elapse 2000; V240.Fire 4]
      = Some st'
      /\ V240.report st' = JObject []
      /\ V240.isScanning st' = false
      /\ length (inflight (V240.rt st')) = 1.
Proof.
  cbv zeta.
  split; [vm_compute; reflexivity|]. split; [vm_compute; reflexivity|].
  split; [vm_compute; reflexivity|].
  eexists. split; [vm_compute; reflexivity|].
  repeat split; reflexivity.
Qed.

(** ** The pause before Success *)

Lemma success_has_report_254 st : V254.phase st = Success -> V254.report st <> JNull.
Proof.
  unfold V254.phase. intros H Hr. rewrite Hr in H.
  destruct (V254.isScanning st); [discriminate|].
  destruct (truthy_str (V254.error st)); discriminate.
Qed.

Lemma success_has_report_240 st : V240.phase st = Success -> V240.report st <> JNull.
Proof.
  unfold V240.phase. intros H Hr. rewrite Hr in H.
  destruct (V240.isScanning st); [discriminate|].
  destruct (truthy_str (V240.error st)); discriminate.
Qed.

Lemma resume_report_254 w rq outcome st :
  V254.report (V254.startScan_resume w rq outcome st) = V254.report st.
Proof.
  unfold V254.startScan_resume, V254.startScan_parse.
  destruct (rq_cont rq); destruct outcome; cbv zeta;
    try destruct (JSON_parse _); reflexivity.
Qed.

Lemma resume_report_240 w rq outcome st :
  V240.report (V240.startScan_resume w rq outcome st) = V240.report st.
Proof.
  unfold V240.startScan_resume, V240.startScan_parse.
  destruct (rq_cont rq); destruct outcome; cbv zeta;
    try destruct (JSON_parse _); reflexivity.
Qed.

Lemma only_fire_enters_success_254 w st ev st' :
  V254.reachable w st ->
  V254.step w st ev = Some st' ->
  V254.phase st <> Success -> V254.phase st' = Success ->
  exists h, ev = V254.Fire h.
Proof.
  intros Hreach Hstep Hpre Hpost.
  destruct ev as [v | v | | ms | h r | h outcome | h].
  - cbn in Hstep. injection Hstep as <-. contradiction.
  - cbn in Hstep. destruct (V254.showKeyInput st); [|discriminate].
    injection Hstep as <-. contradiction.
  - cbn in Hstep. destruct (V254.submit_disabled st); [discriminate|].
    injection Hstep as <-. apply success_has_report_254 in Hpost.
    contradiction Hpost. apply handleSearch_report_254.
  - cbn in Hstep. injection Hstep as <-. contradiction.
  - cbn in Hstep.
    destruct (find_timer h (intervals (V254.rt st))) as [t|]; [|discriminate].
    destruct (is_due t (V254.rt st) && is_random r); [|discriminate].
    injection Hstep as <-. exfalso. apply Hpre. rewrite <- Hpost.
    unfold V254.phase, V254.tick.
    destruct (Qle_bool 100 _); reflexivity.
  - destruct (settle_inversion_254 w st h outcome st' Hreach Hstep)
      as (rq & _ & _ & _ & _ & _ & Hr & _ & _ & ->).
    apply success_has_report_254 in Hpost. contradiction Hpost.
    rewrite resume_report_254. exact Hr.
  - now exists h.
Qed.

Lemma only_fire_enters_success_240 w st ev st' :
  V240.reachable w st ->
  V240.step w st ev = Some st' ->
  V240.phase st <> Success -> V240.phase st' = Success ->
  exists h, ev = V240.Fire h.
Proof.
  intros Hreach Hstep Hpre Hpost.
  destruct ev as [v | | ms | h r | h outcome | h].
  - cbn in Hstep. injection Hstep as <-. contradiction.
  - cbn in Hstep. destruct (V240.submit_disabled st); [discriminate|].
    injection Hstep as <-. apply success_has_report_240 in Hpost.
    contradiction Hpost. apply handleSearch_report_240.
  - cbn in Hstep. injection Hstep as <-. contradiction.
  - cbn in Hstep.
    destruct (find_timer h (intervals (V240.rt st))) as [t|]; [|discriminate].
    destruct (is_due t (V240.rt st) && is_random r); [|discriminate].
    injection Hstep as <-. exfalso. apply Hpre. rewrite <- Hpost.
    unfold V240.phase, V240.tick.
    destruct (Qle_bool 100 _); reflexivity.
  - destruct (settle_inversion_240 w st h outcome st' Hreach Hstep)
      as (rq & _ & _ & _ & _ & _ & Hr & _ & _ & ->).
    apply success_has_report_240 in Hpost. contradiction Hpost.
    rewrite resume_report_240. exact Hr.
  - now exists h.
Qed.

Lemma parsed_response_arms_pause_254 w st st' h response result :
  V254.reachable w st ->
  JSON_parse (or_default (text response) "{}") = Some result ->
  V254.step w st (V254.Settle h (Resolved response)) = Some st' ->
  V254.phase st' = Scanning /\ V254.report st' = JNull
  /\ inflight (V254.rt st') = []
  /\ calls (V254.rt st') = calls (V254.rt st)
  /\ exists t, timeouts (V254.rt st') = [t]
               /\ armed t = now (V254.rt st) /\ delay t = 1500%N
               /\ payload t = result.
Proof.
  intros Hreach Hparse Hstep.
  destruct (settle_inversion_254 w st h _ st' Hreach Hstep)
    as (rq & Hi & Ht & _ & _ & Hs & Hr & _ & Hdrop & ->).
  assert (Hres : V254.startScan_resume w rq (Resolved response)
                   (V254.onRuntime (drop_request h) st)
                 = V254.onRuntime (setTimeout (rq_owner rq) 1500 result)
                     (V254.onRuntime (drop_request h) st)).
  { unfold V254.startScan_resume, V254.startScan_parse.
    destruct (rq_cont rq); cbv zeta; rewrite Hparse; reflexivity. }
  rewrite Hres. unfold V254.phase. cbn. rewrite Hs, Ht.
  repeat split; try assumption.
  eexists. repeat split; reflexivity.
Qed.

Lemma parsed_response_arms_pause_240 w st st' h response result :
  V240.reachable w st ->
  JSON_parse (or_default (text response) "{}") = Some result ->
  V240.step w st (V240.Settle h (Resolved response)) = Some st' ->
  V240.phase st' = Scanning /\ V240.report st' = JNull
  /\ inflight (V240.rt st') = []
  /\ calls (V240.rt st') = calls (V240.rt st)
  /\ exists t, timeouts (V240.rt st') = [t]
               /\ armed t = now (V240.rt st) /\ delay t = 2000%N
               /\ payload t = result.
Proof.
  intros Hreach Hparse Hstep.
  destruct (settle_inversion_240 w st h _ st' Hreach Hstep)
    as (rq & Hi & Ht & _ & _ & Hs & Hr & _ & Hdrop & ->).
  assert (Hres : V240.startScan_resume w rq (Resolved response)
                   (V240.onRuntime (drop_request h) st)
                 = V240.onRuntime (setTimeout (rq_owner rq) 2000 result)
                     (V240.onRuntime (drop_request h) st)).
  { unfold V240.startScan_resume, V240.startScan_parse.
    destruct (rq_cont rq); cbv zeta; rewrite Hparse; reflexivity. }
  rewrite Hres. unfold V240.phase. cbn. rewrite Hs, Ht.
  repeat split; try assumption.
  eexists. repeat split; reflexivity.
Qed.

Lemma fired_pause_shows_report_254 w st st' h :
  V254.reachable w st ->
  V254.step w st (V254.Fire h) = Some st' ->
  exists t, timeouts (V254.rt st) = [t]
            /\ (armed t + 1500 <= now (V254.rt st))%N
            /\ V254.report st' = payload t
            /\ V254.isScanning st' = false
            /\ V254.error st' = None
            /\ V254.scanProgress st' = 100%Q
            /\ timeouts (V254.rt st') = [] /\ inflight (V254.rt st') = [].
Proof.
  intros Hreach Hstep.
  destruct (fire_inversion_254 w st h st' Hreach Hstep)
    as (t & Ht & Hi & _ & _ & Hd & Hdue & _ & _ & He & Hdrop & ->).
  exists t. unfold is_due in Hdue. rewrite Hd in Hdue. apply N.leb_le in Hdue.
  repeat split; try assumption.
Qed.

Lemma fired_pause_shows_report_240 w st st' h :
  V240.reachable w st ->
  V240.step w st (V240.Fire h) = Some st' ->
  exists t, timeouts (V240.rt st) = [t]
            /\ (armed t + 2000 <= now (V240.rt st))%N
            /\ V240.report st' = payload t
            /\ V240.isScanning st' = false
            /\ V240.error st' = None
            /\ V240.scanProgress st' = 100%Q
            /\ timeouts (V240.rt st') = [] /\ inflight (V240.rt st') = [].
Proof.
  intros Hreach Hstep.
  destruct (fire_inversion_240 w st h st' Hreach Hstep)
    as (t & Ht & Hi & _ & _ & Hd & Hdue & _ & _ & He & Hdrop & ->).
  exists t. unfold is_due in Hdue. rewrite Hd in Hdue. apply N.leb_le in Hdue.
  repeat split; try assumption.
Qed.

Lemma answered_254_reachable :
  V254.reachable Scenario.with_key Scenario.answered_254.
Proof.
  apply (run_reachable_254 _ V254.init Scenario.quick_answer_254);
    [apply V254.reach_init|].
  vm_compute. reflexivity.
Qed.

(** C7.  The pause does not wait for the progress value.  In v2.4.0, where
    the timeout carries the comment [Ensure the scan finishes before showing
    results], the call is answered 100 ms after the submission; 2000 ms later
    the timeout fires and the results panel replaces the ring, which stood at
    38 percent: the interval has ticked five times and the progress value is
    37.5.  The same run in v2.5.4 (pause of 1500 ms) replaces a ring at 25
    percent.  The progress value was below 100 on every screen of both runs, and
    so the results are rendered before the indicator reaches 100. *)
Theorem C7_success_before_progress_completes :
  (exists st st',
    V254.run Scenario.with_key V254.init Scenario.quick_answer_254 = Some st
    /\ forallb (fun s => negb (Qle_bool 100 (V254.scanProgress s)))
               (V254.trace Scenario.with_key V254.init Scenario.quick_answer_254)
       = true
    /\ V254.phase st = Scanning
    /\ (V254.scanProgress st == 25)%Q
    /\ now (V254.rt st) = 1600%N
    /\ V254.step Scenario.with_key st (V254.Fire 2) = Some st'
    /\ V254.phase st' = Success
    /\ V254.report st' = Scenario.full_report
    /\ (exists v offset,
          View254.render Scenario.with_key st = Some v
          /\ View254.panel v = View254.ScanningPanel 25 offset)
    /\ (exists v r,
          View254.render Scenario.with_key st' = Some v
          /\ View254.panel v = View254.ResultsPanel r))
  /\
  (exists st st',
    V240.run Scenario.with_key V240.init Cases.quick_answer_240 = Some st
    /\ forallb (fun s => negb (Qle_bool 100 (V240.scanProgress s)))
               (trace_240 Scenario.with_key V240.init Cases.quick_answer_240)
       = true
    /\ V240.phase st = Scanning
    /\ (V240.scanProgress st == 75 # 2)%Q
    /\ now (V240.rt st) = 2100%N
    /\ V240.step Scenario.with_key st (V240.Fire 2) = Some st'
    /\ V240.phase st' = Success
    /\ V240.report st' = Scenario.full_report
    /\ (exists v offset,
          View240.render st = Some v
          /\ View240.panel v = View254.ScanningPanel 38 offset)
    /\ (exists v r,
          View240.render st' = Some v
          /\ View240.panel v = View254.ResultsPanel r)).
Proof.
  split.
  - exists Scenario.answered_254. eexists.
    split; [vm_compute; reflexivity|].
    split; [vm_compute; reflexivity|].
    split; [reflexivity|].
    split; [reflexivity|].
    split; [reflexivity|].
    split; [vm_compute; reflexivity|].
    split; [reflexivity|].
    split; [reflexivity|].
    split; eexists; eexists; (split; [vm_compute; reflexivity | reflexivity]).
  - exists Cases.answered_240. eexists.
    split; [vm_compute; reflexivity|].
    split; [vm_compute; reflexivity|].
    split; [reflexivity|].
    split; [reflexivity|].
    split; [reflexivity|].
    split; [vm_compute; reflexivity|].
    split; [reflexivity|].
    split; [reflexivity|].
    split; eexists; eexists; (split; [vm_compute; reflexivity | reflexivity]).
Qed.

(** X20.  The pause is counted from the network response alone.
    Handling a response whose text parses arms one timeout of 1500 ms
    (v2.5.4) or 2000 ms (v2.4.0) at that moment and leaves the screen in
    Scanning with no report; a screen enters Success only when that timeout
    fires, which is no earlier than the pause after the moment it was armed;
    the same update stores the report and sets the progress value to 100,
    whatever it was. *)
Theorem X20_success_only_when_the_pause_ends :
  (forall w st st' h response result,
      V254.reachable w st ->
      JSON_parse (or_default (text response) "{}") = Some result ->
      V254.step w st (V254.Settle h (Resolved response)) = Some st' ->
      V254.phase st' = Scanning /\ V254.report st' = JNull
      /\ exists t, timeouts (V254.rt st') = [t]
                   /\ armed t = now (V254.rt st) /\ delay t = 1500%N
                   /\ payload t = result)
  /\ (forall w st ev st',
      V254.reachable w st ->
      V254.step w st ev = Some st' ->
      V254.phase st <> Success -> V254.phase st' = Success ->
      exists t, timeouts (V254.rt st) = [t]
                /\ ev = V254.Fire (handle t)
                /\ (armed t + 1500 <= now (V254.rt st))%N
                /\ V254.report st' = payload t
                /\ V254.scanProgress st' = 100%Q)
  /\ (forall w st,
      V254.reachable w st -> V254.phase st = Success ->
      V254.scanProgress st = 100%Q)
  /\ (forall w st st' h response result,
      V240.reachable w st ->
      JSON_parse (or_default (text response) "{}") = Some result ->
      V240.step w st (V240.Settle h (Resolved response)) = Some st' ->
      V240.phase st' = Scanning /\ V240.report st' = JNull
      /\ exists t, timeouts (V240.rt st') = [t]
                   /\ armed t = now (V240.rt st) /\ delay t = 2000%N
                   /\ payload t = result)
  /\ (forall w st ev st',
      V240.reachable w st ->
      V240.step w st ev = Some st' ->
      V240.phase st <> Success -> V240.phase st' = Success ->
      exists t, timeouts (V240.rt st) = [t]
                /\ ev = V240.Fire (handle t)
                /\ (armed t + 2000 <= now (V240.rt st))%N
                /\ V240.report st' = payload t
                /\ V240.scanProgress st' = 100%Q)
  /\ (forall w st,
      V240.reachable w st -> V240.phase st = Success ->
      V240.scanProgress st = 100%Q).
Proof.
  split; [|split; [|split; [|split; [|split]]]].
  - intros w st st' h response result Hreach Hparse Hstep.
    destruct (parsed_response_arms_pause_254 w st st' h response result
                Hreach Hparse Hstep) as (Hp & Hr & _ & _ & Ht).
    auto.
  - intros w st ev st' Hreach Hstep Hpre Hpost.
    destruct (only_fire_enters_success_254 w st ev st' Hreach Hstep Hpre Hpost)
      as [h ->].
    destruct (fire_inversion_254 w st h st' Hreach Hstep)
      as (t & Ht & _ & Hfind & _).
    destruct (fired_pause_shows_report_254 w st st' h Hreach Hstep)
      as (t' & Ht' & Hdue & Hr & _ & _ & Hq & _).
    rewrite Ht in Ht'. injection Ht' as <-.
    unfold find_timer in Hfind. rewrite Ht in Hfind.
    apply find_singleton in Hfind as [_ Hh]. apply Nat.eqb_eq in Hh.
    exists t. rewrite Hh. auto.
  - intros w st Hreach Hphase.
    apply Inv254.reachable_invariant_254 in Hreach as [_ Hp].
    apply Hp. now apply success_has_report_254.
  - intros w st st' h response result Hreach Hparse Hstep.
    destruct (parsed_response_arms_pause_240 w st st' h response result
                Hreach Hparse Hstep) as (Hp & Hr & _ & _ & Ht).
    auto.
  - intros w st ev st' Hreach Hstep Hpre Hpost.
    destruct (only_fire_enters_success_240 w st ev st' Hreach Hstep Hpre Hpost)
      as [h ->].
    destruct (fire_inversion_240 w st h st' Hreach Hstep)
      as (t & Ht & _ & Hfind & _).
    destruct (fired_pause_shows_report_240 w st st' h Hreach Hstep)
      as (t' & Ht' & Hdue & Hr & _ & _ & Hq & _).
    rewrite Ht in Ht'. injection Ht' as <-.
    unfold find_timer in Hfind. rewrite Ht in Hfind.
    apply find_singleton in Hfind as [_ Hh]. apply Nat.eqb_eq in Hh.
    exists t. rewrite Hh. auto.
  - intros w st Hreach Hphase.
    apply Inv240.reachable_invariant_240 in Hreach as [_ Hp].
    apply Hp. now apply success_has_report_240.
Qed.

(** The quick answer of v2.5.4: the timeout that ends the scan was armed at
    100 ms and fires at 1600 ms. *)
Lemma X20_witness :
  V254.phase Scenario.answered_254 <> Success
  /\ exists st',
      V254.step Scenario.with_key Scenario.answered_254 (V254.Fire 2) = Some st'
      /\ V254.phase st' = Success
      /\ exists t, timeouts (V254.rt Scenario.answered_254) = [t]
                   /\ (armed t + 1500 <= now (V254.rt Scenario.answered_254))%N
                   /\ V254.report st' = payload t
                   /\ V254.scanProgress st' = 100%Q.
Proof.
  assert (Hpre : V254.phase Scenario.answered_254 <> Success) by discriminate.
  split; [exact Hpre|].
  destruct (V254.step Scenario.with_key Scenario.answered_254 (V254.Fire 2))
    as [st'|] eqn:Hstep; [| vm_compute in Hstep; discriminate].
  assert (Hpost : V254.phase st' = Success).
  { vm_compute in Hstep. injection Hstep as <-. reflexivity. }
  exists st'. split; [reflexivity|]. split; [exact Hpost|].
  destruct (proj1 (proj2 X20_success_only_when_the_pause_ends)
              Scenario.with_key Scenario.answered_254 (V254.Fire 2) st'
              answered_254_reachable Hstep Hpre Hpost)
    as (t & Ht & _ & Hdue & Hr & Hq).
  exists t. auto.
Defined.

(** ** The fallback call (v2.5.4) *)

Lemma run_app_254 w st a b st' :
  V254.run w st (a ++ b) = Some st' ->
  exists mid, V254.run w st a = Some mid /\ V254.run w mid b = Some st'.
Proof.
  revert st. induction a as [|ev a IH]; intros st Hrun; cbn in *.
  - now exists st.
  - destruct (V254.step w st ev) as [s|]; [|discriminate]. now apply IH.
Qed.

Lemma run_one_254 w st ev st' :
  V254.run w st [ev] = Some st' -> V254.step w st ev = Some st'.
Proof.
  cbn. destruct (V254.step w st ev) as [s|]; [|discriminate]. now intros [= <-].
Qed.

Lemma passive_step_254 w st ev st' :
  V254.passive ev = true -> V254.step w st ev = Some st' -> V254.same_session st st'.
Proof.
  intros Hpassive Hstep.
  destruct ev as [v | v | | ms | h r | h outcome | h]; try discriminate Hpassive;
    cbn in Hstep.
  - injection Hstep as <-. repeat split.
  - destruct (V254.showKeyInput st); [|discriminate].
    injection Hstep as <-. repeat split.
  - injection Hstep as <-. repeat split.
  - destruct (find_timer h (intervals (V254.rt st))) as [t|]; [|discriminate].
    destruct (is_due t (V254.rt st) && is_random r); [|discriminate].
    injection Hstep as <-. unfold V254.tick.
    destruct (Qle_bool 100 _); repeat split.
Qed.

Lemma passive_run_254 w st evs st' :
  forallb V254.passive evs = true ->
  V254.run w st evs = Some st' -> V254.same_session st st'.
Proof.
  revert st. induction evs as [|ev evs IH]; intros st Hpassive Hrun; cbn in *.
  - injection Hrun as <-. repeat split.
  - apply andb_prop in Hpassive as [Hev Hevs].
    destruct (V254.step w st ev) as [s|] eqn:Hstep; [|discriminate].
    pose proof (passive_step_254 w st ev s Hev Hstep) as (H1 & H2 & H3 & H4 & H5 & H6 & H7).
    pose proof (IH s Hevs Hrun) as (G1 & G2 & G3 & G4 & G5 & G6 & G7).
    repeat split; congruence.
Qed.

(** A submission either starts no call, or leaves exactly the flash call in
    flight. *)
Lemma submit_outcome_254 w st st' :
  V254.reachable w st ->
  V254.step w st V254.Submit = Some st' ->
  (inflight (V254.rt st') = [] /\ timeouts (V254.rt st') = [])
  \/ exists apiKey parsed rq,
      inflight (V254.rt st') = [rq]
      /\ rq_cont rq = V254.AwaitFlash apiKey parsed
      /\ calls (V254.rt st') = calls (V254.rt st) ++ [V254.flash_call apiKey parsed].
Proof.
  intros Hreach Hstep.
  apply Inv254.reachable_invariant_254 in Hreach as [Hshape _].
  cbn in Hstep. destruct (V254.submit_disabled st) eqn:Hen; [discriminate|].
  injection Hstep as <-.
  unfold V254.submit_disabled in Hen. apply orb_false_iff in Hen as [Hscan _].
  assert (Hq : inflight (V254.rt st) = [] /\ timeouts (V254.rt st) = []).
  { destruct Hshape as [Hi Ht | rq Hs | t Hs]; [now split | congruence | congruence]. }
  destruct Hq as [Hi Ht].
  unfold V254.handleSearch.
  destruct (parsePhoneNumberWithError w _) as [parsed | err]; cbn.
  - destruct (isValid parsed); cbn.
    + unfold V254.startScan. cbn. destruct (V254.key_missing _); cbn.
      * left. now split.
      * right. eexists. exists parsed. eexists. rewrite Hi. cbn.
        split; [reflexivity|]. split; reflexivity.
    + left. now split.
  - left. now split.
Qed.

Lemma settle_known_request_254 w st h outcome st' rq :
  V254.reachable w st ->
  inflight (V254.rt st) = [rq] ->
  V254.step w st (V254.Settle h outcome) = Some st' ->
  timeouts (V254.rt st) = [] /\ V254.report st = JNull
  /\ inflight (V254.rt (V254.onRuntime (drop_request h) st)) = []
  /\ st' = V254.startScan_resume w rq outcome (V254.onRuntime (drop_request h) st).
Proof.
  intros Hreach Hi Hstep.
  destruct (settle_inversion_254 w st h outcome st' Hreach Hstep)
    as (rq0 & Hi0 & Ht & _ & _ & _ & Hr & _ & Hdrop & ->).
  rewrite Hi in Hi0. injection Hi0 as <-. auto.
Qed.




Lemma typed_254_reachable :
  V254.reachable Scenario.with_key Scenario.typed_254.
Proof.
  apply (V254.reach_step _ V254.init (V254.ChangePhoneNumber Scenario.raw_number));
    [apply V254.reach_init | reflexivity].
Qed.


(** ** The form after a failure *)









(** ** The progress value and its interval *)

Lemma startScan_resets_progress_254 w parsed st :
  V254.scanProgress (V254.startScan w parsed st) = 0%Q.
Proof.
  unfold V254.startScan. cbn. destruct (V254.key_missing _); reflexivity.
Qed.

Lemma startScan_resets_progress_240 w parsed st :
  V240.scanProgress (V240.startScan w parsed st) = 0%Q.
Proof. reflexivity. Qed.

(** Below 100 a tick adds the draw times ten (fifteen in v2.4.0), with no
    clamp: the value does not decrease and stays under 110 (115). *)
Lemma tick_below_100_254 h r st :
  Qle_bool 100 (V254.scanProgress st) = false ->
  is_random r = true ->
  (V254.scanProgress st <= V254.scanProgress (V254.tick h r st))%Q
  /\ (V254.scanProgress (V254.tick h r st) < 110)%Q.
Proof.
  intros Hlt Hr. unfold V254.tick. rewrite Hlt. cbn.
  unfold is_random in Hr. apply andb_prop in Hr as [H0 H1].
  apply Qle_bool_iff in H0.
  assert (H1' : (r < 1)%Q).
  { apply Qnot_le_lt. intros Hle. apply Qle_bool_iff in Hle.
    rewrite Hle in H1. discriminate. }
  assert (Hp : (V254.scanProgress st < 100)%Q).
  { apply Qnot_le_lt. intros Hle. apply Qle_bool_iff in Hle. congruence. }
  split.
  - rewrite <- (Qplus_0_r (V254.scanProgress st)) at 1.
    apply Qplus_le_r. apply Qmult_le_0_compat; [assumption | discriminate].
  - setoid_replace 110%Q with (100 + 1 * 10)%Q by reflexivity.
    apply Qplus_lt_le_compat; [assumption|].
    apply Qmult_le_compat_r; [now apply Qlt_le_weak | discriminate].
Qed.

(** From 100 on a tick returns 100 and clears its interval. *)
Lemma tick_from_100_254 h r st :
  Qle_bool 100 (V254.scanProgress st) = true ->
  V254.scanProgress (V254.tick h r st) = 100%Q
  /\ find_timer h (intervals (V254.rt (V254.tick h r st))) = None.
Proof.
  intros Hge. unfold V254.tick. rewrite Hge. cbn. split; [reflexivity|].
  unfold find_timer. induction (intervals (V254.rt st)) as [|t ts IH]; [reflexivity|].
  cbn. destruct (handle t =? h)%nat eqn:E; cbn; [exact IH|].
  rewrite E. exact IH.
Qed.

Lemma tick_below_100_240 h r st :
  Qle_bool 100 (V240.scanProgress st) = false ->
  is_random r = true ->
  (V240.scanProgress st <= V240.scanProgress (V240.tick h r st))%Q
  /\ (V240.scanProgress (V240.tick h r st) < 115)%Q.
Proof.
  intros Hlt Hr. unfold V240.tick. rewrite Hlt. cbn.
  unfold is_random in Hr. apply andb_prop in Hr as [H0 H1].
  apply Qle_bool_iff in H0.
  assert (H1' : (r < 1)%Q).
  { apply Qnot_le_lt. intros Hle. apply Qle_bool_iff in Hle.
    rewrite Hle in H1. discriminate. }
  assert (Hp : (V240.scanProgress st < 100)%Q).
  { apply Qnot_le_lt. intros Hle. apply Qle_bool_iff in Hle. congruence. }
  split.
  - rewrite <- (Qplus_0_r (V240.scanProgress st)) at 1.
    apply Qplus_le_r. apply Qmult_le_0_compat; [assumption | discriminate].
  - setoid_replace 115%Q with (100 + 1 * 15)%Q by reflexivity.
    apply Qplus_lt_le_compat; [assumption|].
    apply Qmult_le_compat_r; [now apply Qlt_le_weak | discriminate].
Qed.

Lemma tick_from_100_240 h r st :
  Qle_bool 100 (V240.scanProgress st) = true ->
  V240.scanProgress (V240.tick h r st) = 100%Q
  /\ find_timer h (intervals (V240.rt (V240.tick h r st))) = None.
Proof.
  intros Hge. unfold V240.tick. rewrite Hge. cbn. split; [reflexivity|].
  unfold find_timer. induction (intervals (V240.rt st)) as [|t ts IH]; [reflexivity|].
  cbn. destruct (handle t =? h)%nat eqn:E; cbn; [exact IH|].
  rewrite E. exact IH.
Qed.

(** The only statement that removes an interval is the one inside the tick:
    settling a call and firing the pause leave the intervals as they are. *)
Lemma completions_keep_intervals_254 w st ev st' :
  V254.step w st ev = Some st' ->
  (exists h o, ev = V254.Settle h o) \/ (exists h, ev = V254.Fire h) ->
  intervals (V254.rt st') = intervals (V254.rt st).
Proof.
  intros Hstep [(h & o & ->) | (h & ->)]; cbn in Hstep.
  - destruct (find_request h (V254.rt st)) as [rq|]; [|discriminate].
    injection Hstep as <-.
    unfold V254.startScan_resume, V254.startScan_parse.
    destruct (rq_cont rq); destruct o; cbv zeta;
      try destruct (JSON_parse _); reflexivity.
  - destruct (find_timer h (timeouts (V254.rt st))) as [t|]; [|discriminate].
    destruct (is_due t (V254.rt st)); [|discriminate].
    now injection Hstep as <-.
Qed.

Lemma completions_keep_intervals_240 w st ev st' :
  V240.step w st ev = Some st' ->
  (exists h o, ev = V240.Settle h o) \/ (exists h, ev = V240.Fire h) ->
  intervals (V240.rt st') = intervals (V240.rt st).
Proof.
  intros Hstep [(h & o & ->) | (h & ->)]; cbn in Hstep.
  - destruct (find_request h (V240.rt st)) as [rq|]; [|discriminate].
    injection Hstep as <-.
    unfold V240.startScan_resume, V240.startScan_parse.
    destruct (rq_cont rq); destruct o; cbv zeta;
      try destruct (JSON_parse _); reflexivity.
  - destruct (find_timer h (timeouts (V240.rt st))) as [t|]; [|discriminate].
    destruct (is_due t (V240.rt st)); [|discriminate].
    now injection Hstep as <-.
Qed.

(** C2, on the code.  The reset holds: [startScan] sets the value to 0.  The
    bound and the monotonicity do not: the updater adds the increment without
    clamping.  After thirteen ticks that each draw three quarters the v2.5.4
    value is 97.5; the fourteenth makes it 105, above 100, while the screen is
    still Scanning; the fifteenth brings it back down to 100.  In v2.4.0 the
    ninth tick gives 101.25 and the tenth 100. *)
Theorem C2_progress_overshoots_then_drops :
  (exists over after,
      V254.run Scenario.with_key V254.init
               (Scenario.submit_254 ++ Scenario.ticking_254 14) = Some over
      /\ V254.phase over = Scanning
      /\ (V254.scanProgress over == 105)%Q
      /\ (100 < V254.scanProgress over)%Q
      /\ V254.run Scenario.with_key over (Scenario.ticking_254 1) = Some after
      /\ V254.phase after = Scanning
      /\ (V254.scanProgress after < V254.scanProgress over)%Q)
  /\
  (exists over after,
      V240.run Scenario.with_key V240.init
               (Scenario.submit_240 ++ Scenario.ticking_240 9) = Some over
      /\ V240.phase over = Scanning
      /\ (V240.scanProgress over == 405 # 4)%Q
      /\ (100 < V240.scanProgress over)%Q
      /\ V240.run Scenario.with_key over (Scenario.ticking_240 1) = Some after
      /\ V240.phase after = Scanning
      /\ (V240.scanProgress after < V240.scanProgress over)%Q).
Proof.
  split.
  - eexists. eexists.
    split; [vm_compute; reflexivity|].
    split; [reflexivity|]. split; [reflexivity|]. split; [reflexivity|].
    split; [vm_compute; reflexivity|].
    split; reflexivity.
  - eexists. eexists.
    split; [vm_compute; reflexivity|].
    split; [reflexivity|]. split; [reflexivity|]. split; [reflexivity|].
    split; [vm_compute; reflexivity|].
    split; reflexivity.
Qed.

(** C3, on the code.  No path of [startScan] calls [clearInterval]; only the
    tick does, once the value has reached 100.  In v2.5.4 with no key the
    scan fails inside the submission and its interval stays registered: 300
    ms later it ticks and moves the progress value of a screen that is in
    Failure.  In v2.4.0 the same holds after a rejected call.  After a
    Success the interval is still registered too, until its next tick. *)
Theorem C3_interval_outlives_the_session :
  (exists failed later,
      V254.run Scenario.no_key V254.init Scenario.submit_254 = Some failed
      /\ V254.phase failed = Failure
      /\ length (intervals (V254.rt failed)) = 1
      /\ V254.run Scenario.no_key failed [V254.Elapse 300; V254.Tick 0 (1 # 2)]
         = Some later
      /\ V254.phase later = Failure
      /\ (V254.scanProgress failed < V254.scanProgress later)%Q
      /\ length (intervals (V254.rt later)) = 1)
  /\
  (exists failed later,
      V240.run Scenario.with_key V240.init
               (Scenario.submit_240 ++ [V240.Settle 1 (Rejected (Error "quota"))])
      = Some failed
      /\ V240.phase failed = Failure
      /\ length (intervals (V240.rt failed)) = 1
      /\ V240.run Scenario.with_key failed [V240.Elapse 400; V240.Tick 0 (1 # 2)]
         = Some later
      /\ V240.phase later = Failure
      /\ (V240.scanProgress failed < V240.scanProgress later)%Q
      /\ length (intervals (V240.rt later)) = 1)
  /\
  (exists shown,
      V254.step Scenario.with_key Scenario.answered_254 (V254.Fire 2) = Some shown
      /\ V254.phase shown = Success
      /\ length (intervals (V254.rt shown)) = 1).
Proof.
  split; [|split].
  - eexists. eexists.
    split; [vm_compute; reflexivity|].
    split; [reflexivity|]. split; [reflexivity|].
    split; [vm_compute; reflexivity|].
    split; [reflexivity|]. split; reflexivity.
  - eexists. eexists.
    split; [vm_compute; reflexivity|].
    split; [reflexivity|]. split; [reflexivity|].
    split; [vm_compute; reflexivity|].
    split; [reflexivity|]. split; reflexivity.
  - eexists.
    split; [vm_compute; reflexivity|].
    split; reflexivity.
Qed.

(** ** The happy path of the specification's scenario *)

(** The stable screen on [+6281234567890] with the full report as response:
    the library gives country ID, the scan starts, and once the pause of
    2000 ms is over the screen is in Success with exactly that report, after
    one outbound call. *)
Example stable_scenario_reaches_success :
  exists st',
    V240.run Scenario.with_key V240.init
             (Scenario.submit_240
                ++ [V240.Elapse 400; V240.Tick 0 (1 # 2);
                    V240.Settle 1 (Resolved (mkResponse (Some Scenario.full_report_text)));
                    V240.Elapse 2000;
                    V240.Fire 2]) = Some st'
    /\ V240.phase st' = Success
    /\ V240.report st' = Scenario.full_report
    /\ conforms_IntelReport (V240.report st') = true
    /\ option_map country (V240.parsedData st') = Some (Some "ID")
    /\ length (calls (V240.rt st')) = 1.
Proof.
  eexists. split; [vm_compute; reflexivity|].
  repeat split; reflexivity.
Qed.

(** ** Well-formed screens of v2.5.4 *)

Lemma wellformed_init_254 w : wellformed_254 w V254.init.
Proof.
  constructor; cbn.
  - split; [discriminate | reflexivity].
  - split; [discriminate | intros [H | H]; contradiction].
  - intros [H | H]; [discriminate | contradiction].
  - discriminate.
  - intros H. contradiction.
  - lia.
  - intros t [].
Qed.

(** A handler that leaves the scan alone keeps a screen well formed. *)
Lemma wellformed_frame_254 w st st' :
  wellformed_254 w st ->
  V254.scanProgress st' = V254.scanProgress st ->
  V254.isScanning st' = V254.isScanning st ->
  V254.error st' = V254.error st ->
  V254.report st' = V254.report st ->
  V254.parsedData st' = V254.parsedData st ->
  (V254.manualKey st' <> "" -> V254.showKeyInput st' = true) ->
  inflight (V254.rt st') = inflight (V254.rt st) ->
  timeouts (V254.rt st') = timeouts (V254.rt st) ->
  calls (V254.rt st') = calls (V254.rt st) ->
  session (V254.rt st') = session (V254.rt st) ->
  intervals (V254.rt st') = intervals (V254.rt st) ->
  fresh (V254.rt st') = fresh (V254.rt st) ->
  wellformed_254 w st'.
Proof.
  intros [Hp Hs Hd He Hm Hc Hh] Ep Es Ee Er Ed Em Ei Et Ec En Ev Ef.
  constructor; unfold flash_in_flight;
    rewrite ?Ep, ?Es, ?Ee, ?Er, ?Ed, ?Ei, ?Et, ?Ec, ?En, ?Ev, ?Ef; assumption.
Qed.

Lemma in_rearm_handle {K : Type} (h : nat) (r : Runtime K) (t : Timer unit) :
  In t (intervals (rearm h r)) ->
  exists t0, In t0 (intervals r) /\ handle t = handle t0.
Proof.
  cbn. intros Hin. apply in_map_iff in Hin as (t0 & <- & Hin0).
  exists t0. split; [assumption|]. destruct (handle t0 =? h)%nat; reflexivity.
Qed.

Lemma submit_starts_quiet_254 w st :
  V254.reachable w st -> V254.submit_disabled st = false ->
  V254.isScanning st = false
  /\ inflight (V254.rt st) = [] /\ timeouts (V254.rt st) = [].
Proof.
  intros Hreach Hen.
  apply Inv254.reachable_invariant_254 in Hreach as [Hshape _].
  unfold V254.submit_disabled in Hen. apply orb_false_iff in Hen as [Hscan _].
  split; [assumption|].
  destruct Hshape as [Hi Ht | rq Hs | t Hs]; [now split | congruence | congruence].
Qed.

Lemma nil_not_pending {A B : Type} :
  ~ ((@nil A) <> [] \/ (@nil B) <> []).
Proof. intros [H | H]; contradiction. Qed.

Lemma wellformed_submit_254 w st :
  V254.reachable w st -> wellformed_254 w st ->
  V254.submit_disabled st = false ->
  wellformed_254 w (V254.handleSearch w (V254.onRuntime begin_session st)).
Proof.
  intros Hreach [Hp Hs Hd He Hm Hc Hh] Hen.
  destruct (submit_starts_quiet_254 w st Hreach Hen) as (Hscan & Hi & Ht).
  assert (Hc0 : length (calls (V254.rt st)) <= 2 * session (V254.rt st)).
  { unfold flash_in_flight in Hc. rewrite Hi in Hc. cbn in Hc. lia. }
  unfold V254.handleSearch. cbn.
  destruct (parsePhoneNumberWithError w (V254.phoneNumber st)) as [parsed | err] eqn:Hparse.
  - destruct (isValid parsed) eqn:Hvalid.
    + unfold V254.startScan. cbn.
      replace (V254.resolve_key w _) with (V254.resolve_key w st) by reflexivity.
      destruct (V254.key_missing (V254.resolve_key w st)) eqn:Hkey.
      * constructor; cbn; unfold flash_in_flight; cbn; rewrite ?Hi, ?Ht; cbn.
        -- split; [discriminate | reflexivity].
        -- split; [discriminate | intros H; now apply nil_not_pending in H].
        -- intros [H | H]; [discriminate | contradiction].
        -- intros msg [= <-]. now repeat split.
        -- reflexivity.
        -- lia.
        -- intros t Hin. apply in_app_or in Hin as [Hin | [<- | []]]; cbn.
           ++ apply Hh in Hin. lia.
           ++ lia.
      * constructor; cbn; unfold flash_in_flight; cbn; rewrite ?Hi, ?Ht; cbn.
        -- split; [discriminate | reflexivity].
        -- split; [intros _; left; discriminate | reflexivity].
        -- intros _. exists (V254.phoneNumber st), parsed. now repeat split.
        -- discriminate.
        -- exact Hm.
        -- rewrite length_app. cbn. lia.
        -- intros t Hin. apply in_app_or in Hin as [Hin | [<- | []]]; cbn.
           ++ apply Hh in Hin. lia.
           ++ lia.
    + constructor; cbn; unfold flash_in_flight; cbn; rewrite ?Hi, ?Ht, ?Hscan; cbn.
      * exact Hp.
      * split; [discriminate | intros H; now apply nil_not_pending in H].
      * intros [H | H]; [discriminate | contradiction].
      * intros msg [= <-]. now repeat split.
      * exact Hm.
      * lia.
      * exact Hh.
  - constructor; cbn; unfold flash_in_flight; cbn; rewrite ?Hi, ?Ht, ?Hscan; cbn.
    + exact Hp.
    + split; [discriminate | intros H; now apply nil_not_pending in H].
    + intros [H | H]; [discriminate | contradiction].
    + intros msg [= <-]. split; [|now split].
      apply or_default_not_empty. discriminate.
    + exact Hm.
    + lia.
    + exact Hh.
Qed.

Lemma wellformed_tick_254 w st h r t :
  wellformed_254 w st ->
  find_timer h (intervals (V254.rt st)) = Some t ->
  is_random r = true ->
  wellformed_254 w (V254.tick h r (V254.onRuntime (rearm h) st)).
Proof.
  intros [Hp Hs Hd He Hm Hc Hh] Hfind Hr.
  assert (Hhandles : forall base,
             (forall t0, In t0 base -> In t0 (intervals (rearm h (V254.rt st)))) ->
             forall t0, In t0 base -> handle t0 < fresh (V254.rt st)).
  { intros base Hsub t0 Hin. apply Hsub in Hin.
    apply in_rearm_handle in Hin as (t1 & Hin1 & ->). now apply Hh. }
  unfold V254.tick.
  destruct (Qle_bool 100 (V254.scanProgress (V254.onRuntime (rearm h) st))) eqn:Hq.
  - constructor; try assumption; cbn.
    + split; [discriminate | reflexivity].
    + apply (Hhandles (filter _ _)). intros t0 Hin.
      apply filter_In in Hin as [Hin _]. exact Hin.
  - destruct (tick_below_100_254 h r (V254.onRuntime (rearm h) st) Hq Hr) as [Hle Hlt].
    unfold V254.tick in Hle, Hlt. rewrite Hq in Hle, Hlt. cbn in Hle, Hlt.
    constructor; try assumption; cbn.
    + split; [|exact Hlt]. eapply Qle_trans; [exact (proj1 Hp) | exact Hle].
    + apply (Hhandles _). auto.
Qed.

Lemma wellformed_parse_254 w st own response :
  (0 <= V254.scanProgress st)%Q /\ (V254.scanProgress st < 110)%Q ->
  V254.isScanning st = true ->
  inflight (V254.rt st) = [] -> timeouts (V254.rt st) = [] ->
  V254.report st = JNull -> V254.error st = None ->
  (exists raw p, V254.parsedData st = Some p
                 /\ parsePhoneNumberWithError w raw = Resolved p
                 /\ isValid p = true) ->
  (V254.manualKey st <> "" -> V254.showKeyInput st = true) ->
  length (calls (V254.rt st)) <= 2 * session (V254.rt st) ->
  (forall t, In t (intervals (V254.rt st)) -> handle t < fresh (V254.rt st)) ->
  wellformed_254 w (V254.startScan_parse w own response st).
Proof.
  intros Hp Hscan Hi Ht Hr Herr Hd Hm Hcalls Hh.
  unfold V254.startScan_parse.
  destruct (JSON_parse _) as [result|].
  - constructor; cbn.
    + exact Hp.
    + rewrite Hi, Ht. split; [intros _; right; discriminate | intros _; exact Hscan].
    + intros _. exact Hd.
    + rewrite Herr. discriminate.
    + exact Hm.
    + unfold flash_in_flight. cbn. rewrite Hi. cbn. lia.
    + intros t Hin. apply Hh in Hin. lia.
  - constructor; cbn.
    + exact Hp.
    + rewrite Hi, Ht. split; [discriminate | intros H; now apply nil_not_pending in H].
    + rewrite Hr. intros [H | H]; [discriminate | contradiction].
    + intros msg [= <-]. split; [|now split].
      apply or_default_not_empty. discriminate.
    + exact Hm.
    + unfold flash_in_flight. cbn. rewrite Hi. cbn. lia.
    + exact Hh.
Qed.

Lemma wellformed_settle_254 w st h outcome st' :
  V254.reachable w st -> wellformed_254 w st ->
  V254.step w st (V254.Settle h outcome) = Some st' ->
  wellformed_254 w st'.
Proof.
  intros Hreach Hwf Hstep.
  destruct (settle_inversion_254 w st h outcome st' Hreach Hstep)
    as (rq & Hi & Ht & _ & _ & Hscan & Hr & Herr & Hdrop & ->).
  pose proof Hwf as [Hp Hs Hd He Hm Hc Hh].
  assert (Hflash : flash_in_flight st
                   = match rq_cont rq with
                     | V254.AwaitFlash _ _ => 1
                     | V254.AwaitPro => 0
                     end).
  { unfold flash_in_flight. rewrite Hi. cbn. destruct (rq_cont rq); reflexivity. }
  assert (Hparsed : exists raw p, V254.parsedData st = Some p
                                  /\ parsePhoneNumberWithError w raw = Resolved p
                                  /\ isValid p = true) by (apply Hd; now left).
  cbn in Hdrop.
  assert (Hmid : forall response own,
             wellformed_254 w (V254.startScan_parse w own response
                                 (V254.onRuntime (drop_request h) st))).
  { intros response own. apply wellformed_parse_254; cbn; try assumption.
    destruct (rq_cont rq); lia. }
  unfold V254.startScan_resume.
  destruct (rq_cont rq) as [apiKey parsed|] eqn:Hk; destruct outcome as [response|err].
  - apply Hmid.
  - constructor; cbn.
    + exact Hp.
    + rewrite Hdrop, Ht. split; [intros _; left; discriminate | intros _; exact Hscan].
    + exact Hd.
    + exact He.
    + exact Hm.
    + unfold flash_in_flight. cbn. rewrite Hdrop. cbn. rewrite length_app. cbn. lia.
    + intros t Hin. apply Hh in Hin. lia.
  - apply Hmid.
  - constructor; cbn.
    + exact Hp.
    + rewrite Hdrop, Ht. split; [discriminate | intros H; now apply nil_not_pending in H].
    + rewrite Hr. intros [H | H]; [discriminate | contradiction].
    + intros msg [= <-]. split; [|now split].
      apply or_default_not_empty. discriminate.
    + exact Hm.
    + unfold flash_in_flight. cbn. rewrite Hdrop. cbn. lia.
    + exact Hh.
Qed.

Lemma wellformed_fire_254 w st h st' :
  V254.reachable w st -> wellformed_254 w st ->
  V254.step w st (V254.Fire h) = Some st' ->
  wellformed_254 w st'.
Proof.
  intros Hreach [Hp Hs Hd He Hm Hc Hh] Hstep.
  destruct (fire_inversion_254 w st h st' Hreach Hstep)
    as (t & Ht & Hi & _ & _ & _ & _ & Hscan & Hr & Herr & Hdrop & ->).
  cbn in Hdrop.
  constructor; cbn.
  - split; [discriminate | reflexivity].
  - rewrite Hdrop, Hi. split; [discriminate | intros H; now apply nil_not_pending in H].
  - intros _. apply Hd. now left.
  - rewrite Herr. discriminate.
  - exact Hm.
  - unfold flash_in_flight in *. cbn. exact Hc.
  - exact Hh.
Qed.

Lemma step_keeps_wellformed_254 w st ev st' :
  V254.reachable w st -> wellformed_254 w st ->
  V254.step w st ev = Some st' -> wellformed_254 w st'.
Proof.
  intros Hreach Hwf Hstep.
  destruct ev as [v | v | | ms | h r | h outcome | h].
  - cbn in Hstep. injection Hstep as <-.
    apply (wellformed_frame_254 w st); try reflexivity; [assumption|].
    exact (wf_manual_254 w st Hwf).
  - cbn in Hstep. destruct (V254.showKeyInput st) eqn:Hshow; [|discriminate].
    injection Hstep as <-.
    apply (wellformed_frame_254 w st); try reflexivity; [assumption|].
    intros _. exact Hshow.
  - cbn in Hstep. destruct (V254.submit_disabled st) eqn:Hen; [discriminate|].
    injection Hstep as <-. now apply wellformed_submit_254.
  - cbn in Hstep. injection Hstep as <-.
    apply (wellformed_frame_254 w st); try reflexivity; [assumption|].
    exact (wf_manual_254 w st Hwf).
  - cbn in Hstep.
    destruct (find_timer h (intervals (V254.rt st))) as [t|] eqn:Hfind; [|discriminate].
    destruct (is_due t (V254.rt st) && is_random r) eqn:Hok; [|discriminate].
    injection Hstep as <-. apply andb_prop in Hok as [_ Hr].
    now apply (wellformed_tick_254 w st h r t).
  - now apply (wellformed_settle_254 w st h outcome).
  - now apply (wellformed_fire_254 w st h).
Qed.

Lemma reachable_wellformed_254 w st :
  V254.reachable w st -> wellformed_254 w st.
Proof.
  induction 1 as [| st ev st' Hreach IH Hstep].
  - apply wellformed_init_254.
  - now apply (step_keeps_wellformed_254 w st ev).
Qed.

(** ** Well-formed screens of v2.4.0-Stable *)

Lemma wellformed_init_240 w : wellformed_240 w V240.init.
Proof.
  constructor; cbn.
  - split; [discriminate | reflexivity].
  - split; [discriminate | intros [H | H]; contradiction].
  - intros [H | H]; [discriminate | contradiction].
  - discriminate.
  - lia.
  - intros t [].
Qed.

Lemma wellformed_frame_240 w st st' :
  wellformed_240 w st ->
  V240.scanProgress st' = V240.scanProgress st ->
  V240.isScanning st' = V240.isScanning st ->
  V240.error st' = V240.error st ->
  V240.report st' = V240.report st ->
  V240.parsedData st' = V240.parsedData st ->
  inflight (V240.rt st') = inflight (V240.rt st) ->
  timeouts (V240.rt st') = timeouts (V240.rt st) ->
  calls (V240.rt st') = calls (V240.rt st) ->
  session (V240.rt st') = session (V240.rt st) ->
  intervals (V240.rt st') = intervals (V240.rt st) ->
  fresh (V240.rt st') = fresh (V240.rt st) ->
  wellformed_240 w st'.
Proof.
  intros [Hp Hs Hd He Hc Hh] Ep Es Ee Er Ed Ei Et Ec En Ev Ef.
  constructor;
    rewrite ?Ep, ?Es, ?Ee, ?Er, ?Ed, ?Ei, ?Et, ?Ec, ?En, ?Ev, ?Ef; assumption.
Qed.

Lemma submit_starts_quiet_240 w st :
  V240.reachable w st -> V240.submit_disabled st = false ->
  V240.isScanning st = false
  /\ inflight (V240.rt st) = [] /\ timeouts (V240.rt st) = [].
Proof.
  intros Hreach Hen.
  apply Inv240.reachable_invariant_240 in Hreach as [Hshape _].
  unfold V240.submit_disabled in Hen. apply orb_false_iff in Hen as [Hscan _].
  split; [assumption|].
  destruct Hshape as [Hi Ht | rq Hs | t Hs]; [now split | congruence | congruence].
Qed.

Lemma wellformed_submit_240 w st :
  V240.reachable w st -> wellformed_240 w st ->
  V240.submit_disabled st = false ->
  wellformed_240 w (V240.handleSearch w (V240.onRuntime begin_session st)).
Proof.
  intros Hreach [Hp Hs Hd He Hc Hh] Hen.
  destruct (submit_starts_quiet_240 w st Hreach Hen) as (Hscan & Hi & Ht).
  unfold V240.handleSearch. cbn.
  destruct (parsePhoneNumberWithError w (V240.phoneNumber st)) as [parsed | err] eqn:Hparse.
  - destruct (isValid parsed) eqn:Hvalid.
    + constructor; cbn; rewrite ?Hi, ?Ht; cbn.
      * split; [discriminate | reflexivity].
      * split; [intros _; left; discriminate | reflexivity].
      * intros _. exists (V240.phoneNumber st), parsed. now repeat split.
      * discriminate.
      * rewrite length_app. cbn. lia.
      * intros t Hin. apply in_app_or in Hin as [Hin | [<- | []]]; cbn.
        -- apply Hh in Hin. lia.
        -- lia.
    + constructor; cbn; rewrite ?Hi, ?Ht, ?Hscan; cbn.
      * exact Hp.
      * split; [discriminate | intros H; now apply nil_not_pending in H].
      * intros [H | H]; [discriminate | contradiction].
      * intros msg [= <-]. now repeat split.
      * lia.
      * exact Hh.
  - constructor; cbn; rewrite ?Hi, ?Ht, ?Hscan; cbn.
    + exact Hp.
    + split; [discriminate | intros H; now apply nil_not_pending in H].
    + intros [H | H]; [discriminate | contradiction].
    + intros msg [= <-]. split; [|now split].
      apply or_default_not_empty. discriminate.
    + lia.
    + exact Hh.
Qed.

Lemma wellformed_tick_240 w st h r t :
  wellformed_240 w st ->
  find_timer h (intervals (V240.rt st)) = Some t ->
  is_random r = true ->
  wellformed_240 w (V240.tick h r (V240.onRuntime (rearm h) st)).
Proof.
  intros [Hp Hs Hd He Hc Hh] Hfind Hr.
  assert (Hhandles : forall base,
             (forall t0, In t0 base -> In t0 (intervals (rearm h (V240.rt st)))) ->
             forall t0, In t0 base -> handle t0 < fresh (V240.rt st)).
  { intros base Hsub t0 Hin. apply Hsub in Hin.
    apply in_rearm_handle in Hin as (t1 & Hin1 & ->). now apply Hh. }
  unfold V240.tick.
  destruct (Qle_bool 100 (V240.scanProgress (V240.onRuntime (rearm h) st))) eqn:Hq.
  - constructor; try assumption; cbn.
    + split; [discriminate | reflexivity].
    + apply (Hhandles (filter _ _)). intros t0 Hin.
      apply filter_In in Hin as [Hin _]. exact Hin.
  - destruct (tick_below_100_240 h r (V240.onRuntime (rearm h) st) Hq Hr) as [Hle Hlt].
    unfold V240.tick in Hle, Hlt. rewrite Hq in Hle, Hlt. cbn in Hle, Hlt.
    constructor; try assumption; cbn.
    + split; [|exact Hlt]. eapply Qle_trans; [exact (proj1 Hp) | exact Hle].
    + apply (Hhandles _). auto.
Qed.

Lemma wellformed_settle_240 w st h outcome st' :
  V240.reachable w st -> wellformed_240 w st ->
  V240.step w st (V240.Settle h outcome) = Some st' ->
  wellformed_240 w st'.
Proof.
  intros Hreach Hwf Hstep.
  destruct (settle_inversion_240 w st h outcome st' Hreach Hstep)
    as (rq & Hi & Ht & _ & _ & Hscan & Hr & Herr & Hdrop & ->).
  pose proof Hwf as [Hp Hs Hd He Hc Hh].
  cbn in Hdrop.
  unfold V240.startScan_resume, V240.startScan_parse.
  destruct (rq_cont rq); destruct outcome as [response|err]; cbv zeta;
    [destruct (JSON_parse _) as [result|]|].
  - constructor; cbn.
    + exact Hp.
    + rewrite Hdrop, Ht. split; [intros _; right; discriminate | intros _; exact Hscan].
    + exact Hd.
    + exact He.
    + exact Hc.
    + intros t Hin. apply Hh in Hin. lia.
  - constructor; cbn.
    + exact Hp.
    + rewrite Hdrop, Ht. split; [discriminate | intros H; now apply nil_not_pending in H].
    + rewrite Hr. intros [H | H]; [discriminate | contradiction].
    + intros msg [= <-]. now repeat split.
    + exact Hc.
    + exact Hh.
  - constructor; cbn.
    + exact Hp.
    + rewrite Hdrop, Ht. split; [discriminate | intros H; now apply nil_not_pending in H].
    + rewrite Hr. intros [H | H]; [discriminate | contradiction].
    + intros msg [= <-]. now repeat split.
    + exact Hc.
    + exact Hh.
Qed.

Lemma wellformed_fire_240 w st h st' :
  V240.reachable w st -> wellformed_240 w st ->
  V240.step w st (V240.Fire h) = Some st' ->
  wellformed_240 w st'.
Proof.
  intros Hreach [Hp Hs Hd He Hc Hh] Hstep.
  destruct (fire_inversion_240 w st h st' Hreach Hstep)
    as (t & Ht & Hi & _ & _ & _ & _ & Hscan & Hr & Herr & Hdrop & ->).
  cbn in Hdrop.
  constructor; cbn.
  - split; [discriminate | reflexivity].
  - rewrite Hdrop, Hi. split; [discriminate | intros H; now apply nil_not_pending in H].
  - intros _. apply Hd. now left.
  - rewrite Herr. discriminate.
  - exact Hc.
  - exact Hh.
Qed.

Lemma step_keeps_wellformed_240 w st ev st' :
  V240.reachable w st -> wellformed_240 w st ->
  V240.step w st ev = Some st' -> wellformed_240 w st'.
Proof.
  intros Hreach Hwf Hstep.
  destruct ev as [v | | ms | h r | h outcome | h].
  - cbn in Hstep. injection Hstep as <-.
    apply (wellformed_frame_240 w st); try reflexivity; assumption.
  - cbn in Hstep. destruct (V240.submit_disabled st) eqn:Hen; [discriminate|].
    injection Hstep as <-. now apply wellformed_submit_240.
  - cbn in Hstep. injection Hstep as <-.
    apply (wellformed_frame_240 w st); try reflexivity; assumption.
  - cbn in Hstep.
    destruct (find_timer h (intervals (V240.rt st))) as [t|] eqn:Hfind; [|discriminate].
    destruct (is_due t (V240.rt st) && is_random r) eqn:Hok; [|discriminate].
    injection Hstep as <-. apply andb_prop in Hok as [_ Hr].
    now apply (wellformed_tick_240 w st h r t).
  - now apply (wellformed_settle_240 w st h outcome).
  - now apply (wellformed_fire_240 w st h).
Qed.

Lemma reachable_wellformed_240 w st :
  V240.reachable w st -> wellformed_240 w st.
Proof.
  induction 1 as [| st ev st' Hreach IH Hstep].
  - apply wellformed_init_240.
  - now apply (step_keeps_wellformed_240 w st ev).
Qed.

(** ** Properties of every reachable screen *)

(** X1.  On every screen the component can reach, the progress value is at
    least 0 and below 110 in v2.5.4 (below 115 in v2.4.0): it starts at 0,
    is reset to 0 by [startScan], grows by less than 10 (15) only from a
    value below 100, and is otherwise set to 100. *)
Theorem X1_progress_stays_in_range :
  (forall w st, V254.reachable w st ->
                (0 <= V254.scanProgress st)%Q /\ (V254.scanProgress st < 110)%Q)
  /\ (forall w st, V240.reachable w st ->
                   (0 <= V240.scanProgress st)%Q /\ (V240.scanProgress st < 115)%Q).
Proof.
  split; intros w st Hreach.
  - exact (wf_progress_254 w st (reachable_wellformed_254 w st Hreach)).
  - exact (wf_progress_240 w st (reachable_wellformed_240 w st Hreach)).
Qed.

Lemma X1_witness :
  (0 <= V254.scanProgress Scenario.answered_254)%Q
  /\ (V254.scanProgress Scenario.answered_254 < 110)%Q.
Proof.
  exact (proj1 X1_progress_stays_in_range Scenario.with_key Scenario.answered_254
               answered_254_reachable).
Defined.

(** X2.  [isScanning] is true exactly while a call is in flight or the pause
    is armed, and never more than one of them is pending: the screen cannot
    stay in Scanning with nothing left to end it, and nothing is pending
    while the form is enabled.  Both variants. *)
Theorem X2_scanning_iff_pending :
  (forall w st, V254.reachable w st ->
                (V254.isScanning st = true <->
                 inflight (V254.rt st) <> [] \/ timeouts (V254.rt st) <> [])
                /\ length (inflight (V254.rt st)) + length (timeouts (V254.rt st)) <= 1)
  /\ (forall w st, V240.reachable w st ->
                   (V240.isScanning st = true <->
                    inflight (V240.rt st) <> [] \/ timeouts (V240.rt st) <> [])
                   /\ length (inflight (V240.rt st)) + length (timeouts (V240.rt st)) <= 1).
Proof.
  split; intros w st Hreach.
  - split; [exact (wf_scanning_254 w st (reachable_wellformed_254 w st Hreach))|].
    apply Inv254.reachable_invariant_254 in Hreach as [Hshape _].
    destruct Hshape as [Hi Ht | rq _ Hi Ht | t _ Hi Ht]; rewrite Hi, Ht; cbn; lia.
  - split; [exact (wf_scanning_240 w st (reachable_wellformed_240 w st Hreach))|].
    apply Inv240.reachable_invariant_240 in Hreach as [Hshape _].
    destruct Hshape as [Hi Ht | rq _ Hi Ht | t _ Hi Ht]; rewrite Hi, Ht; cbn; lia.
Qed.

Lemma X2_witness :
  (V240.isScanning Scenario.rescanning_240 = true <->
   inflight (V240.rt Scenario.rescanning_240) <> []
   \/ timeouts (V240.rt Scenario.rescanning_240) <> [])
  /\ length (inflight (V240.rt Scenario.rescanning_240))
     + length (timeouts (V240.rt Scenario.rescanning_240)) <= 1.
Proof.
  exact (proj2 X2_scanning_iff_pending Scenario.with_key Scenario.rescanning_240
               rescanning_240_reachable).
Defined.

(** X3.  Whenever the screen is scanning or holds a report, [parsedData]
    holds a number that the library returned for some input and that passed
    [isValid]: the country and carrier cards of the report panel never read
    a missing or invalid number.  Both variants. *)
Theorem X3_scan_and_report_have_a_valid_number :
  (forall w st, V254.reachable w st ->
                V254.isScanning st = true \/ V254.report st <> JNull ->
                exists raw p,
                  V254.parsedData st = Some p
                  /\ parsePhoneNumberWithError w raw = Resolved p
                  /\ isValid p = true)
  /\ (forall w st, V240.reachable w st ->
                   V240.isScanning st = true \/ V240.report st <> JNull ->
                   exists raw p,
                     V240.parsedData st = Some p
                     /\ parsePhoneNumberWithError w raw = Resolved p
                     /\ isValid p = true).
Proof.
  split; intros w st Hreach.
  - exact (wf_parsed_254 w st (reachable_wellformed_254 w st Hreach)).
  - exact (wf_parsed_240 w st (reachable_wellformed_240 w st Hreach)).
Qed.

Lemma X3_witness :
  exists raw p,
    V254.parsedData Scenario.scanning_254 = Some p
    /\ parsePhoneNumberWithError Scenario.with_key raw = Resolved p
    /\ isValid p = true.
Proof.
  exact (proj1 X3_scan_and_report_have_a_valid_number
               Scenario.with_key Scenario.scanning_254 scanning_254_reachable
               (or_introl eq_refl)).
Defined.

(** X4.  An error message on a reachable screen is never empty, and while it
    is there the screen is neither scanning nor holding a report: the error
    box is never shown beside the progress ring or a report.  Both
    variants. *)
Theorem X4_error_excludes_scan_and_report :
  (forall w st msg, V254.reachable w st -> V254.error st = Some msg ->
                    msg <> "" /\ V254.isScanning st = false
                    /\ V254.report st = JNull /\ V254.phase st = Failure)
  /\ (forall w st msg, V240.reachable w st -> V240.error st = Some msg ->
                       msg <> "" /\ V240.isScanning st = false
                       /\ V240.report st = JNull /\ V240.phase st = Failure).
Proof.
  split; intros w st msg Hreach Herr.
  - destruct (wf_exclusive_254 w st (reachable_wellformed_254 w st Hreach) msg Herr)
      as (Hne & Hs & Hr).
    repeat split; try assumption.
    unfold V254.phase. rewrite Hs, Herr. cbn.
    destruct (String.eqb_spec msg ""); [contradiction | reflexivity].
  - destruct (wf_exclusive_240 w st (reachable_wellformed_240 w st Hreach) msg Herr)
      as (Hne & Hs & Hr).
    repeat split; try assumption.
    unfold V240.phase. rewrite Hs, Herr. cbn.
    destruct (String.eqb_spec msg ""); [contradiction | reflexivity].
Qed.

Lemma filter_filter_length {A : Type} (f g : A -> bool) (l : list A) :
  length (filter g (filter f l)) <= length (filter g l).
Proof.
  induction l as [|x l IH]; cbn; [lia|].
  destruct (f x); cbn; destruct (g x); cbn; lia.
Qed.

Lemma filter_drop_found {A : Type} (p g : A -> bool) (l : list A) (x : A) :
  find p l = Some x -> g x = true ->
  S (length (filter g (filter (fun y => negb (p y)) l))) <= length (filter g l).
Proof.
  induction l as [|y l IH]; cbn; [discriminate|].
  destruct (p y) eqn:Hp; cbn.
  - intros [= ->] Hg. rewrite Hg. cbn.
    pose proof (filter_filter_length (fun y => negb (p y)) g l). lia.
  - intros Hfind Hg. specialize (IH Hfind Hg). destruct (g y); cbn; lia.
Qed.

(** One handler run adds at most two to the calls made plus the flash calls
    in flight, and only when it starts a scan. *)
Lemma step_calls_254 w st ev st' :
  V254.step w st ev = Some st' ->
  length (calls (V254.rt st')) + flash_in_flight st'
  <= length (calls (V254.rt st)) + flash_in_flight st
     + 2 * (if starts_scan_254 w st ev then 1 else 0).
Proof.
  intros Hstep. destruct ev as [v | v | | ms | h r | h outcome | h]; cbn in Hstep.
  - injection Hstep as <-. cbn. unfold flash_in_flight. cbn. lia.
  - destruct (V254.showKeyInput st); [|discriminate].
    injection Hstep as <-. unfold flash_in_flight. cbn. lia.
  - unfold starts_scan_254, V254.validation_error.
    destruct (V254.submit_disabled st); [discriminate|]. injection Hstep as <-.
    unfold V254.handleSearch, flash_in_flight. cbn.
    destruct (parsePhoneNumberWithError w (V254.phoneNumber st)) as [parsed | err];
      cbn; [|lia].
    destruct (isValid parsed); cbn; [|lia].
    unfold V254.startScan. cbn. destruct (V254.key_missing _); cbn; [lia|].
    rewrite filter_app, !length_app. cbn. lia.
  - injection Hstep as <-. unfold flash_in_flight. cbn. lia.
  - destruct (find_timer h (intervals (V254.rt st))) as [t|]; [|discriminate].
    destruct (is_due t (V254.rt st) && is_random r); [|discriminate].
    injection Hstep as <-. unfold V254.tick, flash_in_flight.
    destruct (Qle_bool 100 _); cbn; lia.
  - destruct (find_request h (V254.rt st)) as [rq|] eqn:Hfind; [|discriminate].
    injection Hstep as <-. unfold find_request in Hfind.
    pose proof (filter_filter_length
                  (fun q : Request V254.Continuation => negb (rq_handle q =? h)%nat)
                  (fun q => match rq_cont q with
                            | V254.AwaitFlash _ _ => true
                            | V254.AwaitPro => false
                            end) (inflight (V254.rt st))) as Hle.
    unfold V254.startScan_resume, V254.startScan_parse, flash_in_flight.
    destruct (rq_cont rq) as [apiKey parsed|] eqn:Hcont; destruct outcome as [response | err];
      cbv zeta; try destruct (JSON_parse _); cbn; try lia.
    pose proof (filter_drop_found _
                  (fun q => match rq_cont q with
                            | V254.AwaitFlash _ _ => true
                            | V254.AwaitPro => false
                            end) _ rq Hfind) as Hdrop.
    cbv beta in Hdrop. rewrite Hcont in Hdrop. specialize (Hdrop eq_refl).
    rewrite filter_app, !length_app. cbn. lia.
  - destruct (find_timer h (timeouts (V254.rt st))) as [t|]; [|discriminate].
    destruct (is_due t (V254.rt st)); [|discriminate].
    injection Hstep as <-. unfold flash_in_flight. cbn. lia.
Qed.

Lemma run_calls_254 w evs : forall st st',
  V254.run w st evs = Some st' ->
  length (calls (V254.rt st')) + flash_in_flight st'
  <= length (calls (V254.rt st)) + flash_in_flight st
     + 2 * scans_started_254 w st evs.
Proof.
  induction evs as [|ev evs IH]; intros st st' Hrun; cbn in *.
  - injection Hrun as <-. lia.
  - destruct (V254.step w st ev) as [mid|] eqn:Hstep; [|discriminate].
    pose proof (step_calls_254 w st ev mid Hstep).
    pose proof (IH mid st' Hrun).
    destruct (starts_scan_254 w st ev); lia.
Qed.

Lemma step_calls_240 w st ev st' :
  V240.step w st ev = Some st' ->
  length (calls (V240.rt st'))
  <= length (calls (V240.rt st)) + (if starts_scan_240 w st ev then 1 else 0).
Proof.
  intros Hstep. destruct ev as [v | | ms | h r | h outcome | h]; cbn in Hstep.
  - injection Hstep as <-. cbn. lia.
  - unfold starts_scan_240, V240.validation_error.
    destruct (V240.submit_disabled st); [discriminate|]. injection Hstep as <-.
    unfold V240.handleSearch. cbn.
    destruct (parsePhoneNumberWithError w (V240.phoneNumber st)) as [parsed | err];
      cbn; [|lia].
    destruct (isValid parsed); cbn; [|lia].
    rewrite length_app. cbn. lia.
  - injection Hstep as <-. cbn. lia.
  - destruct (find_timer h (intervals (V240.rt st))) as [t|]; [|discriminate].
    destruct (is_due t (V240.rt st) && is_random r); [|discriminate].
    injection Hstep as <-. unfold V240.tick.
    destruct (Qle_bool 100 _); cbn; lia.
  - destruct (find_request h (V240.rt st)) as [rq|] eqn:Hfind; [|discriminate].
    injection Hstep as <-.
    unfold V240.startScan_resume, V240.startScan_parse.
    destruct (rq_cont rq); destruct outcome as [response | err];
      cbv zeta; try destruct (JSON_parse _); cbn; lia.
  - destruct (find_timer h (timeouts (V240.rt st))) as [t|]; [|discriminate].
    destruct (is_due t (V240.rt st)); [|discriminate].
    injection Hstep as <-. cbn. lia.
Qed.

Lemma run_calls_240 w evs : forall st st',
  V240.run w st evs = Some st' ->
  length (calls (V240.rt st'))
  <= length (calls (V240.rt st)) + scans_started_240 w st evs.
Proof.
  induction evs as [|ev evs IH]; intros st st' Hrun; cbn in *.
  - injection Hrun as <-. lia.
  - destruct (V240.step w st ev) as [mid|] eqn:Hstep; [|discriminate].
    pose proof (step_calls_240 w st ev mid Hstep).
    pose proof (IH mid st' Hrun).
    destruct (starts_scan_240 w st ev); lia.
Qed.

(** X6.  Along every run from the initial screen, the outbound calls never
    outnumber twice the scans started in v2.5.4 (a scan costs at most the
    flash call and the pro call), nor the scans started in v2.4.0.  A scan
    is started by a submission whose input passes validation; a submission
    that is refused starts none and costs no call. *)
Theorem X6_calls_per_scan_started :
  (forall w evs st,
      V254.run w V254.init evs = Some st ->
      length (calls (V254.rt st)) <= 2 * scans_started_254 w V254.init evs)
  /\ (forall w evs st,
      V240.run w V240.init evs = Some st ->
      length (calls (V240.rt st)) <= scans_started_240 w V240.init evs).
Proof.
  split; intros w evs st Hrun.
  - pose proof (run_calls_254 w evs V254.init st Hrun) as H.
    unfold flash_in_flight in H at 2. cbn in H. lia.
  - pose proof (run_calls_240 w evs V240.init st Hrun) as H. cbn in H. lia.
Qed.

(** ** The manual key field (v2.5.4) *)

Lemma show_key_is_sticky_254 w st ev st' :
  V254.step w st ev = Some st' ->
  V254.showKeyInput st = true -> V254.showKeyInput st' = true.
Proof.
  intros Hstep Hshow.
  destruct ev as [v | v | | ms | h r | h outcome | h]; cbn in Hstep.
  - now injection Hstep as <-.
  - rewrite Hshow in Hstep. now injection Hstep as <-.
  - destruct (V254.submit_disabled st); [discriminate|]. injection Hstep as <-.
    unfold V254.handleSearch.
    destruct (parsePhoneNumberWithError w _) as [parsed|err]; cbn; [|assumption].
    destruct (isValid parsed); cbn; [|assumption].
    unfold V254.startScan. cbn. destruct (V254.key_missing _); cbn; trivial.
  - now injection Hstep as <-.
  - destruct (find_timer h (intervals (V254.rt st))) as [t|]; [|discriminate].
    destruct (is_due t (V254.rt st) && is_random r); [|discriminate].
    injection Hstep as <-. unfold V254.tick.
    destruct (Qle_bool 100 _); assumption.
  - destruct (find_request h (V254.rt st)) as [rq|]; [|discriminate].
    injection Hstep as <-.
    unfold V254.startScan_resume, V254.startScan_parse.
    destruct (rq_cont rq); destruct outcome; cbv zeta;
      try destruct (JSON_parse _); assumption.
  - destruct (find_timer h (timeouts (V254.rt st))) as [t|]; [|discriminate].
    destruct (is_due t (V254.rt st)); [|discriminate].
    now injection Hstep as <-.
Qed.

Lemma show_key_revealed_by_missing_key_254 w st ev st' :
  V254.step w st ev = Some st' ->
  V254.showKeyInput st = false -> V254.showKeyInput st' = true ->
  ev = V254.Submit /\ V254.error st' = Some V254.missing_key_message
  /\ V254.key_missing (V254.resolve_key w st) = true.
Proof.
  intros Hstep Hoff Hon.
  destruct ev as [v | v | | ms | h r | h outcome | h]; cbn in Hstep.
  - injection Hstep as <-. cbn in Hon. congruence.
  - rewrite Hoff in Hstep. discriminate.
  - destruct (V254.submit_disabled st); [discriminate|]. injection Hstep as <-.
    split; [reflexivity|]. revert Hon. unfold V254.handleSearch.
    destruct (parsePhoneNumberWithError w _) as [parsed|err]; cbn; [|congruence].
    destruct (isValid parsed); cbn; [|congruence].
    unfold V254.startScan. cbn.
    replace (V254.resolve_key w _) with (V254.resolve_key w st) by reflexivity.
    destruct (V254.key_missing _); cbn; [now split | congruence].
  - injection Hstep as <-. cbn in Hon. congruence.
  - destruct (find_timer h (intervals (V254.rt st))) as [t|]; [|discriminate].
    destruct (is_due t (V254.rt st) && is_random r); [|discriminate].
    injection Hstep as <-. revert Hon. unfold V254.tick.
    destruct (Qle_bool 100 _); cbn; congruence.
  - destruct (find_request h (V254.rt st)) as [rq|]; [|discriminate].
    injection Hstep as <-. revert Hon.
    unfold V254.startScan_resume, V254.startScan_parse.
    destruct (rq_cont rq); destruct outcome; cbv zeta;
      try destruct (JSON_parse _); cbn; congruence.
  - destruct (find_timer h (timeouts (V254.rt st))) as [t|]; [|discriminate].
    destruct (is_due t (V254.rt st)); [|discriminate].
    injection Hstep as <-. cbn in Hon. congruence.
Qed.

(** X5.  The manual key field of v2.5.4: it is revealed only by a submission
    that fails the credential check (which also shows the missing-credential
    message), once revealed it is never hidden again, and a manual key can
    only have been typed after it was revealed. *)
Theorem X5_manual_key_field :
  (forall w st ev st',
      V254.step w st ev = Some st' ->
      V254.showKeyInput st = false -> V254.showKeyInput st' = true ->
      ev = V254.Submit /\ V254.error st' = Some V254.missing_key_message
      /\ V254.key_missing (V254.resolve_key w st) = true)
  /\ (forall w st ev st',
      V254.step w st ev = Some st' ->
      V254.showKeyInput st = true -> V254.showKeyInput st' = true)
  /\ (forall w st,
      V254.reachable w st ->
      V254.manualKey st <> "" -> V254.showKeyInput st = true).
Proof.
  split; [|split].
  - apply show_key_revealed_by_missing_key_254.
  - apply show_key_is_sticky_254.
  - intros w st Hreach.
    exact (wf_manual_254 w st (reachable_wellformed_254 w st Hreach)).
Qed.

(** ** Calls that are not retried *)

(** X7.  In v2.5.4 a flash call that resolves is final, whatever its text:
    the scan has made exactly one call, nothing is left in flight, and the
    pro model is not asked, also when the text does not parse (the
    [JSON.parse] is outside the inner [try]). *)
Theorem X7_resolved_flash_call_is_not_retried w st st' evs1 h1 response :
  V254.reachable w st ->
  forallb V254.passive evs1 = true ->
  V254.run w st ([V254.Submit] ++ evs1 ++ [V254.Settle h1 (Resolved response)])
  = Some st' ->
  exists apiKey parsed,
    calls (V254.rt st') = calls (V254.rt st) ++ [V254.flash_call apiKey parsed]
    /\ inflight (V254.rt st') = []
    /\ (JSON_parse (or_default (text response) "{}") = None ->
        V254.phase st' = Failure /\ timeouts (V254.rt st') = []).
Proof.
  intros Hreach Hp1 Hrun.
  apply run_app_254 in Hrun as (s1 & Hsubmit & Hrun).
  apply run_one_254 in Hsubmit.
  apply run_app_254 in Hrun as (s1' & Hevs1 & Hsettle).
  apply run_one_254 in Hsettle.
  assert (Hreach1 : V254.reachable w s1)
    by exact (V254.reach_step w st V254.Submit s1 Hreach Hsubmit).
  assert (Hreach1' : V254.reachable w s1')
    by exact (run_reachable_254 w s1 evs1 s1' Hreach1 Hevs1).
  pose proof (passive_run_254 w s1 evs1 s1' Hp1 Hevs1) as (_ & _ & _ & Hi1 & _ & Hc1 & _).
  destruct (submit_outcome_254 w st s1 Hreach Hsubmit)
    as [[Hnone _] | (apiKey & parsed & rq & Hi & Hk & Hc)].
  - destruct (settle_inversion_254 w s1' h1 _ st' Hreach1' Hsettle) as (rq & Hi & _).
    congruence.
  - rewrite Hi in Hi1. rewrite Hc in Hc1.
    destruct (settle_known_request_254 w s1' h1 _ st' rq Hreach1' Hi1 Hsettle)
      as (Ht & _ & Hdrop & ->).
    exists apiKey, parsed. unfold V254.startScan_resume. rewrite Hk.
    unfold V254.startScan_parse. cbn in Hdrop.
    destruct (JSON_parse (or_default (text response) "{}")) as [result|]; cbn.
    + rewrite Hdrop, Hc1. split; [reflexivity|]. split; [reflexivity|].
      intros H. discriminate H.
    + rewrite Hdrop, Hc1, Ht. split; [reflexivity|]. split; [reflexivity|].
      intros _. split; [|reflexivity].
      apply (catch_phase_254 _ (V254.onRuntime (drop_request h1) s1')).
Qed.

(** X8.  In v2.4.0 a rejected call ends the scan at once with the one fixed
    text, whatever was thrown: the message of the error is never shown, no
    second call is made, and nothing stays pending. *)
Theorem X8_rejected_call_shows_fixed_text w st h err st' :
  V240.reachable w st ->
  V240.step w st (V240.Settle h (Rejected err)) = Some st' ->
  V240.error st' = Some V240.report_failure_message
  /\ V240.phase st' = Failure
  /\ V240.report st' = JNull
  /\ calls (V240.rt st') = calls (V240.rt st)
  /\ inflight (V240.rt st') = [] /\ timeouts (V240.rt st') = [].
Proof.
  intros Hreach Hstep.
  destruct (settle_inversion_240 w st h _ st' Hreach Hstep)
    as (rq & Hi & Ht & _ & _ & _ & Hr & _ & Hdrop & ->).
  unfold V240.startScan_resume. destruct (rq_cont rq). cbn in *.
  now repeat split.
Qed.

(** ** An interval that cleared itself *)

Lemma find_timer_none {A : Type} (h : nat) (ts : list (Timer A)) :
  find_timer h ts = None <-> forall t, In t ts -> handle t <> h.
Proof.
  unfold find_timer. split.
  - intros Hnone t Hin Heq.
    pose proof (find_none _ _ Hnone t Hin) as Hf. cbn in Hf.
    apply Nat.eqb_neq in Hf. contradiction.
  - intros Hall. destruct (find _ ts) as [t|] eqn:Hfind; [|reflexivity].
    apply find_some in Hfind as [Hin Heq]. apply Nat.eqb_eq in Heq.
    exfalso. exact (Hall t Hin Heq).
Qed.

Lemma find_timer_some {A : Type} (h : nat) (ts : list (Timer A)) (t : Timer A) :
  find_timer h ts = Some t -> In t ts /\ handle t = h.
Proof.
  unfold find_timer. intros Hfind. apply find_some in Hfind as [Hin Heq].
  apply Nat.eqb_eq in Heq. now split.
Qed.

(** Handles are never reused: a step keeps the handles of the intervals it
    keeps, and a new interval gets a handle that was not in use. *)
Lemma step_intervals_254 w st ev st' :
  V254.step w st ev = Some st' ->
  fresh (V254.rt st) <= fresh (V254.rt st')
  /\ forall t, In t (intervals (V254.rt st')) ->
               (exists t0, In t0 (intervals (V254.rt st)) /\ handle t = handle t0)
               \/ fresh (V254.rt st) <= handle t.
Proof.
  intros Hstep.
  assert (Hsame : forall s : V254.State,
             fresh (V254.rt s) = fresh (V254.rt st) ->
             intervals (V254.rt s) = intervals (V254.rt st) ->
             fresh (V254.rt st) <= fresh (V254.rt s)
             /\ forall t, In t (intervals (V254.rt s)) ->
                          (exists t0, In t0 (intervals (V254.rt st))
                                      /\ handle t = handle t0)
                          \/ fresh (V254.rt st) <= handle t).
  { intros s Hf Hi. rewrite Hf, Hi. split; [lia|]. intros t Hin. left. now exists t. }
  destruct ev as [v | v | | ms | h r | h outcome | h]; cbn in Hstep.
  - injection Hstep as <-. now apply Hsame.
  - destruct (V254.showKeyInput st); [|discriminate].
    injection Hstep as <-. now apply Hsame.
  - destruct (V254.submit_disabled st); [discriminate|]. injection Hstep as <-.
    unfold V254.handleSearch.
    destruct (parsePhoneNumberWithError w _) as [parsed|err]; cbn;
      [|now apply Hsame].
    destruct (isValid parsed); cbn; [|now apply Hsame].
    unfold V254.startScan. cbn. destruct (V254.key_missing _); cbn.
    + split; [lia|]. intros t Hin. apply in_app_or in Hin as [Hin | [<- | []]].
      * left. now exists t.
      * right. cbn. lia.
    + split; [lia|]. intros t Hin. apply in_app_or in Hin as [Hin | [<- | []]].
      * left. now exists t.
      * right. cbn. lia.
  - injection Hstep as <-. now apply Hsame.
  - destruct (find_timer h (intervals (V254.rt st))) as [t|]; [|discriminate].
    destruct (is_due t (V254.rt st) && is_random r); [|discriminate].
    injection Hstep as <-. unfold V254.tick.
    destruct (Qle_bool 100 _); cbn; (split; [lia|]); intros t0 Hin; left.
    + apply filter_In in Hin as [Hin _].
      apply (in_rearm_handle h (V254.rt st)) in Hin. exact Hin.
    + apply (in_rearm_handle h (V254.rt st)) in Hin. exact Hin.
  - destruct (find_request h (V254.rt st)) as [rq|]; [|discriminate].
    injection Hstep as <-.
    unfold V254.startScan_resume, V254.startScan_parse.
    destruct (rq_cont rq); destruct outcome; cbv zeta;
      try destruct (JSON_parse _); cbn;
      (split; [lia|]); intros t0 Hin; left; now exists t0.
  - destruct (find_timer h (timeouts (V254.rt st))) as [t|]; [|discriminate].
    destruct (is_due t (V254.rt st)); [|discriminate].
    injection Hstep as <-. now apply Hsame.
Qed.

Lemma step_intervals_240 w st ev st' :
  V240.step w st ev = Some st' ->
  fresh (V240.rt st) <= fresh (V240.rt st')
  /\ forall t, In t (intervals (V240.rt st')) ->
               (exists t0, In t0 (intervals (V240.rt st)) /\ handle t = handle t0)
               \/ fresh (V240.rt st) <= handle t.
Proof.
  intros Hstep.
  assert (Hsame : forall s : V240.State,
             fresh (V240.rt s) = fresh (V240.rt st) ->
             intervals (V240.rt s) = intervals (V240.rt st) ->
             fresh (V240.rt st) <= fresh (V240.rt s)
             /\ forall t, In t (intervals (V240.rt s)) ->
                          (exists t0, In t0 (intervals (V240.rt st))
                                      /\ handle t = handle t0)
                          \/ fresh (V240.rt st) <= handle t).
  { intros s Hf Hi. rewrite Hf, Hi. split; [lia|]. intros t Hin. left. now exists t. }
  destruct ev as [v | | ms | h r | h outcome | h]; cbn in Hstep.
  - injection Hstep as <-. now apply Hsame.
  - destruct (V240.submit_disabled st); [discriminate|]. injection Hstep as <-.
    unfold V240.handleSearch.
    destruct (parsePhoneNumberWithError w _) as [parsed|err]; cbn;
      [|now apply Hsame].
    destruct (isValid parsed); cbn; [|now apply Hsame].
    split; [lia|]. intros t Hin. apply in_app_or in Hin as [Hin | [<- | []]].
    + left. now exists t.
    + right. cbn. lia.
  - injection Hstep as <-. now apply Hsame.
  - destruct (find_timer h (intervals (V240.rt st))) as [t|]; [|discriminate].
    destruct (is_due t (V240.rt st) && is_random r); [|discriminate].
    injection Hstep as <-. unfold V240.tick.
    destruct (Qle_bool 100 _); cbn; (split; [lia|]); intros t0 Hin; left.
    + apply filter_In in Hin as [Hin _].
      apply (in_rearm_handle h (V240.rt st)) in Hin. exact Hin.
    + apply (in_rearm_handle h (V240.rt st)) in Hin. exact Hin.
  - destruct (find_request h (V240.rt st)) as [rq|]; [|discriminate].
    injection Hstep as <-.
    unfold V240.startScan_resume, V240.startScan_parse.
    destruct (rq_cont rq); destruct outcome; cbv zeta;
      try destruct (JSON_parse _); cbn;
      (split; [lia|]); intros t0 Hin; left; now exists t0.
  - destruct (find_timer h (timeouts (V240.rt st))) as [t|]; [|discriminate].
    destruct (is_due t (V240.rt st)); [|discriminate].
    injection Hstep as <-. now apply Hsame.
Qed.

Lemma gone_stays_gone_254 w h st evs st' :
  h < fresh (V254.rt st) ->
  find_timer h (intervals (V254.rt st)) = None ->
  V254.run w st evs = Some st' ->
  h < fresh (V254.rt st') /\ find_timer h (intervals (V254.rt st')) = None.
Proof.
  revert st. induction evs as [|ev evs IH]; intros st Hlt Hnone Hrun; cbn in Hrun.
  - injection Hrun as <-. now split.
  - destruct (V254.step w st ev) as [s|] eqn:Hstep; [|discriminate].
    destruct (step_intervals_254 w st ev s Hstep) as [Hf Hin].
    apply (IH s); [lia | | assumption].
    apply find_timer_none. intros t Ht Heq.
    destruct (Hin t Ht) as [(t0 & Hin0 & Hh) | Hnew]; [|lia].
    apply (proj1 (find_timer_none h _) Hnone t0 Hin0). congruence.
Qed.

Lemma gone_stays_gone_240 w h st evs st' :
  h < fresh (V240.rt st) ->
  find_timer h (intervals (V240.rt st)) = None ->
  V240.run w st evs = Some st' ->
  h < fresh (V240.rt st') /\ find_timer h (intervals (V240.rt st')) = None.
Proof.
  revert st. induction evs as [|ev evs IH]; intros st Hlt Hnone Hrun; cbn in Hrun.
  - injection Hrun as <-. now split.
  - destruct (V240.step w st ev) as [s|] eqn:Hstep; [|discriminate].
    destruct (step_intervals_240 w st ev s Hstep) as [Hf Hin].
    apply (IH s); [lia | | assumption].
    apply find_timer_none. intros t Ht Heq.
    destruct (Hin t Ht) as [(t0 & Hin0 & Hh) | Hnew]; [|lia].
    apply (proj1 (find_timer_none h _) Hnone t0 Hin0). congruence.
Qed.

(** X9.  A tick that finds the progress value at 100 or more sets it to
    exactly 100 and clears its own interval for good: whatever happens
    afterwards, that interval never ticks again (its handle is not reused).
    Both variants. *)
Theorem X9_cleared_interval_never_ticks_again :
  (forall w st h r st1 evs st2 r',
      V254.reachable w st ->
      Qle_bool 100 (V254.scanProgress st) = true ->
      V254.step w st (V254.Tick h r) = Some st1 ->
      V254.run w st1 evs = Some st2 ->
      V254.scanProgress st1 = 100%Q
      /\ V254.step w st2 (V254.Tick h r') = None)
  /\ (forall w st h r st1 evs st2 r',
      V240.reachable w st ->
      Qle_bool 100 (V240.scanProgress st) = true ->
      V240.step w st (V240.Tick h r) = Some st1 ->
      V240.run w st1 evs = Some st2 ->
      V240.scanProgress st1 = 100%Q
      /\ V240.step w st2 (V240.Tick h r') = None).
Proof.
  split.
  - intros w st h r st1 evs st2 r' Hreach Hge Hstep Hrun.
    pose proof (wf_handles_254 w st (reachable_wellformed_254 w st Hreach)) as Hh.
    cbn in Hstep.
    destruct (find_timer h (intervals (V254.rt st))) as [t|] eqn:Hfind; [|discriminate].
    destruct (is_due t (V254.rt st) && is_random r); [|discriminate].
    injection Hstep as <-.
    apply find_timer_some in Hfind as [Hin Heq].
    destruct (tick_from_100_254 h r (V254.onRuntime (rearm h) st) Hge) as [Hp Hnone].
    split; [exact Hp|].
    assert (Hlt : h < fresh (V254.rt (V254.tick h r (V254.onRuntime (rearm h) st)))).
    { unfold V254.tick. cbn. rewrite Hge. cbn. rewrite <- Heq. now apply Hh. }
    destruct (gone_stays_gone_254 w h _ evs st2 Hlt Hnone Hrun) as [_ Hgone].
    cbn. rewrite Hgone. reflexivity.
  - intros w st h r st1 evs st2 r' Hreach Hge Hstep Hrun.
    pose proof (wf_handles_240 w st (reachable_wellformed_240 w st Hreach)) as Hh.
    cbn in Hstep.
    destruct (find_timer h (intervals (V240.rt st))) as [t|] eqn:Hfind; [|discriminate].
    destruct (is_due t (V240.rt st) && is_random r); [|discriminate].
    injection Hstep as <-.
    apply find_timer_some in Hfind as [Hin Heq].
    destruct (tick_from_100_240 h r (V240.onRuntime (rearm h) st) Hge) as [Hp Hnone].
    split; [exact Hp|].
    assert (Hlt : h < fresh (V240.rt (V240.tick h r (V240.onRuntime (rearm h) st)))).
    { unfold V240.tick. cbn. rewrite Hge. cbn. rewrite <- Heq. now apply Hh. }
    destruct (gone_stays_gone_240 w h _ evs st2 Hlt Hnone Hrun) as [_ Hgone].
    cbn. rewrite Hgone. reflexivity.
Qed.

Lemma refused_254_reachable :
  V254.reachable Scenario.no_key Cases.refused_254.
Proof.
  apply (run_reachable_254 _ V254.init Scenario.submit_254); [apply V254.reach_init|].
  vm_compute. reflexivity.
Qed.

Lemma overshot_254_reachable :
  V254.reachable Scenario.with_key Cases.overshot_254.
Proof.
  apply (run_reachable_254 _ V254.init
           (Scenario.submit_254 ++ Scenario.ticking_254 14 ++ [V254.Elapse 300]));
    [apply V254.reach_init|].
  vm_compute. reflexivity.
Qed.

Lemma shown_254_reachable :
  V254.reachable Scenario.with_key Cases.shown_254.
Proof.
  apply (run_reachable_254 _ V254.init (Scenario.quick_answer_254 ++ [V254.Fire 2]));
    [apply V254.reach_init|].
  vm_compute. reflexivity.
Qed.

Lemma X4_witness :
  V254.error Cases.refused_254 = Some V254.missing_key_message
  /\ V254.isScanning Cases.refused_254 = false
  /\ V254.report Cases.refused_254 = JNull.
Proof.
  assert (Herr : V254.error Cases.refused_254 = Some V254.missing_key_message)
    by reflexivity.
  split; [exact Herr|].
  destruct (proj1 X4_error_excludes_scan_and_report Scenario.no_key
                  Cases.refused_254 _ refused_254_reachable Herr)
    as (_ & Hs & Hr & _).
  now split.
Defined.

Lemma X5_witness :
  V254.showKeyInput Cases.typed_no_key_254 = false
  /\ exists st',
      V254.step Scenario.no_key Cases.typed_no_key_254 V254.Submit = Some st'
      /\ V254.showKeyInput st' = true
      /\ V254.error st' = Some V254.missing_key_message.
Proof.
  split; [reflexivity|].
  destruct (V254.step Scenario.no_key Cases.typed_no_key_254 V254.Submit)
    as [st'|] eqn:Hstep; [| vm_compute in Hstep; discriminate].
  assert (Hon : V254.showKeyInput st' = true).
  { vm_compute in Hstep. injection Hstep as <-. reflexivity. }
  exists st'. split; [reflexivity|]. split; [exact Hon|].
  exact (proj1 (proj2 (proj1 X5_manual_key_field Scenario.no_key
                             Cases.typed_no_key_254 V254.Submit st'
                             Hstep eq_refl Hon))).
Defined.

(** A refused input, then a scan whose two calls are rejected: two
    submissions, one scan, two calls. *)
Lemma X6_witness :
  exists st,
    V254.run Scenario.with_key V254.init Cases.refused_then_rejected_254 = Some st
    /\ scans_started_254 Scenario.with_key V254.init Cases.refused_then_rejected_254 = 1
    /\ session (V254.rt st) = 2
    /\ length (calls (V254.rt st)) <= 2.
Proof.
  destruct (V254.run Scenario.with_key V254.init Cases.refused_then_rejected_254)
    as [st|] eqn:Hrun; [| vm_compute in Hrun; discriminate].
  exists st. split; [reflexivity|].
  assert (Hscans : scans_started_254 Scenario.with_key V254.init
                     Cases.refused_then_rejected_254 = 1)
    by (vm_compute; reflexivity).
  split; [exact Hscans|].
  split; [vm_compute in Hrun; injection Hrun as <-; reflexivity|].
  pose proof (proj1 X6_calls_per_scan_started Scenario.with_key
                    Cases.refused_then_rejected_254 st Hrun) as H.
  rewrite Hscans in H. exact H.
Defined.

Lemma X7_witness :
  exists st',
    V254.run Scenario.with_key Scenario.typed_254
             ([V254.Submit] ++ [V254.Elapse 300]
                ++ [V254.Settle 1 (Resolved Scenario.prose)]) = Some st'
    /\ length (calls (V254.rt st')) = 1
    /\ inflight (V254.rt st') = []
    /\ V254.phase st' = Failure.
Proof.
  assert (Hparse : JSON_parse (or_default (text Scenario.prose) "{}") = None)
    by (vm_compute; reflexivity).
  destruct (V254.run Scenario.with_key Scenario.typed_254
              ([V254.Submit] ++ [V254.Elapse 300]
                 ++ [V254.Settle 1 (Resolved Scenario.prose)]))
    as [st'|] eqn:Hrun; [| vm_compute in Hrun; discriminate].
  exists st'. split; [reflexivity|].
  destruct (X7_resolved_flash_call_is_not_retried
              Scenario.with_key Scenario.typed_254 st' [V254.Elapse 300] 1
              Scenario.prose typed_254_reachable eq_refl Hrun)
    as (apiKey & parsed & Hc & Hi & Hfail).
  rewrite Hc. split; [reflexivity|]. split; [exact Hi|].
  exact (proj1 (Hfail Hparse)).
Defined.

Lemma X8_witness :
  exists st',
    V240.step Scenario.with_key Scenario.scanning_240
              (V240.Settle 1 (Rejected (Error "429 quota exceeded"))) = Some st'
    /\ V240.error st' = Some V240.report_failure_message
    /\ calls (V240.rt st') = calls (V240.rt Scenario.scanning_240).
Proof.
  destruct (V240.step Scenario.with_key Scenario.scanning_240
              (V240.Settle 1 (Rejected (Error "429 quota exceeded"))))
    as [st'|] eqn:Hstep; [| vm_compute in Hstep; discriminate].
  exists st'. split; [reflexivity|].
  destruct (X8_rejected_call_shows_fixed_text Scenario.with_key
              Scenario.scanning_240 1 _ st' scanning_240_reachable Hstep)
    as (He & _ & _ & Hc & _).
  now split.
Defined.

Lemma X9_witness :
  Qle_bool 100 (V254.scanProgress Cases.overshot_254) = true
  /\ exists st1 st2,
      V254.step Scenario.with_key Cases.overshot_254 (V254.Tick 0 (3 # 4)) = Some st1
      /\ V254.run Scenario.with_key st1 [V254.Elapse 300] = Some st2
      /\ V254.scanProgress st1 = 100%Q
      /\ V254.step Scenario.with_key st2 (V254.Tick 0 (1 # 2)) = None.
Proof.
  split; [reflexivity|].
  destruct (V254.step Scenario.with_key Cases.overshot_254 (V254.Tick 0 (3 # 4)))
    as [st1|] eqn:Hstep; [| vm_compute in Hstep; discriminate].
  exists st1, (V254.onRuntime (elapse 300) st1).
  split; [reflexivity|]. split; [reflexivity|].
  exact (proj1 X9_cleared_interval_never_ticks_again
               Scenario.with_key Cases.overshot_254 0 (3 # 4)%Q st1
               [V254.Elapse 300] _ (1 # 2)%Q
               overshot_254_reachable eq_refl Hstep eq_refl).
Defined.

(** ** The rendered tree (v2.5.4) *)

Lemma is_string_child_ok c : is_string c = true -> View254.child_ok c = true.
Proof. destruct c as [[]|]; cbn; congruence. Qed.

Lemma is_risk_child_ok c : is_risk c = true -> View254.child_ok c = true.
Proof. destruct c as [[]|]; cbn; congruence. Qed.

Lemma strings_renderable items :
  forallb (fun i => is_string (Some i)) items = true ->
  forallb View254.renderable items = true.
Proof.
  induction items as [|i items IH]; cbn; [reflexivity|].
  intros H. apply andb_prop in H as [Hi Hrest].
  rewrite (IH Hrest). destruct i; cbn in *; congruence.
Qed.

(** X10.  A report that has the shape of [IntelReport] always renders once
    the scan is over: the view is the results panel, its recommendation cards
    are the report's recommendations in order, and the risk, region and
    carrier texts are the report's fields. *)
Theorem X10_conforming_report_renders w st ms :
  V254.report st = JObject ms ->
  conforms_IntelReport (JObject ms) = true ->
  V254.isScanning st = false ->
  exists v r recs,
    View254.render w st = Some v
    /\ View254.panel v = View254.ResultsPanel r
    /\ get_member "recommendations" ms = Some (JArray recs)
    /\ View254.recommendation_cards r = recs
    /\ View254.risk_card r = get_member "securityRisk" ms
    /\ View254.regional_analysis r = get_member "regionDetails" ms
    /\ View254.network_intelligence r = get_member "carrierInfo" ms.
Proof.
  intros Hr Hconf Hscan. cbn in Hconf.
  apply andb_prop in Hconf as [Hconf Hrecs].
  apply andb_prop in Hconf as [Hconf Hrisk].
  apply andb_prop in Hconf as [Hconf Hcarrier].
  apply andb_prop in Hconf as [Hsummary Hregion].
  destruct (get_member "recommendations" ms) as [[| | | | recs |]|] eqn:Hget;
    try discriminate Hrecs.
  cbn in Hrecs.
  unfold View254.render. rewrite Hscan, Hr.
  unfold View254.results_panel, View254.prop. cbn [truthy].
  rewrite Hget.
  rewrite (is_risk_child_ok _ Hrisk), (is_string_child_ok _ Hregion),
    (is_string_child_ok _ Hcarrier), (strings_renderable _ Hrecs).
  cbn [andb].
  eexists. eexists. exists recs. repeat split.
Qed.

Lemma X10_witness :
  exists v r,
    View254.render Scenario.with_key Cases.shown_254 = Some v
    /\ View254.panel v = View254.ResultsPanel r
    /\ View254.recommendation_cards r = [JString "a"; JString "b"; JString "c"].
Proof.
  destruct (X10_conforming_report_renders Scenario.with_key Cases.shown_254
              [("summary", JString "x"); ("regionDetails", JString "y");
               ("carrierInfo", JString "z"); ("securityRisk", JString "Low");
               ("recommendations", JArray [JString "a"; JString "b"; JString "c"])]
              eq_refl eq_refl eq_refl)
    as (v & r & recs & Hv & Hp & Hget & Hcards & _).
  exists v, r. split; [exact Hv|]. split; [exact Hp|].
  rewrite Hcards. cbn in Hget. now injection Hget as <-.
Defined.

Lemma get_member_cons key k v rest :
  get_member key ((k, v) :: rest)
  = match get_member key rest with
    | Some v' => Some v'
    | None => if k =? key then Some v else None
    end.
Proof. reflexivity. Qed.

(** X11.  The summary of a report is never displayed: two reports whose
    members agree on every key but [summary] give the same tree (or both
    make rendering throw), whatever the rest of the state. *)
Theorem X11_summary_is_never_displayed w st ms ms' :
  (forall key, key <> "summary" -> get_member key ms = get_member key ms') ->
  View254.render w (V254.setReport (JObject ms) st)
  = View254.render w (V254.setReport (JObject ms') st).
Proof.
  intros Hagree.
  unfold View254.render, View254.results_panel, View254.prop, V254.setReport.
  cbn [V254.report V254.isScanning V254.phoneNumber V254.manualKey
       V254.showKeyInput V254.error V254.parsedData V254.scanProgress truthy].
  rewrite (Hagree "securityRisk"), (Hagree "regionDetails"),
    (Hagree "carrierInfo"), (Hagree "recommendations") by discriminate.
  reflexivity.
Qed.

Lemma X11_witness :
  View254.render Scenario.with_key
    (V254.setReport (JObject [("summary", JString "x"); ("recommendations", JArray [])])
                    Cases.shown_254)
  = View254.render Scenario.with_key
      (V254.setReport (JObject [("recommendations", JArray [])]) Cases.shown_254).
Proof.
  apply X11_summary_is_never_displayed.
  intros key Hkey.
  rewrite (get_member_cons key "summary").
  destruct (get_member key [("recommendations", JArray [])]); [reflexivity|].
  destruct (String.eqb_spec "summary" key); [congruence | reflexivity].
Defined.

(** A key is looked up as the text it spells, not as it is written: of two
    members named [recommendations], one of them with an escaped letter, the
    later one is the report's.  With the number last the results panel
    throws; with the array last it renders. *)
Example escaped_key_is_the_key_it_spells :
  (exists st',
      V254.run Scenario.with_key V254.init
               (Scenario.submit_254
                  ++ [V254.Settle 1 (Resolved (mkResponse (Some
                        ("{" ++ quoted "recommendations" ++ ":[" ++ quoted "a" ++ "],"
                         ++ quoted "\u0072ecommendations" ++ ":5}")%string)));
                      V254.Elapse 1500; V254.Fire 2]) = Some st'
      /\ View254.prop (V254.report st') "recommendations" = JSON_parse "5"
      /\ conforms_IntelReport (V254.report st') = false
      /\ View254.render Scenario.with_key st' = None)
  /\
  (exists st' v r,
      V254.run Scenario.with_key V254.init
               (Scenario.submit_254
                  ++ [V254.Settle 1 (Resolved (mkResponse (Some
                        ("{" ++ quoted "\u0072ecommendations" ++ ":5,"
                         ++ quoted "recommendations" ++ ":[" ++ quoted "a" ++ "]}")%string)));
                      V254.Elapse 1500; V254.Fire 2]) = Some st'
      /\ View254.render Scenario.with_key st' = Some v
      /\ View254.panel v = View254.ResultsPanel r
      /\ View254.recommendation_cards r = [JString "a"]).
Proof.
  split.
  - eexists. split; [vm_compute; reflexivity|].
    repeat split; vm_compute; reflexivity.
  - eexists. eexists. eexists. split; [vm_compute; reflexivity|].
    split; [vm_compute; reflexivity|]. split; reflexivity.
Qed.

(** X12.  A resolved response with an empty or absent text leads to a screen
    whose rendering throws: the text of an empty object parses, the pause
    ends with the empty object as the report, the phase is Success, and the
    results panel calls [map] on a [recommendations] that is undefined. *)
Theorem X12_empty_response_breaks_rendering w st h response st1 evs h' st2 :
  V254.reachable w st ->
  truthy_str (text response) = false ->
  V254.step w st (V254.Settle h (Resolved response)) = Some st1 ->
  forallb V254.passive evs = true ->
  V254.run w st1 (evs ++ [V254.Fire h']) = Some st2 ->
  V254.report st2 = JObject []
  /\ V254.phase st2 = Success
  /\ View254.render w st2 = None.
Proof.
  intros Hreach Hfalsy Hsettle Hpassive Hrun.
  assert (Hbody : or_default (text response) "{}" = "{}").
  { destruct (text response) as [s|]; cbn in *; [|reflexivity].
    destruct (s =? ""); [reflexivity | discriminate]. }
  assert (Hparse : JSON_parse (or_default (text response) "{}") = Some (JObject [])).
  { rewrite Hbody. vm_compute. reflexivity. }
  destruct (parsed_response_arms_pause_254 w st st1 h response _ Hreach Hparse Hsettle)
    as (_ & _ & _ & _ & t & Ht & _ & _ & Hpayload).
  apply run_app_254 in Hrun as (s1' & Hevs & Hfire).
  apply run_one_254 in Hfire.
  pose proof (V254.reach_step w st _ st1 Hreach Hsettle) as Hreach1.
  pose proof (run_reachable_254 w st1 evs s1' Hreach1 Hevs) as Hreach1'.
  pose proof (passive_run_254 w st1 evs s1' Hpassive Hevs)
    as (_ & _ & _ & _ & Ht' & _).
  destruct (fired_pause_shows_report_254 w s1' st2 h' Hreach1' Hfire)
    as (t' & Ht2 & _ & Hr & Hs & He & _).
  rewrite Ht', Ht in Ht2. injection Ht2 as <-.
  rewrite Hpayload in Hr.
  split; [exact Hr|].
  unfold V254.phase, View254.render. rewrite Hs, He, Hr. now split.
Qed.

Lemma X12_witness :
  exists st1 st2,
    V254.step Scenario.with_key Scenario.scanning_254
              (V254.Settle 1 (Resolved (mkResponse None))) = Some st1
    /\ V254.run Scenario.with_key st1 ([V254.Elapse 1500] ++ [V254.Fire 2]) = Some st2
    /\ V254.phase st2 = Success
    /\ View254.render Scenario.with_key st2 = None.
Proof.
  destruct (V254.step Scenario.with_key Scenario.scanning_254
              (V254.Settle 1 (Resolved (mkResponse None))))
    as [st1|] eqn:Hstep; [| vm_compute in Hstep; discriminate].
  destruct (V254.run Scenario.with_key st1 ([V254.Elapse 1500] ++ [V254.Fire 2]))
    as [st2|] eqn:Hrun.
  - exists st1, st2. split; [reflexivity|]. split; [exact Hrun|].
    exact (proj2 (X12_empty_response_breaks_rendering
                    Scenario.with_key Scenario.scanning_254 1 (mkResponse None) st1
                    [V254.Elapse 1500] 2 st2
                    scanning_254_reachable eq_refl Hstep eq_refl Hrun)).
  - exfalso. vm_compute in Hstep. injection Hstep as <-.
    vm_compute in Hrun. discriminate.
Defined.

(** X13.  Outside Success rendering never throws, and on a reachable screen
    the error box is only ever shown beside the ready placeholder, never
    beside the progress ring or a report. *)
Theorem X13_error_box_beside_ready_panel w st :
  V254.reachable w st ->
  (V254.phase st <> Success -> exists v, View254.render w st = Some v)
  /\ (forall v msg,
         View254.render w st = Some v ->
         View254.error_box v = Some msg ->
         View254.panel v = View254.ReadyPanel /\ msg <> "").
Proof.
  intros Hreach.
  pose proof (wf_exclusive_254 w st (reachable_wellformed_254 w st Hreach)) as Hex.
  split.
  - intros Hphase. unfold View254.render. unfold V254.phase in Hphase.
    destruct (V254.isScanning st); [eexists; reflexivity|].
    destruct (V254.error st) as [msg|] eqn:Herr.
    + destruct (Hex msg eq_refl) as (_ & _ & Hr). rewrite Hr. cbn.
      eexists. reflexivity.
    + cbn in Hphase. destruct (truthy (V254.report st)); [congruence|].
      eexists. reflexivity.
  - intros v msg Hrender Hbox. unfold View254.render in Hrender.
    destruct (V254.error st) as [m|] eqn:Herr.
    + destruct (Hex m eq_refl) as (Hne & Hs & Hr).
      rewrite Hs, Hr in Hrender. cbn in Hrender. injection Hrender as <-.
      cbn in Hbox. split; [reflexivity|].
      destruct (negb (m =? "")); [|discriminate]. now injection Hbox as <-.
    + exfalso.
      destruct (V254.isScanning st).
      * injection Hrender as <-. cbn in Hbox. discriminate.
      * destruct (truthy (V254.report st)).
        -- destruct (View254.results_panel _ _); [|discriminate].
           injection Hrender as <-. cbn in Hbox. discriminate.
        -- injection Hrender as <-. cbn in Hbox. discriminate.
Qed.

Lemma X13_witness :
  exists v,
    View254.render Scenario.no_key Cases.refused_254 = Some v
    /\ View254.panel v = View254.ReadyPanel
    /\ View254.error_box v = Some V254.missing_key_message.
Proof.
  destruct (proj1 (X13_error_box_beside_ready_panel
                     Scenario.no_key Cases.refused_254 refused_254_reachable)
                  ltac:(discriminate)) as [v Hv].
  exists v. split; [exact Hv|].
  assert (Hbox : View254.error_box v = Some V254.missing_key_message).
  { vm_compute in Hv. injection Hv as <-. reflexivity. }
  split; [|exact Hbox].
  exact (proj1 (proj2 (X13_error_box_beside_ready_panel
                         Scenario.no_key Cases.refused_254 refused_254_reachable)
                      v _ Hv Hbox)).
Defined.

(** X14.  While scanning, the ring of v2.5.4 shows the progress value
    rounded to the nearest integer, and on every reachable screen that is a
    number from 0 to 110: it can pass 100, but not 110. *)
Theorem X14_ring_percentage w st :
  V254.reachable w st ->
  V254.isScanning st = true ->
  exists v offset,
    View254.render w st = Some v
    /\ View254.panel v
       = View254.ScanningPanel (View254.Math_round (V254.scanProgress st)) offset
    /\ (0 <= View254.Math_round (V254.scanProgress st) <= 110)%Z.
Proof.
  intros Hreach Hscan.
  destruct (wf_progress_254 w st (reachable_wellformed_254 w st Hreach)) as [H0 H110].
  unfold View254.render. rewrite Hscan.
  eexists. eexists. split; [reflexivity|]. split; [reflexivity|].
  unfold View254.Math_round. split.
  - change 0%Z with (Qfloor (0 + (1 # 2))).
    apply Qfloor_resp_le. apply Qplus_le_l. exact H0.
  - change 110%Z with (Qfloor (110 + (1 # 2))).
    apply Qfloor_resp_le. apply Qplus_le_l. now apply Qlt_le_weak.
Qed.

Lemma X14_witness :
  exists v offset,
    View254.render Scenario.with_key Cases.overshot_254 = Some v
    /\ View254.panel v = View254.ScanningPanel 105 offset.
Proof.
  destruct (X14_ring_percentage Scenario.with_key Cases.overshot_254
              overshot_254_reachable eq_refl) as (v & offset & Hv & Hp & _).
  exists v, offset. split; [exact Hv|]. exact Hp.
Defined.

(** X15.  The header badge of v2.5.4 looks at the manual key and two of the
    four configured variables, and only at whether they are set.  So: when
    the scan's credential check passes on one of those three, the badge reads
    KEY_OK; when the badge reads NO_KEY, the key the scan resolves is the one
    of the two other variables; and when the first of the three that is set
    holds the placeholder, the badge reads KEY_OK although the scan will
    refuse the key as missing. *)
Theorem X15_key_badge_and_credential_check :
  (forall w st v,
      View254.render w st = Some v ->
      V254.key_missing (V254.resolve_key w st) = false ->
      truthy_str (API_KEY w) = false ->
      truthy_str (VITE_GEMINI_API_KEY w) = false ->
      View254.badge_text v = "KEY_OK")
  /\ (forall w st v,
      View254.render w st = Some v ->
      View254.badge_text v = "NO_KEY" ->
      V254.resolve_key w st = or_js (API_KEY w) (VITE_GEMINI_API_KEY w))
  /\ (forall w st v,
      View254.render w st = Some v ->
      View254.badge_key w st = Some V254.placeholder_key ->
      View254.badge_text v = "KEY_OK"
      /\ V254.key_missing (V254.resolve_key w st) = true).
Proof.
  assert (Hbadge : forall w st v,
             View254.render w st = Some v ->
             View254.badge_text v
             = if truthy_str (View254.badge_key w st) then "KEY_OK" else "NO_KEY").
  { intros w st v. unfold View254.render.
    destruct (V254.isScanning st); [now intros [= <-]|].
    destruct (truthy (V254.report st)); [|now intros [= <-]].
    destruct (View254.results_panel _ _); [now intros [= <-] | discriminate]. }
  assert (Hres : forall w st,
             V254.resolve_key w st
             = or_js (or_js (View254.badge_key w st) (API_KEY w))
                     (VITE_GEMINI_API_KEY w)) by reflexivity.
  split; [|split].
  - intros w st v Hv Hkey Hapi Hvite. rewrite (Hbadge w st v Hv).
    destruct (truthy_str (View254.badge_key w st)) eqn:Hb; [reflexivity|].
    exfalso. rewrite Hres in Hkey. unfold or_js in Hkey at 2.
    rewrite Hb in Hkey. unfold or_js in Hkey. rewrite Hapi in Hkey.
    unfold V254.key_missing in Hkey. rewrite Hvite in Hkey. discriminate.
  - intros w st v Hv Htext. rewrite (Hbadge w st v Hv) in Htext.
    destruct (truthy_str (View254.badge_key w st)) eqn:Hb; [discriminate|].
    rewrite Hres. unfold or_js at 2. rewrite Hb. reflexivity.
  - intros w st v Hv Hplace. rewrite (Hbadge w st v Hv), Hres, Hplace.
    split; reflexivity.
Qed.

Lemma X15_witness :
  exists v,
    View254.render Scenario.placeholder_build Cases.typed_no_key_254 = Some v
    /\ View254.badge_text v = "KEY_OK"
    /\ V254.key_missing
         (V254.resolve_key Scenario.placeholder_build Cases.typed_no_key_254) = true.
Proof.
  eexists. split; [reflexivity|].
  exact (proj2 (proj2 X15_key_badge_and_credential_check)
               Scenario.placeholder_build Cases.typed_no_key_254 _ eq_refl eq_refl).
Defined.

(** ** The class-name helper *)

Lemma string_append_assoc (a b c : string) :
  ((a ++ b) ++ c)%string = (a ++ b ++ c)%string.
Proof. induction a as [|x a IH]; cbn; [reflexivity | now rewrite IH]. Qed.

Lemma concat_app_nonempty sep (a b : list string) :
  a <> [] -> b <> [] ->
  String.concat sep (a ++ b)
  = (String.concat sep a ++ sep ++ String.concat sep b)%string.
Proof.
  intros Ha Hb. induction a as [|x a IH]; [contradiction|].
  destruct a as [|y a].
  - cbn. destruct b; [contradiction | reflexivity].
  - change (String.concat sep ((x :: y :: a) ++ b))
      with (x ++ sep ++ String.concat sep ((y :: a) ++ b))%string.
    rewrite IH by discriminate.
    change (String.concat sep (x :: y :: a))
      with (x ++ sep ++ String.concat sep (y :: a))%string.
    rewrite !string_append_assoc. reflexivity.
Qed.

Lemma append_empty (a b : string) : (a ++ b)%string = "" -> a = "".
Proof. destruct a; [reflexivity | discriminate]. Qed.

Lemma concat_empty sep (a : list string) :
  (forall x, In x a -> x <> "") -> String.concat sep a = "" -> a = [].
Proof.
  intros Hne Hc. destruct a as [|x a]; [reflexivity|]. exfalso.
  apply (Hne x); [now left|].
  destruct a as [|y a]; [exact Hc|].
  change (String.concat sep (x :: y :: a))
    with (x ++ sep ++ String.concat sep (y :: a))%string in Hc.
  now apply append_empty in Hc.
Qed.

Lemma kept_classes_not_empty classes x :
  In x (map class_text (filter class_truthy classes)) -> x <> "".
Proof.
  intros Hin. apply in_map_iff in Hin as (c & <- & Hc).
  apply filter_In in Hc as [_ Ht].
  destruct c as [s | [] |]; cbn in *; try discriminate.
  destruct (String.eqb_spec s ""); [discriminate | assumption].
Qed.

Lemma cn_empty_iff classes :
  cn classes = "" <-> filter class_truthy classes = [].
Proof.
  unfold cn. split.
  - intros H. apply concat_empty in H; [|apply kept_classes_not_empty].
    now apply map_eq_nil in H.
  - intros ->. reflexivity.
Qed.

(** X16.  [cn]: falsy arguments (undefined, false, the empty string) change
    nothing wherever they stand; the result is empty exactly when every
    argument is falsy; and joining two results with [cn] is the same as one
    call on all the arguments. *)
Theorem X16_cn_drops_falsy_and_nests :
  (forall xs c ys, class_truthy c = false -> cn (xs ++ c :: ys) = cn (xs ++ ys))
  /\ (forall xs, cn xs = "" <-> forallb (fun c => negb (class_truthy c)) xs = true)
  /\ (forall xs ys, cn [ClsString (cn xs); ClsString (cn ys)] = cn (xs ++ ys)).
Proof.
  split; [|split].
  - intros xs c ys Hc. unfold cn. rewrite !filter_app. cbn. rewrite Hc. reflexivity.
  - intros xs. rewrite cn_empty_iff. induction xs as [|c xs IH]; cbn.
    + split; reflexivity.
    + destruct (class_truthy c); cbn; [split; discriminate | exact IH].
  - intros xs ys.
    assert (Hx := cn_empty_iff xs). assert (Hy := cn_empty_iff ys).
    unfold cn at 1. cbn [filter class_truthy].
    destruct (String.eqb_spec (cn xs) "") as [Ex | Ex];
      destruct (String.eqb_spec (cn ys) "") as [Ey | Ey]; cbn [negb map class_text].
    + apply Hx in Ex. apply Hy in Ey. unfold cn. rewrite filter_app, Ex, Ey.
      reflexivity.
    + apply Hx in Ex. unfold cn at 2. rewrite filter_app, Ex. reflexivity.
    + apply Hy in Ey. unfold cn at 2. rewrite filter_app, Ey, app_nil_r.
      reflexivity.
    + unfold cn. rewrite filter_app, map_app.
      rewrite concat_app_nonempty.
      * reflexivity.
      * intros H. apply map_eq_nil in H. apply Ex. now apply Hx.
      * intros H. apply map_eq_nil in H. apply Ey. now apply Hy.
Qed.

Lemma X16_witness :
  cn ([ClsString "w-4 h-4"] ++ ClsUndefined :: [ClsString "text-emerald-400"])
  = "w-4 h-4 text-emerald-400".
Proof.
  rewrite (proj1 X16_cn_drops_falsy_and_nests
                 [ClsString "w-4 h-4"] ClsUndefined [ClsString "text-emerald-400"]
                 eq_refl).
  reflexivity.
Defined.

(** ** The first screen *)

Lemma basic_typing_run w vs : forall st rest,
  exists v,
    Basic.run w st (map Basic.ChangePhoneNumber vs ++ rest)
    = Basic.run w (Basic.setPhoneNumber v st) rest.
Proof.
  induction vs as [|v vs IH]; intros st rest.
  - exists (Basic.phoneNumber st). destruct st; reflexivity.
  - destruct (IH (Basic.setPhoneNumber v st) rest) as [v' H].
    exists v'. exact H.
Qed.

Lemma basic_step_keeps_shape w st ev st' :
  Basic.settled_or_loading st ->
  Basic.step w st ev = Some st' ->
  Basic.settled_or_loading st'.
Proof.
  intros Hinv Hstep. destruct ev as [v | | h outcome]; cbn in Hstep.
  - injection Hstep as <-.
    destruct Hinv as [Hl Hp Hs | p Hl Hp Hr He].
    + now apply Basic.basic_settled.
    + now apply (Basic.basic_loading _ p).
  - destruct (Basic.loading st) eqn:Hl; [discriminate|]. injection Hstep as <-.
    destruct Hinv as [_ Hp _ | p Hl' _ _ _]; [|congruence].
    unfold Basic.handleSearch. cbn.
    destruct (parsePhoneNumberWithError w (Basic.phoneNumber st)) as [parsed | err].
    + destruct (isValid parsed).
      * apply (Basic.basic_loading _ (Basic.mkPending (Basic.next_handle st) parsed));
          cbn; try reflexivity. now rewrite Hp.
      * apply Basic.basic_settled; cbn; [reflexivity | exact Hp | discriminate].
    + apply Basic.basic_settled; cbn; [reflexivity | exact Hp | discriminate].
  - destruct (find _ (Basic.pending st)) as [p|] eqn:Hfind; [|discriminate].
    injection Hstep as <-.
    destruct Hinv as [_ Hp _ | q Hl Hp Hr He]; [rewrite Hp in Hfind; discriminate|].
    rewrite Hp in Hfind. cbn in Hfind.
    destruct (Basic.pd_handle q =? h)%nat eqn:Hh; [|discriminate].
    destruct outcome as [response | err]; apply Basic.basic_settled; cbn;
      try reflexivity; rewrite ?Hp; cbn; rewrite ?Hh; cbn; try reflexivity.
    + intros _. unfold Basic.shows_error. cbn. now rewrite He.
    + unfold Basic.shows_result. cbn. rewrite Hr. discriminate.
Qed.

Lemma basic_reachable_shape w st :
  Basic.reachable w st -> Basic.settled_or_loading st.
Proof.
  induction 1 as [|st ev st' _ IH Hstep].
  - apply Basic.basic_settled; [reflexivity | reflexivity | discriminate].
  - exact (basic_step_keeps_shape w st ev st' IH Hstep).
Qed.

Lemma typed_basic_reachable : Basic.reachable Scenario.with_key Cases.typed_basic.
Proof.
  apply (Basic.reach_step _ Basic.init (Basic.ChangePhoneNumber Scenario.raw_number)).
  - apply Basic.reach_init.
  - reflexivity.
Qed.

Lemma loading_basic_reachable : Basic.reachable Scenario.with_key Cases.loading_basic.
Proof.
  apply (Basic.reach_step _ Cases.typed_basic Basic.Submit).
  - exact typed_basic_reachable.
  - vm_compute. reflexivity.
Qed.

(** X17.  The first screen, built with a key: on every reachable state the
    button is disabled exactly while one call is in flight, at most one call
    is ever in flight, while it is neither an error nor a result is shown,
    and an error and a result are never shown together. *)
Theorem X17_first_screen_loading_discipline w st :
  truthy_str (GEMINI_API_KEY w) = true ->
  Basic.reachable w st ->
  (Basic.loading st = true <-> Basic.pending st <> [])
  /\ (length (Basic.pending st) <= 1)%nat
  /\ (Basic.loading st = true ->
      Basic.shows_error st = false /\ Basic.shows_result st = false)
  /\ (Basic.shows_result st = true -> Basic.shows_error st = false).
Proof.
  intros _ Hreach.
  destruct (basic_reachable_shape w st Hreach) as [Hl Hp Hs | p Hl Hp Hr He].
  - rewrite Hl, Hp. split; [|split; [|split]].
    + split; [discriminate | congruence].
    + cbn. lia.
    + discriminate.
    + exact Hs.
  - rewrite Hl, Hp. unfold Basic.shows_error, Basic.shows_result.
    rewrite Hr, He. split; [|split; [|split]].
    + split; [discriminate | reflexivity].
    + cbn. lia.
    + intros _. split; reflexivity.
    + discriminate.
Qed.

Lemma X17_witness :
  Basic.shows_error Cases.loading_basic = false
  /\ Basic.shows_result Cases.loading_basic = false.
Proof.
  exact (proj1 (proj2 (proj2
           (X17_first_screen_loading_discipline Scenario.with_key Cases.loading_basic
              eq_refl loading_basic_reachable))) eq_refl).
Defined.

(** X18.  The first screen stores the message of a validation failure as it
    is, with no fallback text: no call is made and the button is enabled
    again, and when the thrown error has no message or an empty one the
    screen shows neither an error nor a result. *)
Theorem X18_first_screen_validation_failure w st err :
  Basic.loading st = false ->
  Basic.validation_error w (Basic.phoneNumber st) = Some err ->
  exists st',
    Basic.step w st Basic.Submit = Some st'
    /\ Basic.error st' = message err
    /\ Basic.result st' = None
    /\ Basic.loading st' = false
    /\ Basic.sent st' = Basic.sent st
    /\ Basic.pending st' = Basic.pending st
    /\ Basic.shows_result st' = false
    /\ (truthy_str (message err) = false -> Basic.shows_error st' = false).
Proof.
  intros Hl Hv. unfold Basic.step. rewrite Hl. eexists. split; [reflexivity|].
  unfold Basic.validation_error in Hv. unfold Basic.handleSearch.
  cbn [Basic.phoneNumber Basic.setLoading Basic.setResult Basic.setError].
  destruct (parsePhoneNumberWithError w (Basic.phoneNumber st)) as [parsed | e].
  - destruct (isValid parsed); [discriminate|]. injection Hv as <-.
    cbn. repeat split; try reflexivity. discriminate.
  - injection Hv as <-. cbn. repeat split; try reflexivity.
    intros H. unfold Basic.shows_error. cbn. exact H.
Qed.

Lemma X18_witness :
  exists st',
    Basic.step Scenario.with_key Basic.init Basic.Submit = Some st'
    /\ Basic.error st' = Some "NOT_A_NUMBER".
Proof.
  destruct (X18_first_screen_validation_failure Scenario.with_key Basic.init
              (Error "NOT_A_NUMBER") eq_refl eq_refl)
    as (st' & Hstep & Herr & _).
  exists st'. split; [exact Hstep | exact Herr].
Defined.

(** X19.  The first screen, built with a key, from any reachable state whose
    button is enabled and whose input is a valid number: the submission
    sends exactly one call, for the number as it was when the form was
    submitted, whatever is typed while the call is in flight; when the call
    resolves, the result holds the parsed number, its country and the
    response text as it came (not parsed, possibly undefined) and no error is
    set; when it rejects, the error is the rejection's message and there is
    no result.  Either way the button is enabled again and nothing is left
    pending. *)
Theorem X19_first_screen_round_trip w st parsed vs outcome :
  truthy_str (GEMINI_API_KEY w) = true ->
  Basic.reachable w st ->
  Basic.loading st = false ->
  parsePhoneNumberWithError w (Basic.phoneNumber st) = Resolved parsed ->
  isValid parsed = true ->
  exists st',
    Basic.run w st (Basic.Submit :: map Basic.ChangePhoneNumber vs
                      ++ [Basic.Settle (Basic.next_handle st) outcome]) = Some st'
    /\ Basic.loading st' = false
    /\ Basic.pending st' = []
    /\ Basic.sent st'
       = Basic.sent st
           ++ [Basic.mkBasicCall (GEMINI_API_KEY w) "gemini-3.1-pro-preview"
                 ("Analyze phone number: " ++ number parsed
                    ++ ". Provide origin and carrier info in Indonesian.")%string]
    /\ match outcome with
       | Resolved response =>
           Basic.result st'
           = Some (Basic.mkResult (number parsed) (country parsed) (text response))
           /\ Basic.error st' = Some ""
       | Rejected err =>
           Basic.result st' = None /\ Basic.error st' = message err
       end.
Proof.
  intros Hkey Hreach Hl Hparse Hvalid.
  assert (Hp : Basic.pending st = []).
  { destruct (basic_reachable_shape w st Hreach) as [_ Hp _ | p Hl' _ _ _];
      [exact Hp | congruence]. }
  assert (Hcall : Basic.the_call w parsed
                  = Basic.mkBasicCall (GEMINI_API_KEY w) "gemini-3.1-pro-preview"
                      ("Analyze phone number: " ++ number parsed
                         ++ ". Provide origin and carrier info in Indonesian.")%string).
  { unfold Basic.the_call, Basic.prompt, or_default.
    destruct (GEMINI_API_KEY w) as [k|]; [|discriminate].
    cbn in Hkey. destruct (String.eqb_spec k ""); [discriminate|].
    destruct k; [contradiction | reflexivity]. }
  change (Basic.run w st (Basic.Submit :: map Basic.ChangePhoneNumber vs
                            ++ [Basic.Settle (Basic.next_handle st) outcome]))
    with (match Basic.step w st Basic.Submit with
          | Some st1 => Basic.run w st1 (map Basic.ChangePhoneNumber vs
                            ++ [Basic.Settle (Basic.next_handle st) outcome])
          | None => None
          end).
  unfold Basic.step at 1. rewrite Hl. unfold Basic.handleSearch.
  cbn [Basic.phoneNumber Basic.setLoading Basic.setResult Basic.setError].
  rewrite Hparse, Hvalid, Hcall.
  match goal with
  | |- context [Basic.run w ?s (map _ vs ++ ?r)] =>
      destruct (basic_typing_run w vs s r) as [v' ->]
  end.
  unfold Basic.run, Basic.step.
  cbn [Basic.pending Basic.next_handle Basic.setPhoneNumber Basic.generateContent
       Basic.setLoading Basic.setResult Basic.setError].
  rewrite Hp. cbn [app find Basic.pd_handle]. rewrite Nat.eqb_refl.
  eexists. split; [reflexivity|].
  destruct outcome as [response | err]; cbn; rewrite Hp; cbn;
    rewrite Nat.eqb_refl; cbn; repeat split; reflexivity.
Qed.

Lemma X19_witness :
  exists st',
    Basic.run Scenario.with_key Cases.typed_basic
              [Basic.Submit; Basic.ChangePhoneNumber "0";
               Basic.Settle 0 (Resolved (mkResponse (Some "Telkomsel, Indonesia")))]
    = Some st'
    /\ Basic.result st'
       = Some (Basic.mkResult "+6281234567890" (Some "ID")
                              (Some "Telkomsel, Indonesia")).
Proof.
  destruct (X19_first_screen_round_trip Scenario.with_key Cases.typed_basic
              Scenario.indonesian_mobile ["0"]
              (Resolved (mkResponse (Some "Telkomsel, Indonesia")))
              eq_refl typed_basic_reachable eq_refl eq_refl eq_refl)
    as (st' & Hrun & _ & _ & _ & Hres & _).
  exists st'. split; [exact Hrun | exact Hres].
Defined.
